(** * docker-manager: reconciliation and observation engine

    A shallow embedding of the Go sources of huxcrux/docker-manager:
    - [pkg/config]  : configuration records and [ConfigToDockerConfig];
    - [pkg/docker]  : the container operations built on the engine client;
    - [pkg/metrics] : the derived gauges of [UpdateMetrics];
    - [main]        : comparator, freshness check, reconciliation loop,
                      pruner, stats handler and the HTTP handlers.

    Go values are modelled as follows.  A [string] is a [string]; an
    [error] is its text, and a function returning [error] returns
    [option error] ([None] is [nil]); a function returning [(T, error)]
    returns a pair, as the Go code does.  The slices [Cmd] and [Env] are
    [option (list _)], [None] being the nil slice that [config.Cmd != nil]
    tests for.  [nat.PortSet] is a finite set and [nat.PortMap] a finite
    map; in the records of the SDK, where the engine may answer the nil
    map, they are an [option] of one.
    [uint64] is a [Z] reduced modulo [2^64]; [float64] is a [spec_float]
    with 53 bits of precision. *)

From Stdlib Require Import ZArith SpecFloat DecimalString.
From stdpp Require Import base option list strings gmap.

Set Default Proof Using "Type".
Open Scope string_scope.
Open Scope list_scope.

(** ** Go basics *)

Definition error := string.

(** The result of a call into a library outside the repository. *)
Inductive result (T : Type) : Type :=
| Ok (t : T)
| Err (e : error).
Arguments Ok {T} t.
Arguments Err {T} e.

(** A Go slice: [None] is the nil slice. *)
Definition slice (T : Type) : Type := option (list T).

(** ** github.com/docker/go-connections/nat *)

Module nat.

(** [nat.Port] is a string of the form ["80/tcp"]. *)
Definition Port := string.

Record PortBinding := mkPortBinding {
  HostIP : string;
  HostPort : string
}.

#[global] Instance PortBinding_eq_dec : EqDecision PortBinding.
Proof. solve_decision. Defined.

(** [nat.NewPort(proto, port)] parses and validates the port; it belongs to
    the go-connections library and is taken as a parameter. *)
Class Lib := { NewPort : string → string → result Port }.

End nat.

(** The maps that [make] gives and the program fills: [nat.PortSet] and
    [nat.PortMap] values that are not nil, holding slices that are not
    nil. *)
Abbreviation PortSet := (gset string).
Abbreviation PortMap := (gmap string (list nat.PortBinding)).

(** ** github.com/docker/docker/api/types/strslice *)

Module strslice.

(** [type StrSlice []string]: a named type of its own, whose values a
    [[]string] converts to. *)
Definition StrSlice := slice string.

End strslice.

(** ** The Docker SDK (github.com/docker/docker): records and client

    The SDK is outside the repository.  Its records carry the fields the
    program reads, and its client is an interface: every call takes the
    state of the engine and returns its answer with the state
    afterwards. *)

Module container.

(** Modelled from the spec: the declaration of [container.Config] is in
    the SDK, not in the repository.  The fields are those the program
    reads and writes.  [ExposedPorts] is a [nat.PortSet], a map: [None] is
    the nil map, which an inspect answers for a container without exposed
    ports.  [Cmd] is a [strslice.StrSlice], not a [[]string]. *)
Record Config := mkConfig {
  Image : string;
  ExposedPorts : option (gset string);
  Env : slice string;
  Cmd : strslice.StrSlice
}.

(** Modelled from the spec: the declaration of [container.HostConfig] is
    in the SDK, not in the repository; the port bindings of the observed
    container.  [PortBindings] is a [nat.PortMap], a map from ports to
    slices: [None] is the nil map, and so is [None] among the slices. *)
Record HostConfig := mkHostConfig {
  PortBindings : option (gmap string (slice nat.PortBinding))
}.

End container.

Module image.

(** Modelled from the spec: the declaration of [image.Summary] is not in
    the repository; an entry of the local image index. *)
Record Summary := mkSummary {
  ID : string;
  RepoTags : list string
}.

End image.

Module types.

(** Modelled from the spec: the declaration of [types.Container] is not in
    the repository; an entry of [ContainerList], with the engine's ID and
    the names of the container. *)
Record Container := mkContainer {
  ID : string;
  Names : list string
}.

(** Modelled from the spec: the declaration of [types.ContainerJSON] is
    not in the repository; the answer of [ContainerInspect].  [Image] is
    the identifier of the image the container runs, [Config.Image] the
    reference it was created from. *)
Record ContainerJSON := mkContainerJSON {
  Image : string;
  Config : container.Config;
  HostConfig : container.HostConfig
}.

(** Modelled from the spec: the declaration of [types.StatsJSON] is not in
    the repository; the raw counters of a stats sample that
    [UpdateMetrics] reads, the counters being [uint64]. *)
Record CPUUsageT := mkCPUUsage {
  TotalUsage : Z;
  PercpuUsage : list Z
}.

Record CPUStatsT := mkCPUStats {
  CPUUsage : CPUUsageT;
  SystemUsage : Z
}.

Record MemoryStatsT := mkMemoryStats {
  Usage : Z;
  MaxUsage : Z;
  Limit : Z;
  Stats : gmap string Z
}.

Record NetworkStats := mkNetworkStats {
  RxBytes : Z;
  TxBytes : Z
}.

Record BlkioStatEntry := mkBlkioStatEntry {
  Op : string;
  Value : Z
}.

Record BlkioStatsT := mkBlkioStats {
  IoServiceBytesRecursive : list BlkioStatEntry
}.

Record StatsJSON := mkStatsJSON {
  stats_ID : string;
  stats_Name : string;
  CPUStats : CPUStatsT;
  PreCPUStats : CPUStatsT;
  MemoryStats : MemoryStatsT;
  BlkioStats : BlkioStatsT;
  Networks : gmap string NetworkStats
}.

(** What one stats query gives: [cli.ContainerStats] fails, or it returns
    a body, of which [io.ReadAll] and [json.Unmarshal] may each fail;
    [decoded] is the value of [statsJSON] after [json.Unmarshal]. *)
Inductive StatsReply :=
| StatsFailed (err : error)
| StatsBody (readErr : option error) (unmarshalErr : option error)
            (decoded : StatsJSON).

End types.

Module client.

(** The calls of [*client.Client] that the program makes, on an engine
    whose state is an [E]. *)
Class Client (E : Type) := {
  ContainerList : E → result (list types.Container) * E;
  ContainerInspect : string → E → result types.ContainerJSON * E;
  ContainerCreate :
    container.Config → container.HostConfig → string → E → result string * E;
  ContainerStart : string → E → option error * E;
  ContainerStop : string → E → option error * E;
  ContainerRemove : string → E → option error * E;
  ImagePull : string → E → option error * E;
  ImageList : E → result (list image.Summary) * E;
  (** a one-shot query that leaves the engine as it is *)
  ContainerStats : string → E → types.StatsReply
}.

End client.

(** ** Effects: engine calls, log lines, process exit

    A computation runs on the state of the engine and gives an outcome,
    the state afterwards, and the calls and log lines it has issued, in
    order.  [log.Fatalf] ends the process; indexing an empty slice
    panics. *)

Inductive call :=
| CallContainerList
| CallContainerInspect (containerID : string)
| CallContainerCreate (config : container.Config)
    (hostConfig : container.HostConfig) (name : string)
| CallContainerStart (containerID : string)
| CallContainerStop (containerID : string)
| CallContainerRemove (containerID : string)
| CallImagePull (ref : string)
| CallImageList.

Inductive level := Debug | Info.

Inductive event :=
| Call (c : call)
| Log (l : level) (msg : string).

Inductive outcome (A : Type) : Type :=
| Return (a : A)
| Exit (msg : string)
| Panic.
Arguments Return {A} a.
Arguments Exit {A} msg.
Arguments Panic {A}.

Definition M (E A : Type) : Type := E → outcome A * E * list event.

Definition ret {E A} (a : A) : M E A := λ e, (Return a, e, []).

Definition bind {E A B} (m : M E A) (f : A → M E B) : M E B :=
  λ e,
    match m e with
    | (Return a, e1, t1) =>
        match f a e1 with
        | (o, e2, t2) => (o, e2, t1 ++ t2)
        end
    | (Exit msg, e1, t1) => (Exit msg, e1, t1)
    | (Panic, e1, t1) => (Panic, e1, t1)
    end.

Notation "x <- m ;; k" := (bind m (λ x, k))
  (at level 100, m at next level, right associativity, only parsing).

Definition logf {E} (l : level) (msg : string) : M E unit :=
  λ e, (Return tt, e, [Log l msg]).

(** [log.Fatalf]: the message is logged and the process exits. *)
Definition fatalf {E A} (msg : string) : M E A :=
  λ e, (Exit msg, e, []).

(** The line feed that ends the formatted messages. *)
Definition nl : string := String (Ascii.ascii_of_nat 10) "".

(** [s[0]] *)
Definition index0 {E} (s : list string) : M E string :=
  match s with
  | [] => λ e, (Panic, e, [])
  | x :: _ => ret x
  end.

Definition outcome_of {E A} (r : outcome A * E * list event) : outcome A := r.1.1.
Definition state_of {E A} (r : outcome A * E * list event) : E := r.1.2.
Definition trace_of {E A} (r : outcome A * E * list event) : list event := r.2.

Section Calls.
Context {E : Type} `{!client.Client E}.

Definition lift_call {A} (c : call) (op : E → A * E) : M E A :=
  λ e, let '(a, e') := op e in (Return a, e', [Call c]).

Definition containerList : M E (result (list types.Container)) :=
  lift_call CallContainerList client.ContainerList.
Definition containerInspect (id : string) : M E (result types.ContainerJSON) :=
  lift_call (CallContainerInspect id) (client.ContainerInspect id).
Definition containerCreate (config : container.Config)
    (hostConfig : container.HostConfig) (name : string) : M E (result string) :=
  lift_call (CallContainerCreate config hostConfig name)
    (client.ContainerCreate config hostConfig name).
Definition containerStart (id : string) : M E (option error) :=
  lift_call (CallContainerStart id) (client.ContainerStart id).
Definition containerStop (id : string) : M E (option error) :=
  lift_call (CallContainerStop id) (client.ContainerStop id).
Definition containerRemove (id : string) : M E (option error) :=
  lift_call (CallContainerRemove id) (client.ContainerRemove id).
Definition imagePull (ref : string) : M E (option error) :=
  lift_call (CallImagePull ref) (client.ImagePull ref).
Definition imageList : M E (result (list image.Summary)) :=
  lift_call CallImageList client.ImageList.

End Calls.

(** ** pkg/docker *)

Module docker.

(** The desired spec of a container.  The program builds one in
    [ConfigToDockerConfig] only, where both maps come from [make] and
    every port is bound to a slice of one host binding: the maps of a
    spec are not nil. *)
Record ContainerConfig := mkContainerConfig {
  Image : string;
  Name : string;
  ExposedPorts : PortSet;
  PortBindings : PortMap;
  Env : slice string;
  Cmd : slice string
}.

Section Ops.
Context {E : Type} `{!client.Client E}.

(** deleteContainers deletes multiple Docker containers by their IDs *)
Definition DeleteContainer (containerId : string) : M E (option error) :=
  err <- containerStop containerId ;;
  match err with
  | Some err => ret (Some err)
  | None =>
      err <- containerRemove containerId ;;
      match err with
      | Some err => ret (Some err)
      | None => ret None
      end
  end.

(** The loop [for _, container := range containers] that sets [found] and
    breaks at the first container whose first name is ["/" + name]. *)
Fixpoint findByName (containers : list types.Container) (name : string)
  : M E bool :=
  match containers with
  | [] => ret false
  | container :: rest =>
      n <- index0 (types.Names container) ;;
      if bool_decide (n = "/" +:+ name) then ret true
      else findByName rest name
  end.

(** Returns [(err, created)]. *)
Definition CreateContainer (config : ContainerConfig)
  : M E (option error * bool) :=
  (* get running containers *)
  r <- containerList ;;
  match r with
  | Err err => ret (Some err, false)
  | Ok containers =>
      (* check if container already exists *)
      found <- (if bool_decide (0 < length containers)
                then findByName containers (Name config)
                else ret false) ;;
      if found then ret (None, false)
      else
        r <- containerCreate
               {| container.Image := Image config;
                  container.ExposedPorts := Some (ExposedPorts config);
                  container.Env := Env config;
                  container.Cmd := Cmd config |}
               {| container.PortBindings :=
                    Some (Some <$> PortBindings config) |}
               (Name config) ;;
        match r with
        | Err err => ret (Some err, false)
        | Ok _ => ret (None, true)
        end
  end.

Definition EnsureRunningContainers (containerID : string) : M E (option error) :=
  containerStart containerID.

Fixpoint idByName (containers : list types.Container) (containerName : string)
  : M E (string * option error) :=
  match containers with
  | [] => ret ("", Some ("container " +:+ containerName +:+ " not found"))
  | container :: rest =>
      n <- index0 (types.Names container) ;;
      if bool_decide (n = "/" +:+ containerName)
      then ret (types.ID container, None)
      else idByName rest containerName
  end.

Definition GetContainerIDByName (containerName : string)
  : M E (string * option error) :=
  r <- containerList ;;
  match r with
  | Err err => ret ("", Some err)
  | Ok containers => idByName containers containerName
  end.

Definition ListAllContariners : M E (list types.Container * option error) :=
  r <- containerList ;;
  match r with
  | Err err => ret ([], Some err)
  | Ok containers => ret (containers, None)
  end.

End Ops.
End docker.

(** ** os *)

Module os.

(** [os.ReadFile]: the content of a file in the world outside the process. *)
Class FS (E : Type) := { ReadFile : string → E → result string }.

End os.

(** ** pkg/config *)

Module config.

Record PortBinding := mkPortBinding {
  Port : string;
  Protocol : string;
  HostIP : string;
  HostPort : string
}.

Record ContainerConfig := mkContainerConfig {
  Image : string;
  Name : string;
  PortBindings : list PortBinding;
  Env : slice string;
  Cmd : slice string
}.

Record AppConfig := mkAppConfig {
  Debug : bool;
  UpdateCheck : bool;
  RemoveUnwantedContainers : bool
}.

Record Config := mkConfig {
  appConfig : AppConfig;
  Containers : list ContainerConfig
}.

Section Convert.
Context `{!nat.Lib}.

(** First inner loop of [ConfigToDockerConfig]: [portSet[port] = struct{}{}]. *)
Fixpoint genPortSet (pbs : list PortBinding) (portSet : PortSet)
  : PortSet * option error :=
  match pbs with
  | [] => (portSet, None)
  | portBinding :: rest =>
      match nat.NewPort (Protocol portBinding) (Port portBinding) with
      | Err err => (portSet, Some err)
      | Ok port => genPortSet rest ({[ port ]} ∪ portSet)
      end
  end.

(** Second inner loop: [portMap[port] = []nat.PortBinding{{HostIP, HostPort}}]. *)
Fixpoint genPortMap (pbs : list PortBinding) (portMap : PortMap)
  : PortMap * option error :=
  match pbs with
  | [] => (portMap, None)
  | portBinding :: rest =>
      match nat.NewPort (Protocol portBinding) (Port portBinding) with
      | Err err => (portMap, Some err)
      | Ok port =>
          genPortMap rest
            (<[ port := [ nat.mkPortBinding (HostIP portBinding) (HostPort portBinding) ] ]> portMap)
      end
  end.

(** The package-level variable [var containers []docker.ContainerConfig] is
    threaded explicitly: [containers_loop cs containers] is the [for] loop
    over [config.Containers], started with the current value of the
    variable, and returns its value when the loop is left. *)
Fixpoint containers_loop (cs : list ContainerConfig)
    (containers : list docker.ContainerConfig)
  : list docker.ContainerConfig * option error :=
  match cs with
  | [] => (containers, None)
  | container :: rest =>
      (* generate portset *)
      match genPortSet (PortBindings container) ∅ with
      | (_, Some err) => (containers, Some err)
      | (portSet, None) =>
          (* generate portmap *)
          match genPortMap (PortBindings container) ∅ with
          | (_, Some err) => (containers, Some err)
          | (portMap, None) =>
              let localContainer :=
                {| docker.Image := Image container;
                   docker.Name := Name container;
                   docker.ExposedPorts := portSet;
                   docker.PortBindings := portMap;
                   docker.Env := Env container;
                   docker.Cmd := Cmd container |} in
              containers_loop rest (containers ++ [localContainer])
          end
      end
  end.

(** [ConfigToDockerConfig config] run with the package variable holding
    [containers]: the returned pair of Go, and the variable afterwards. *)
Definition ConfigToDockerConfig (config : Config)
    (containers : list docker.ContainerConfig)
  : (list docker.ContainerConfig * option error) * list docker.ContainerConfig :=
  match containers_loop (Containers config) containers with
  | (containers', Some err) => (([], Some err), containers')
  | (containers', None) => ((containers', None), containers')
  end.

End Convert.

(** [yaml.Unmarshal(config, &cfg)], of gopkg.in/yaml.v3. *)
Class YamlLib := { Unmarshal : string → result Config }.

(** Read config from file: the [*Config] is nil exactly when the error is
    not. *)
Definition Read {E : Type} `{!os.FS E} `{!YamlLib} (e : E) : result Config :=
  let ConfigFile := "config.yaml" in
  (* read ConfigFile from disk *)
  match os.ReadFile ConfigFile e with
  | Err err => Err err
  | Ok config =>
      (* Marshal config into Config struct *)
      match Unmarshal config with
      | Err err => Err err
      | Ok cfg => Ok cfg
      end
  end.

End config.

(** ** pkg/metrics *)

Module metrics.

Definition prec : Z := 53.
Definition emax : Z := 1024.

(** [float64(x)] for a non-negative integer [x]: rounded to nearest even. *)
Definition float64 (x : Z) : spec_float := binary_normalize prec emax x 0 false.

Definition fdiv : spec_float → spec_float → spec_float := SFdiv prec emax.
Definition fmul : spec_float → spec_float → spec_float := SFmul prec emax.
Definition fsub : spec_float → spec_float → spec_float := SFsub prec emax.

(** [uint64] arithmetic wraps around. *)
Definition uint64 (x : Z) : Z := x mod 2 ^ 64.

(** A [*prometheus.GaugeVec] with the labels [container_id] and
    [container_name]. *)
Abbreviation GaugeVec := (gmap (string * string) spec_float).

(** DockerMetrics holds Prometheus metrics. *)
Record DockerMetrics := mkDockerMetrics {
  CPUUsageTotal : GaugeVec;
  MemoryUsage : GaugeVec;
  MemoryMaxUsage : GaugeVec;
  MemoryLimit : GaugeVec;
  MemoryCache : GaugeVec;
  MemoryRSS : GaugeVec;
  MemoryUsageOverall : GaugeVec;
  NetworkRxBytes : GaugeVec;
  NetworkTxBytes : GaugeVec;
  BlockIoReadBytes : GaugeVec;
  BlockIoWriteBytes : GaugeVec
}.

Definition NewDockerMetrics : DockerMetrics :=
  mkDockerMetrics ∅ ∅ ∅ ∅ ∅ ∅ ∅ ∅ ∅ ∅ ∅.

(** CPU usage calculation *)
Definition cpuDelta (stats : types.StatsJSON) : spec_float :=
  float64 (uint64 (types.TotalUsage (types.CPUUsage (types.CPUStats stats))
                   - types.TotalUsage (types.CPUUsage (types.PreCPUStats stats)))).

Definition systemDelta (stats : types.StatsJSON) : spec_float :=
  float64 (uint64 (types.SystemUsage (types.CPUStats stats)
                   - types.SystemUsage (types.PreCPUStats stats))).

Definition cpuPercent (stats : types.StatsJSON) : spec_float :=
  fmul
    (fmul (fdiv (cpuDelta stats) (systemDelta stats))
          (float64 (Z.of_nat
             (length (types.PercpuUsage
                        (types.CPUUsage (types.CPUStats stats)))))))
    (float64 100).

(** Memory usage *)
Definition memoryUsage (stats : types.StatsJSON) : spec_float :=
  float64 (types.Usage (types.MemoryStats stats)).
Definition memoryCache (stats : types.StatsJSON) : spec_float :=
  float64 (default 0%Z (types.Stats (types.MemoryStats stats) !! "cache")).
Definition memoryRSS (stats : types.StatsJSON) : spec_float :=
  float64 (default 0%Z (types.Stats (types.MemoryStats stats) !! "rss")).
Definition overallMemoryUsage (stats : types.StatsJSON) : spec_float :=
  fsub (memoryUsage stats) (memoryCache stats).

(** Network I/O *)
Definition rxBytes (stats : types.StatsJSON) : Z :=
  map_fold (λ _ v rxBytes, uint64 (rxBytes + types.RxBytes v)) 0%Z
    (types.Networks stats).
Definition txBytes (stats : types.StatsJSON) : Z :=
  map_fold (λ _ v txBytes, uint64 (txBytes + types.TxBytes v)) 0%Z
    (types.Networks stats).

(** Block I/O *)
Definition blkRead (stats : types.StatsJSON) : Z :=
  fold_left
    (λ blkRead bio,
       if bool_decide (types.Op bio = "read")
       then uint64 (blkRead + types.Value bio) else blkRead)
    (types.IoServiceBytesRecursive (types.BlkioStats stats)) 0%Z.
Definition blkWrite (stats : types.StatsJSON) : Z :=
  fold_left
    (λ blkWrite bio,
       if bool_decide (types.Op bio = "read") then blkWrite
       else if bool_decide (types.Op bio = "write")
       then uint64 (blkWrite + types.Value bio) else blkWrite)
    (types.IoServiceBytesRecursive (types.BlkioStats stats)) 0%Z.

(** UpdateMetrics updates Prometheus metrics with values from
    types.StatsJSON. *)
Definition UpdateMetrics (dm : DockerMetrics) (stats : types.StatsJSON)
  : DockerMetrics :=
  let labels := (types.stats_ID stats, types.stats_Name stats) in
  {| CPUUsageTotal := <[ labels := cpuPercent stats ]> (CPUUsageTotal dm);
     MemoryUsage := <[ labels := memoryUsage stats ]> (MemoryUsage dm);
     MemoryMaxUsage :=
       <[ labels := float64 (types.MaxUsage (types.MemoryStats stats)) ]>
         (MemoryMaxUsage dm);
     MemoryLimit :=
       <[ labels := float64 (types.Limit (types.MemoryStats stats)) ]>
         (MemoryLimit dm);
     MemoryCache := <[ labels := memoryCache stats ]> (MemoryCache dm);
     MemoryRSS := <[ labels := memoryRSS stats ]> (MemoryRSS dm);
     MemoryUsageOverall :=
       <[ labels := overallMemoryUsage stats ]> (MemoryUsageOverall dm);
     NetworkRxBytes := <[ labels := float64 (rxBytes stats) ]> (NetworkRxBytes dm);
     NetworkTxBytes := <[ labels := float64 (txBytes stats) ]> (NetworkTxBytes dm);
     BlockIoReadBytes :=
       <[ labels := float64 (blkRead stats) ]> (BlockIoReadBytes dm);
     BlockIoWriteBytes :=
       <[ labels := float64 (blkWrite stats) ]> (BlockIoWriteBytes dm) |}.

End metrics.

(** ** reflect *)

Module reflect.

(** The arguments of [reflect.DeepEqual] are of type [interface{}]: a
    value comes with the type it has where it is passed.  These are the
    types of the values that the program compares. *)
Inductive Value :=
| String (s : string)                        (* string *)
| SliceOfString (s : slice string)           (* []string *)
| StrSlice (s : strslice.StrSlice)           (* strslice.StrSlice *)
| PortSet (m : option (gset string))         (* nat.PortSet *)
| PortMap (m : option (gmap string (slice nat.PortBinding))).
                                             (* nat.PortMap *)

(** [reflect.DeepEqual]: values of distinct types are never deeply equal.
    Two strings are deeply equal when they are equal; two slices when
    both are nil or both are not, and they hold deeply equal elements in
    the same order; two maps when both are nil or both are not, and they
    map the same keys to deeply equal values; two structs when their
    fields are deeply equal.  On the values of one of the types above
    this is their equality. *)
Definition DeepEqual (x y : Value) : bool :=
  match x, y with
  | String s1, String s2 => bool_decide (s1 = s2)
  | SliceOfString s1, SliceOfString s2 => bool_decide (s1 = s2)
  | StrSlice s1, StrSlice s2 => bool_decide (s1 = s2)
  | PortSet m1, PortSet m2 => bool_decide (m1 = m2)
  | PortMap m1, PortMap m2 => bool_decide (m1 = m2)
  | _, _ => false
  end.

End reflect.

(** ** main: comparator, freshness check, reconciliation loop, pruner *)

Module main.

Section Reconcile.
Context {E : Type} `{!client.Client E}.

(** The inner loops of [isContainerUpToDate]: the identifier of an image
    that carries the tag replaces [latestImageID]; [break] leaves the loop
    over the tags only. *)
Definition latestOf (images : list image.Summary) (ref : string) : string :=
  fold_left
    (λ latestImageID img,
       if existsb (λ tag, bool_decide (tag = ref)) (image.RepoTags img)
       then image.ID img else latestImageID)
    images "".

(** isContainerUpToDate checks if a running container is using the latest
    available image. *)
Definition isContainerUpToDate (containerID : string)
    (config : docker.ContainerConfig) : M E (bool * option error) :=
  (* Get the running container's image ID *)
  r <- containerInspect containerID ;;
  match r with
  | Err err => ret (false, Some err)
  | Ok inspect =>
      let runningImageID := types.Image inspect in
      (* Pull the latest image *)
      err <- imagePull (docker.Image config) ;;
      match err with
      | Some err => ret (false, Some err)
      | None =>
          (* Get the latest image ID *)
          r <- imageList ;;
          match r with
          | Err err => ret (false, Some err)
          | Ok images =>
              let latestImageID := latestOf images (docker.Image config) in
              if bool_decide (latestImageID = "")
              then ret (false,
                        Some ("could not find the latest image for "
                              +:+ docker.Image config))
              else
                (* Compare the image IDs *)
                let result := bool_decide (runningImageID = latestImageID) in
                _ <- (if result
                      then logf Debug ("Container " +:+ docker.Name config
                                       +:+ " is up to date" +:+ nl)
                      else logf Debug ("Container " +:+ docker.Name config
                                       +:+ " is not up to date" +:+ nl)) ;;
                ret (result, None)
          end
      end
  end.

(** The validation block of [ensureContainerConfig]: the value of
    [needsUpdate] after the four checks.  The comparison of the
    environment is commented out in the source.  Each argument of
    [reflect.DeepEqual] has the type of the field it is read from:
    [inspect.Config.Cmd] is a [strslice.StrSlice], [config.Cmd] a
    [[]string]. *)
Definition compareConfig (inspect : types.ContainerJSON)
    (config : docker.ContainerConfig) : M E bool :=
  let needsUpdate := false in
  (* Check port bindings *)
  needsUpdate <-
    (if negb (reflect.DeepEqual
                (reflect.PortSet (container.ExposedPorts (types.Config inspect)))
                (reflect.PortSet (Some (docker.ExposedPorts config))))
     then _ <- logf Debug ("Container " +:+ docker.Name config
                           +:+ " exposed ports do not match" +:+ nl) ;;
          ret true
     else ret needsUpdate) ;;
  needsUpdate <-
    (if negb (reflect.DeepEqual
                (reflect.PortMap
                   (container.PortBindings (types.HostConfig inspect)))
                (reflect.PortMap (Some (Some <$> docker.PortBindings config))))
     then _ <- logf Debug ("Container " +:+ docker.Name config
                           +:+ " port bindings do not match" +:+ nl) ;;
          ret true
     else ret needsUpdate) ;;
  (* Check image *)
  needsUpdate <-
    (if negb (reflect.DeepEqual
                (reflect.String (container.Image (types.Config inspect)))
                (reflect.String (docker.Image config)))
     then _ <- logf Debug ("Container " +:+ docker.Name config
                           +:+ " image does not match" +:+ nl) ;;
          ret true
     else ret needsUpdate) ;;
  (* Check command *)
  match docker.Cmd config with
  | Some _ =>
      if negb (reflect.DeepEqual
                 (reflect.StrSlice (container.Cmd (types.Config inspect)))
                 (reflect.SliceOfString (docker.Cmd config)))
      then _ <- logf Debug ("Container " +:+ docker.Name config
                            +:+ " command does not match" +:+ nl) ;;
           ret true
      else ret needsUpdate
  | None => ret needsUpdate
  end.

(** The loop of [ensureContainerConfig] over the listed containers, and
    the creation that follows it when no name matches. *)
Fixpoint ensureContainerConfig_loop (containers : list types.Container)
    (config : docker.ContainerConfig) : M E (option error) :=
  match containers with
  | [] =>
      _ <- logf Info ("Container " +:+ docker.Name config
                      +:+ " not found, creating it..." +:+ nl) ;;
      r <- containerCreate
             {| container.Image := docker.Image config;
                container.ExposedPorts := Some (docker.ExposedPorts config);
                container.Env := docker.Env config;
                container.Cmd := docker.Cmd config |}
             {| container.PortBindings :=
                  Some (Some <$> docker.PortBindings config) |}
             (docker.Name config) ;;
      match r with
      | Err err => ret (Some err)
      | Ok _ => ret None
      end
  | container :: rest =>
      n <- index0 (types.Names container) ;;
      if bool_decide (n = "/" +:+ docker.Name config) then
        r <- containerInspect (types.ID container) ;;
        match r with
        | Err err => ret (Some err)
        | Ok inspect =>
            (* Validate container configuration *)
            needsUpdate <- compareConfig inspect config ;;
            if needsUpdate then
              _ <- logf Info ("Container " +:+ docker.Name config
                     +:+ " configuration does not match, recreating it..."
                     +:+ nl) ;;
              err <- docker.DeleteContainer (types.ID container) ;;
              match err with
              | Some err => ret (Some err)
              | None =>
                  (* create container with the correct configuration *)
                  p <- docker.CreateContainer config ;;
                  match p with
                  | (Some err, _) => ret (Some err)
                  | (None, created) =>
                      _ <- (if created
                            then logf Info ("Container " +:+ docker.Name config
                                   +:+ " recreated with the correct configuration"
                                   +:+ nl)
                            else ret tt) ;;
                      ret None
                  end
              end
            else
              _ <- logf Debug ("Config for container " +:+ docker.Name config
                               +:+ " already up to date" +:+ nl) ;;
              ret None
        end
      else ensureContainerConfig_loop rest config
  end.

(** ensureContainerConfig checks if a running container matches the given
    ContainerConfig and recreates it if necessary. *)
Definition ensureContainerConfig (config : docker.ContainerConfig)
  : M E (option error) :=
  r <- containerList ;;
  match r with
  | Err err => ret (Some err)
  | Ok containers => ensureContainerConfig_loop containers config
  end.

(** The loop of [ensureContainers] that looks the desired container up in
    the containers listed when the pass began. *)
Fixpoint findRunning (runningContainers : list types.Container)
    (container : docker.ContainerConfig) : M E bool :=
  match runningContainers with
  | [] => ret false
  | runningContainer :: rest =>
      n <- index0 (types.Names runningContainer) ;;
      if bool_decide (n = "/" +:+ docker.Name container) then
        _ <- logf Debug ("Container " +:+ docker.Name container
                         +:+ " already exists" +:+ nl) ;;
        ret true
      else findRunning rest container
  end.

(** The freshness step of the loop body, entered when
    [updateCheck && !created]: [inl err] when the function returns [err],
    [inr ctid] with the current container ID otherwise. *)
Definition updateStep (ctid : string) (container : docker.ContainerConfig)
  : M E (error + string) :=
  p <- isContainerUpToDate ctid container ;;
  match p with
  | (_, Some err) => ret (inl err)
  | (upToDate, None) =>
      if negb upToDate then
        _ <- logf Info ("Container " +:+ docker.Name container
                        +:+ " is not up to date, recreating ..." +:+ nl) ;;
        err <- docker.DeleteContainer ctid ;;
        match err with
        | Some err => ret (inl err)
        | None =>
            p <- docker.CreateContainer container ;;
            match p with
            | (Some err, _) => ret (inl err)
            | (None, _) =>
                (* Fetch new container ID *)
                p <- docker.GetContainerIDByName (docker.Name container) ;;
                match p with
                | (_, Some err) => ret (inl err)
                | (ctid, None) => ret (inr ctid)
                end
            end
        end
      else ret (inr ctid)
  end.

(** The body of the loop of [ensureContainers] for one desired container:
    [Some err] when the function returns [err] from inside the body,
    [None] when the body reaches its end. *)
Definition ensureOne (runningContainers : list types.Container)
    (container : docker.ContainerConfig) (updateCheck : bool)
  : M E (option error) :=
  (* check if container already exists *)
  found <- (if bool_decide (0 < length runningContainers)
            then findRunning runningContainers container
            else ret false) ;;
  (* Create container if not found *)
  p <- (if negb found then docker.CreateContainer container
        else ret (None, false)) ;;
  match p with
  | (Some err, _) => ret (Some err)
  | (None, created) =>
      _ <- (if created
            then logf Info ("Container " +:+ docker.Name container
                            +:+ " created")
            else ret tt) ;;
      _ <- (if negb created then
              err <- ensureContainerConfig container ;;
              match err with
              | Some err =>
                  fatalf ("Error ensuring container configuration: " +:+ err)
              | None => ret tt
              end
            else ret tt) ;;
      (* Get container ID from name *)
      p <- docker.GetContainerIDByName (docker.Name container) ;;
      match p with
      | (_, Some err) => ret (Some err)
      | (ctid, None) =>
          (* Check if container is up to date *)
          r <- (if updateCheck && negb created
                then updateStep ctid container
                else ret (inr ctid)) ;;
          match r with
          | inl err => ret (Some err)
          | inr ctid =>
              (* Ensure container is running *)
              err <- docker.EnsureRunningContainers ctid ;;
              match err with
              | Some err => ret (Some err)
              | None =>
                  _ <- logf Info ("Container " +:+ docker.Name container
                                  +:+ " ensured" +:+ nl) ;;
                  ret None
              end
          end
      end
  end.

Fixpoint ensureContainers_loop (runningContainers : list types.Container)
    (desierdContainers : list docker.ContainerConfig) (updateCheck : bool)
  : M E (option error) :=
  match desierdContainers with
  | [] => ret None
  | container :: rest =>
      r <- ensureOne runningContainers container updateCheck ;;
      match r with
      | Some err => ret (Some err)
      | None => ensureContainers_loop runningContainers rest updateCheck
      end
  end.

Definition ensureContainers (desierdContainers : list docker.ContainerConfig)
    (updateCheck : bool) : M E (option error) :=
  (* get running containers *)
  p <- docker.ListAllContariners ;;
  match p with
  | (_, Some err) => ret (Some err)
  | (runningContainers, None) =>
      ensureContainers_loop runningContainers desierdContainers updateCheck
  end.

(** The inner loop of [removeUnwantedContainers]: is the container named by
    one of the configs? *)
Fixpoint isConfigured (container : types.Container)
    (configs : list docker.ContainerConfig) : M E bool :=
  match configs with
  | [] => ret false
  | config :: rest =>
      n <- index0 (types.Names container) ;;
      if bool_decide (n = "/" +:+ docker.Name config) then ret true
      else isConfigured container rest
  end.

Fixpoint removeUnwantedContainers_loop (containers : list types.Container)
    (configs : list docker.ContainerConfig) : M E (option error) :=
  match containers with
  | [] => ret None
  | container :: rest =>
      found <- isConfigured container configs ;;
      if negb found then
        n <- index0 (types.Names container) ;;
        _ <- logf Info ("Container " +:+ n +:+ " (" +:+ types.ID container
                        +:+ ") not desired, removing ..." +:+ nl) ;;
        err <- docker.DeleteContainer (types.ID container) ;;
        match err with
        | Some err => ret (Some err)
        | None =>
            _ <- logf Debug ("Container removed" +:+ nl) ;;
            removeUnwantedContainers_loop rest configs
        end
      else removeUnwantedContainers_loop rest configs
  end.

Definition removeUnwantedContainers (configs : list docker.ContainerConfig)
  : M E (option error) :=
  (* get running containers *)
  p <- docker.ListAllContariners ;;
  match p with
  | (_, Some err) => ret (Some err)
  | (containers, None) => removeUnwantedContainers_loop containers configs
  end.

End Reconcile.
(** *** The process and its HTTP handlers *)

(** What a handler writes to its [http.ResponseWriter]. *)
Inductive response :=
| HttpError (msg : string) (code : N)   (* http.Error(w, msg, code) *)
| Fprint (body : string)                (* fmt.Fprint(w, body), status 200 *)
| ServeMetrics (dm : metrics.DockerMetrics).
                                        (* promhttp.Handler().ServeHTTP(w, r) *)

Definition StatusInternalServerError : N := 500.

#[global] Instance spec_float_eq_dec : EqDecision spec_float.
Proof. solve_decision. Defined.
#[global] Instance DockerMetrics_eq_dec : EqDecision metrics.DockerMetrics.
Proof. solve_decision. Defined.
#[global] Instance response_eq_dec : EqDecision response.
Proof. solve_decision. Defined.

(** The process: the world outside it (engine and files), the global
    [cfg] of package main, and the package variable [containers] of
    package config. *)
Record process (E : Type) := mkProcess {
  world : E;
  cfg : config.Config;
  config_containers : list docker.ContainerConfig
}.
Arguments mkProcess {E} _ _ _.
Arguments world {E} _.
Arguments cfg {E} _.
Arguments config_containers {E} _.

Section Handlers.
Context {E : Type} `{!client.Client E} `{!os.FS E}.
Context `{!nat.Lib} `{!config.YamlLib}.

(** A computation on the engine, run inside the process. *)
Definition on_world {A} (m : M E A) : M (process E) A :=
  λ p,
    match m (world p) with
    | (o, e, t) => (o, mkProcess e (cfg p) (config_containers p), t)
    end.

(** The dump of the new configuration is left out of the debug line. *)
Definition updateConfig : M (process E) (option error) :=
  λ p,
    match config.Read (world p) with
    | Err err => (Return (Some ("error reading config: " +:+ err)), p, [])
    | Ok newcfg =>
        (Return None,
         mkProcess (world p) newcfg (config_containers p),
         [Log Debug "New config"; Log Info "Config reloaded"])
    end.

(** [config.ConfigToDockerConfig] applied to the current [cfg]. *)
Definition convertConfig
  : M (process E) (list docker.ContainerConfig * option error) :=
  λ p,
    match config.ConfigToDockerConfig (cfg p) (config_containers p) with
    | (r, containers') => (Return r, mkProcess (world p) (cfg p) containers', [])
    end.

Definition getCfg : M (process E) config.Config :=
  λ p, (Return (cfg p), p, []).

Definition reconcileContainers : M (process E) response :=
  p <- convertConfig ;;
  match p with
  | (_, Some err) =>
      fatalf ("Error converting config to Docker config: " +:+ err)
  | (containers, None) =>
      cfg <- getCfg ;;
      (* Delete unwanted containers *)
      _ <- (if config.RemoveUnwantedContainers (config.appConfig cfg) then
              err <- on_world (removeUnwantedContainers containers) ;;
              match err with
              | Some err =>
                  fatalf ("Error when removing unwanted containers: " +:+ err)
              | None => ret tt
              end
            else ret tt) ;;
      (* Create containers and ensure they are up to date *)
      cfg <- getCfg ;;
      err <- on_world
               (ensureContainers containers
                  (config.UpdateCheck (config.appConfig cfg))) ;;
      match err with
      | Some err => fatalf ("Error ensuring containers: " +:+ err)
      | None => ret (Fprint ("Containers reconciled" +:+ nl))
      end
  end.

Definition reloadConfig : M (process E) response :=
  err <- updateConfig ;;
  match err with
  | Some err => fatalf ("Error reloading config: " +:+ err)
  | None => ret (Fprint ("Config reloaded" +:+ nl))
  end.

End Handlers.

(** *** The stats handler: goroutines and channels

    [GenerateMetrics] starts one goroutine per listed container and one
    that waits for them and closes the two channels, while the handler
    ranges over [statsChan] and then over [errChan].  The goroutines are
    interleaved in any order: a state holds what each goroutine has left
    to do and the content of the channels, and [successors] lists the
    states one step later.  A send on a full channel and a receive on an
    empty open channel are not steps: the goroutine waits. *)

Inductive action :=
| SendErr (err : error)                       (* errChan <- err *)
| SendStats (statsJSON : types.StatsJSON).    (* statsChan <- statsJSON *)

(** The body of the goroutine started for [containerID], as the sends it
    makes: only the failure of [cli.ContainerStats] is followed by
    [return].  The line it logs before the last send is left out. *)
Definition statsTask (containerID : string) (reply : types.StatsReply)
  : list action :=
  match reply with
  | types.StatsFailed err =>
      [SendErr ("could not fetch stats for container " +:+ containerID
                +:+ ": " +:+ err)]
  | types.StatsBody readErr unmarshalErr statsJSON =>
      match readErr with
      | Some err => [SendErr ("could not read stats for container "
                              +:+ containerID +:+ ": " +:+ err)]
      | None => []
      end ++
      match unmarshalErr with
      | Some err => [SendErr ("could not unmarshal stats for container "
                              +:+ containerID +:+ ": " +:+ err)]
      | None => []
      end ++
      [SendStats statsJSON]
  end.

(** Where the handler is. *)
Inductive handler_pc :=
| RangeStats                            (* for statsJSON := range statsChan *)
| RangeErrs (errorMsgs : list string)   (* for err := range errChan *)
| Responded (r : response).

#[global] Instance handler_pc_eq_dec : EqDecision handler_pc.
Proof. solve_decision. Defined.

Record gm_state := mkGm {
  tasks : list (list action);    (* per goroutine; [[]] once it has returned *)
  capacity : nat;                (* len(containers), of both channels *)
  statsChan : list types.StatsJSON;
  statsClosed : bool;
  errChan : list error;
  errClosed : bool;
  pc : handler_pc;
  dm : metrics.DockerMetrics
}.

(** [fmt.Sprintf("%v", errorMsgs)] *)
Definition Sprint_v (errorMsgs : list string) : string :=
  "[" +:+ String.concat " " errorMsgs +:+ "]".

(** The steps of the goroutine at position [i]. *)
Definition task_step (s : gm_state) (i : nat) : list gm_state :=
  match tasks s !! i with
  | Some (SendErr err :: rest) =>
      if bool_decide (length (errChan s) < capacity s)
      then [mkGm (<[ i := rest ]> (tasks s)) (capacity s)
              (statsChan s) (statsClosed s)
              (errChan s ++ [err]) (errClosed s) (pc s) (dm s)]
      else []
  | Some (SendStats statsJSON :: rest) =>
      if bool_decide (length (statsChan s) < capacity s)
      then [mkGm (<[ i := rest ]> (tasks s)) (capacity s)
              (statsChan s ++ [statsJSON]) (statsClosed s)
              (errChan s) (errClosed s) (pc s) (dm s)]
      else []
  | _ => []
  end.

(** [wg.Wait(); close(statsChan); close(errChan)] *)
Definition closer_step (s : gm_state) : list gm_state :=
  if forallb (λ t, bool_decide (t = [])) (tasks s) then
    if negb (statsClosed s)
    then [mkGm (tasks s) (capacity s) (statsChan s) true
            (errChan s) (errClosed s) (pc s) (dm s)]
    else if negb (errClosed s)
    then [mkGm (tasks s) (capacity s) (statsChan s) (statsClosed s)
            (errChan s) true (pc s) (dm s)]
    else []
  else [].

Definition handler_step (s : gm_state) : list gm_state :=
  match pc s with
  | RangeStats =>
      match statsChan s with
      | statsJSON :: rest =>
          (* Process results *)
          [mkGm (tasks s) (capacity s) rest (statsClosed s)
             (errChan s) (errClosed s) RangeStats
             (metrics.UpdateMetrics (dm s) statsJSON)]
      | [] =>
          if statsClosed s then
            (* Handle errors *)
            if bool_decide (0 < length (errChan s))
            then [mkGm (tasks s) (capacity s) [] (statsClosed s)
                    (errChan s) (errClosed s) (RangeErrs []) (dm s)]
            else
              (* Serve Prometheus metrics *)
              [mkGm (tasks s) (capacity s) [] (statsClosed s)
                 (errChan s) (errClosed s)
                 (Responded (ServeMetrics (dm s))) (dm s)]
          else []
      end
  | RangeErrs errorMsgs =>
      match errChan s with
      | err :: rest =>
          [mkGm (tasks s) (capacity s) (statsChan s) (statsClosed s)
             rest (errClosed s) (RangeErrs (errorMsgs ++ [err])) (dm s)]
      | [] =>
          if errClosed s
          then [mkGm (tasks s) (capacity s) (statsChan s) (statsClosed s)
                  [] (errClosed s)
                  (Responded
                     (HttpError ("Errors occurred: " +:+ Sprint_v errorMsgs)
                        StatusInternalServerError))
                  (dm s)]
          else []
      end
  | Responded _ => []
  end.

Definition successors (s : gm_state) : list gm_state :=
  flat_map (task_step s) (seq 0 (length (tasks s)))
  ++ closer_step s ++ handler_step s.

Definition gm_step (s s' : gm_state) : Prop := s' ∈ successors s.

Section Stats.
Context {E : Type} `{!client.Client E}.

(** The handler up to the point where every goroutine is started; when
    the listing fails it has responded already. *)
Definition GenerateMetrics (dm : metrics.DockerMetrics) (e : E) : gm_state :=
  (* List all containers *)
  match docker.ListAllContariners e with
  | (Return (containers, None), e', _) =>
      (* Fetch stats for each container concurrently *)
      mkGm
        (map (λ container,
                statsTask (types.ID container)
                  (client.ContainerStats (types.ID container) e'))
             containers)
        (length containers) [] false [] false RangeStats dm
  | _ =>
      mkGm [] 0 [] false [] false
        (Responded (HttpError "Could not list containers"
                      StatusInternalServerError))
        dm
  end.

End Stats.

End main.

(** ** A reference engine

    Modelled from the spec: the container engine is outside the
    repository.  A small engine with the operations of the container-engine
    capability, on which the program can be run: containers with unique
    names, a local image index, a registry that a pull reads, and files.
    Stopping, removing, starting or inspecting a container that does not
    exist fails with the engine's not-found error, creating one needs a
    free name and a local image, and stopping a container that is already
    stopped succeeds. *)

Module sim.

Record ctr := mkCtr {
  id : string;
  name : string;
  imageID : string;
  config : container.Config;
  hostConfig : container.HostConfig;
  running : bool
}.

Record engine := mkEngine {
  containers : list ctr;
  images : list image.Summary;        (* the local image index *)
  registry : list (string * string);  (* reference ↦ image ID of a pull *)
  nextID : string;                    (* the ID of the next container *)
  stats : list (string * types.StatsReply);
  files : list (string * string)
}.

Definition notFound (containerID : string) : error :=
  "No such container: " +:+ containerID.

Definition lookup {A} (k : string) (l : list (string * A)) : option A :=
  snd <$> List.find (λ p, bool_decide (p.1 = k)) l.

Definition findCtr (containerID : string) (e : engine) : option ctr :=
  List.find (λ c, bool_decide (id c = containerID)) (containers e).

Definition hasTag (ref : string) (img : image.Summary) : bool :=
  existsb (λ tag, bool_decide (tag = ref)) (image.RepoTags img).

Definition setContainers (cs : list ctr) (e : engine) : engine :=
  mkEngine cs (images e) (registry e) (nextID e) (stats e) (files e).

Definition ContainerList (e : engine) : result (list types.Container) * engine :=
  (Ok (map (λ c, types.mkContainer (id c) ["/" +:+ name c]) (containers e)), e).

Definition ContainerInspect (containerID : string) (e : engine)
  : result types.ContainerJSON * engine :=
  match findCtr containerID e with
  | Some c => (Ok (types.mkContainerJSON (imageID c) (config c) (hostConfig c)), e)
  | None => (Err (notFound containerID), e)
  end.

Definition ContainerCreate (cfg : container.Config)
    (host : container.HostConfig) (n : string) (e : engine)
  : result string * engine :=
  if existsb (λ c, bool_decide (name c = n)) (containers e)
  then (Err ("Conflict. The container name /" +:+ n +:+ " is already in use"), e)
  else
    match List.find (hasTag (container.Image cfg)) (images e) with
    | None => (Err ("No such image: " +:+ container.Image cfg), e)
    | Some img =>
        (Ok (nextID e),
         mkEngine
           (containers e ++ [mkCtr (nextID e) n (image.ID img) cfg host false])
           (images e) (registry e) (nextID e +:+ "'") (stats e) (files e))
    end.

Definition setRunning (b : bool) (containerID : string) (e : engine)
  : option error * engine :=
  match findCtr containerID e with
  | None => (Some (notFound containerID), e)
  | Some _ =>
      (None,
       setContainers
         (map (λ c, if bool_decide (id c = containerID)
                    then mkCtr (id c) (name c) (imageID c) (config c)
                           (hostConfig c) b
                    else c)
              (containers e))
         e)
  end.

Definition ContainerStart := setRunning true.
Definition ContainerStop := setRunning false.

Definition ContainerRemove (containerID : string) (e : engine)
  : option error * engine :=
  match findCtr containerID e with
  | None => (Some (notFound containerID), e)
  | Some c =>
      if running c
      then (Some ("cannot remove container " +:+ containerID
                  +:+ ": container is running"), e)
      else
        (None,
         setContainers
           (filter (λ c, id c ≠ containerID) (containers e)) e)
  end.

(** A pull moves the tag to the image the registry holds for it. *)
Definition ImagePull (ref : string) (e : engine) : option error * engine :=
  match lookup ref (registry e) with
  | None => (Some ("pull access denied for " +:+ ref), e)
  | Some newID =>
      (None,
       mkEngine (containers e)
         (map (λ img,
                 image.mkSummary (image.ID img)
                   (filter (λ tag, tag ≠ ref) (image.RepoTags img)))
              (images e)
          ++ [image.mkSummary newID [ref]])
         (registry e) (nextID e) (stats e) (files e))
  end.

Definition ImageList (e : engine) : result (list image.Summary) * engine :=
  (Ok (images e), e).

Definition ContainerStats (containerID : string) (e : engine)
  : types.StatsReply :=
  default (types.StatsFailed (notFound containerID))
    (lookup containerID (stats e)).

#[global] Instance engine_client : client.Client engine := {|
  client.ContainerList := ContainerList;
  client.ContainerInspect := ContainerInspect;
  client.ContainerCreate := ContainerCreate;
  client.ContainerStart := ContainerStart;
  client.ContainerStop := ContainerStop;
  client.ContainerRemove := ContainerRemove;
  client.ImagePull := ImagePull;
  client.ImageList := ImageList;
  client.ContainerStats := ContainerStats
|}.

#[global] Instance engine_fs : os.FS engine := {|
  os.ReadFile path e :=
    match lookup path (files e) with
    | Some content => Ok content
    | None => Err ("open " +:+ path +:+ ": no such file or directory")
    end
|}.

(** Modelled from the spec: [nat.NewPort] belongs to the go-connections
    library.  The port is a number of 16 bits, or a range of two, written
    in decimal; the empty string is port 0; ["80"] and ["tcp"] give
    ["80/tcp"], ["8000-8002"] and ["udp"] give ["8000-8002/udp"]. *)
Definition isDigit (c : Ascii.ascii) : bool :=
  (48 <=? Ascii.nat_of_ascii c)%nat && (Ascii.nat_of_ascii c <=? 57)%nat.

Definition quote : string := String (Ascii.ascii_of_nat 34) "".

(** [strconv.ParseUint(s, 10, 16)] *)
Definition ParseUint16 (s : string) : result N :=
  let digits := String.list_ascii_of_string s in
  if bool_decide (s ≠ "") && forallb isDigit digits then
    let n := fold_left (λ n c, (10 * n + N.of_nat (Ascii.nat_of_ascii c - 48))%N)
               digits 0%N in
    if (n <=? 65535)%N then Ok n
    else Err ("strconv.ParseUint: parsing " +:+ quote +:+ s +:+ quote
              +:+ ": value out of range")
  else Err ("strconv.ParseUint: parsing " +:+ quote +:+ s +:+ quote
            +:+ ": invalid syntax").

(** The string up to the first [-], and what follows it. *)
Fixpoint cut (s : string) : string * option string :=
  match s with
  | EmptyString => (EmptyString, None)
  | String c rest =>
      if Ascii.eqb c (Ascii.ascii_of_nat 45) then (EmptyString, Some rest)
      else let '(before, after) := cut rest in (String c before, after)
  end.

Definition ParsePortRangeToInt (rawPort : string) : result (N * N) :=
  if bool_decide (rawPort = "") then Ok (0%N, 0%N)
  else
    match cut rawPort with
    | (_, None) =>
        match ParseUint16 rawPort with
        | Ok start => Ok (start, start)
        | Err err => Err err
        end
    | (first, Some rest) =>
        match ParseUint16 first with
        | Err err => Err err
        | Ok start =>
            match ParseUint16 (cut rest).1 with
            | Err err => Err err
            | Ok end_ =>
                if (end_ <? start)%N
                then Err ("invalid range specified for port: " +:+ rawPort)
                else Ok (start, end_)
            end
        end
    end.

Definition Sprint_d (n : N) : string := NilZero.string_of_uint (N.to_uint n).

Definition NewPort (proto port : string) : result nat.Port :=
  match ParsePortRangeToInt port with
  | Err err => Err err
  | Ok (portStartInt, portEndInt) =>
      if bool_decide (portStartInt = portEndInt)
      then Ok (Sprint_d portStartInt +:+ "/" +:+ proto)
      else Ok (Sprint_d portStartInt +:+ "-" +:+ Sprint_d portEndInt
               +:+ "/" +:+ proto)
  end.

#[global] Instance decimal_nat : nat.Lib := {| nat.NewPort := NewPort |}.

(** Documents are decoded by a table. *)
Definition tableYaml (docs : list (string * config.Config)) : config.YamlLib :=
  {| config.Unmarshal text :=
       match lookup text docs with
       | Some cfg => Ok cfg
       | None => Err "yaml: unmarshal errors"
       end |}.

End sim.

(** ** Predicates used in the statements *)

Section Predicates.
Context `{!nat.Lib}.

(** The desired spec that the loop body builds for one declared
    container. *)
Definition converts (c : config.ContainerConfig)
    (spec : docker.ContainerConfig) : Prop :=
  docker.Image spec = config.Image c ∧
  docker.Name spec = config.Name c ∧
  config.genPortSet (config.PortBindings c) ∅ = (docker.ExposedPorts spec, None) ∧
  config.genPortMap (config.PortBindings c) ∅ = (docker.PortBindings spec, None) ∧
  docker.Env spec = config.Env c ∧
  docker.Cmd spec = config.Cmd c.

End Predicates.

(** What the four checks ask for: the inspected exposed ports are a map
    that is not nil and holds the desired ports, the inspected port
    bindings are a map that is not nil and binds the desired ports to the
    desired host bindings, the image references are equal, and the
    desired command is not declared (nil). *)
Definition compares_equal (inspect : types.ContainerJSON)
    (config : docker.ContainerConfig) : Prop :=
  container.ExposedPorts (types.Config inspect)
  = Some (docker.ExposedPorts config) ∧
  container.PortBindings (types.HostConfig inspect)
  = Some (Some <$> docker.PortBindings config) ∧
  container.Image (types.Config inspect) = docker.Image config ∧
  docker.Cmd config = None.



(** The container IDs of the stop calls, and of the remove calls, of a
    trace, in order. *)
Definition stops (t : list event) : list string :=
  omap (λ ev, match ev with
              | Call (CallContainerStop containerID) => Some containerID
              | _ => None
              end) t.

Definition removes (t : list event) : list string :=
  omap (λ ev, match ev with
              | Call (CallContainerRemove containerID) => Some containerID
              | _ => None
              end) t.

(** The engine calls of a trace, in order. *)
Definition calls (t : list event) : list call :=
  omap (λ ev, match ev with
              | Call c => Some c
              | Log _ _ => None
              end) t.

Definition onlyLogs (ev : event) : Prop :=
  match ev with
  | Log _ _ => True
  | Call _ => False
  end.

(** The references of the image pulls of a trace, in order; only the
    freshness check pulls. *)
Definition pulls (t : list event) : list string :=
  omap (λ ev, match ev with
              | Call (CallImagePull ref) => Some ref
              | _ => None
              end) t.

Definition notPull (ev : event) : Prop :=
  match ev with
  | Call (CallImagePull _) => False
  | _ => True
  end.

(** The line [ensureContainers] logs when its create step has created the
    container, and the line [ensureContainerConfig] logs when the
    comparator has found a mismatch. *)
Definition createdLog (name : string) : event :=
  Log Info ("Container " +:+ name +:+ " created").

Definition mismatchLog (name : string) : event :=
  Log Info ("Container " +:+ name
            +:+ " configuration does not match, recreating it..." +:+ nl).

(** The lines a trace logs at [Info], in order. *)
Definition infos (t : list event) : list string :=
  omap (λ ev, match ev with
              | Log Info msg => Some msg
              | _ => None
              end) t.

Definition notCreated (name : string) (ev : event) : Prop :=
  ev ≠ createdLog name.

(** Neither a pull nor the line of the creation of the container. *)
Definition benign (name : string) (ev : event) : Prop :=
  notPull ev ∧ notCreated name ev.

(** Every event a computation issues satisfies [P], from whatever state it
    is run. *)
Definition always {E A : Type} (P : event → Prop) (m : M E A) : Prop :=
  ∀ e o e' t, m e = (o, e', t) → Forall P t.

(** The loop bodies that a pass runs, each with the desired container it
    is run for and with its result: the loop goes on to the next desired
    container when a body reaches its end, and is left otherwise. *)
Fixpoint bodies {E : Type} `{!client.Client E}
    (runningContainers : list types.Container)
    (desierdContainers : list docker.ContainerConfig) (updateCheck : bool)
    (e : E)
  : list (docker.ContainerConfig * (outcome (option error) * E * list event)) :=
  match desierdContainers with
  | [] => []
  | container :: rest =>
      let r := main.ensureOne runningContainers container updateCheck e in
      (container, r) ::
      match outcome_of r with
      | Return None => bodies runningContainers rest updateCheck (state_of r)
      | _ => []
      end
  end.

(** The errors, and the samples, that a goroutine has still to send. *)
Definition errsOf (t : list main.action) : list error :=
  omap (λ a, match a with
             | main.SendErr err => Some err
             | main.SendStats _ => None
             end) t.

Definition statsOf (t : list main.action) : list types.StatsJSON :=
  omap (λ a, match a with
             | main.SendErr _ => None
             | main.SendStats statsJSON => Some statsJSON
             end) t.

Definition pendingE (tasks : list (list main.action)) : list error :=
  List.concat (map errsOf tasks).

Definition pendingS (tasks : list (list main.action)) : list types.StatsJSON :=
  List.concat (map statsOf tasks).

Definition pendingErrs (tasks : list (list main.action)) : nat :=
  length (pendingE tasks).

(** What holds in every state of a scrape whose goroutines had the errors
    [errs] and the samples [stats] to send when they were started, with
    the gauges [dm0]: nothing is closed before every goroutine has
    returned; the gauges are those of the samples received so far, and
    every sample is received, in the channel or still to send; and so is
    every error, once the handler has collected it, is collecting it or
    has reported it. *)
Definition scrape_inv (errs : list error) (stats : list types.StatsJSON)
    (dm0 : metrics.DockerMetrics) (s : main.gm_state) : Prop :=
  length (main.tasks s) = main.capacity s ∧
  (main.statsClosed s = true →
   pendingE (main.tasks s) = [] ∧ pendingS (main.tasks s) = []) ∧
  (main.errClosed s = true → main.statsClosed s = true) ∧
  (∃ received,
     main.dm s = fold_left metrics.UpdateMetrics received dm0 ∧
     received ++ main.statsChan s ++ pendingS (main.tasks s) ≡ₚ stats) ∧
  match main.pc s with
  | main.RangeStats => main.errChan s ++ pendingE (main.tasks s) ≡ₚ errs
  | main.RangeErrs errorMsgs =>
      main.statsClosed s = true ∧ main.statsChan s = [] ∧ errs ≠ [] ∧
      errorMsgs ++ main.errChan s ≡ₚ errs
  | main.Responded r =>
      main.statsClosed s = true ∧ main.statsChan s = [] ∧
      ((errs = [] ∧ r = main.ServeMetrics (main.dm s)) ∨
       (errs ≠ [] ∧
        ∃ errorMsgs,
          errorMsgs ≡ₚ errs ∧
          r = main.HttpError
                ("Errors occurred: " +:+ main.Sprint_v errorMsgs)
                main.StatusInternalServerError))
  end.

(** Every gauge has a value for the labels. *)
Definition recorded (dm : metrics.DockerMetrics) (labels : string * string)
  : Prop :=
  is_Some (metrics.CPUUsageTotal dm !! labels) ∧
  is_Some (metrics.MemoryUsage dm !! labels) ∧
  is_Some (metrics.MemoryMaxUsage dm !! labels) ∧
  is_Some (metrics.MemoryLimit dm !! labels) ∧
  is_Some (metrics.MemoryCache dm !! labels) ∧
  is_Some (metrics.MemoryRSS dm !! labels) ∧
  is_Some (metrics.MemoryUsageOverall dm !! labels) ∧
  is_Some (metrics.NetworkRxBytes dm !! labels) ∧
  is_Some (metrics.NetworkTxBytes dm !! labels) ∧
  is_Some (metrics.BlockIoReadBytes dm !! labels) ∧
  is_Some (metrics.BlockIoWriteBytes dm !! labels).

(** A bound on the steps a scrape can still take: every step of a
    goroutine, of the closer or of the handler lowers it. *)
Definition fuel (s : main.gm_state) : nat :=
  3 * sum_list_with length (main.tasks s)
  + 2 * (length (main.statsChan s) + length (main.errChan s))
  + (if main.statsClosed s then 0 else 1)
  + (if main.errClosed s then 0 else 1)
  + match main.pc s with
    | main.RangeStats => 2
    | main.RangeErrs _ => 1
    | main.Responded _ => 0
    end.

(** The handler is in its loop over [statsChan], which is open, and the
    errors sent and still to send are more than [errChan] can hold. *)
Definition overfull (s : main.gm_state) : Prop :=
  main.pc s = main.RangeStats ∧
  main.statsClosed s = false ∧
  main.errClosed s = false ∧
  (length (main.errChan s) ≤ main.capacity s)%nat ∧
  (main.capacity s < length (main.errChan s) + pendingErrs (main.tasks s))%nat.

(** Every run of the stats handler from [s] ends within [n] steps, and
    [P] holds of every state in which a run ends, that is where no
    goroutine can take a step. *)
Fixpoint all_ends (n : nat) (P : main.gm_state → Prop)
    `{!∀ s, Decision (P s)} (s : main.gm_state) : bool :=
  match n with
  | O => false
  | S n =>
      match main.successors s with
      | [] => bool_decide (P s)
      | next => forallb (all_ends n P) next
      end
  end.

(** The same desired spec, and the same inspected container, with another
    environment. *)
Definition desired_with_env (env : slice string)
    (config : docker.ContainerConfig) : docker.ContainerConfig :=
  {| docker.Image := docker.Image config;
     docker.Name := docker.Name config;
     docker.ExposedPorts := docker.ExposedPorts config;
     docker.PortBindings := docker.PortBindings config;
     docker.Env := env;
     docker.Cmd := docker.Cmd config |}.

Definition observed_with_env (env : slice string)
    (inspect : types.ContainerJSON) : types.ContainerJSON :=
  {| types.Image := types.Image inspect;
     types.Config :=
       {| container.Image := container.Image (types.Config inspect);
          container.ExposedPorts := container.ExposedPorts (types.Config inspect);
          container.Env := env;
          container.Cmd := container.Cmd (types.Config inspect) |};
     types.HostConfig := types.HostConfig inspect |}.

(** ** Inputs on which the program is run *)

Module inputs.

(** The container of the example configuration of the README. *)
Definition nginx_1 : config.ContainerConfig :=
  config.mkContainerConfig "nginx:latest" "nginx_1"
    [config.mkPortBinding "80" "tcp" "0.0.0.0" "8090"]
    (Some ["key1=value1"]) None.

Definition readme : config.Config :=
  config.mkConfig (config.mkAppConfig true true true) [nginx_1].

(** A container that declares port 80/tcp twice. *)
Definition first80 : config.PortBinding :=
  config.mkPortBinding "80" "tcp" "0.0.0.0" "8090".
Definition second80 : config.PortBinding :=
  config.mkPortBinding "80" "tcp" "127.0.0.1" "9090".

Definition twice80 : config.ContainerConfig :=
  config.mkContainerConfig "nginx:latest" "web" [first80; second80] None None.

Definition twice80_config : config.Config :=
  config.mkConfig (config.mkAppConfig false false false) [twice80].

End inputs.

Module samples.

(** An engine without containers, images or files. *)
Definition idle : sim.engine := sim.mkEngine [] [] [] "c0" [] [].

Definition cpu (total system : Z) (percpu : list Z) : types.CPUStatsT :=
  types.mkCPUStats (types.mkCPUUsage total percpu) system.

(** A sample taken while the system counter did not move: the container
    used 5 units of CPU and both readings of the system usage are 1000. *)
Definition still : types.StatsJSON :=
  types.mkStatsJSON "c1" "/web"
    (cpu 105 1000 [105]%Z) (cpu 100 1000 [100]%Z)
    (types.mkMemoryStats 4096 8192 16384 ∅)
    (types.mkBlkioStats []) ∅.

(** The same with no CPU used in between. *)
Definition frozen : types.StatsJSON :=
  types.mkStatsJSON "c1" "/web"
    (cpu 100 1000 [100]%Z) (cpu 100 1000 [100]%Z)
    (types.mkMemoryStats 4096 8192 16384 ∅)
    (types.mkBlkioStats []) ∅.

(** The desired spec of a web server, and an engine that runs it from an
    image that the registry has replaced since. *)
Definition web : docker.ContainerConfig :=
  docker.mkContainerConfig "nginx:latest" "web" {[ "80/tcp" ]}
    {[ "80/tcp" := [nat.mkPortBinding "0.0.0.0" "8090"] ]} None None.

Definition web_ctr (containerID imageRef imageID : string) : sim.ctr :=
  sim.mkCtr containerID "web" imageID
    (container.mkConfig imageRef (Some {[ "80/tcp" ]}) None None)
    (container.mkHostConfig
       (Some {[ "80/tcp" := Some [nat.mkPortBinding "0.0.0.0" "8090"] ]}))
    true.

Definition stale : sim.engine :=
  sim.mkEngine [web_ctr "c0" "nginx:latest" "sha256:old"]
    [image.mkSummary "sha256:old" ["nginx:latest"]]
    [("nginx:latest", "sha256:new")] "c1" [] [].

(** The same web server with its command declared, and an engine that
    runs it from the current image, as created from that very spec. *)
Definition served : docker.ContainerConfig :=
  docker.mkContainerConfig "nginx:latest" "web" {[ "80/tcp" ]}
    {[ "80/tcp" := [nat.mkPortBinding "0.0.0.0" "8090"] ]} None
    (Some ["nginx"; "-g"; "daemon off;"]).

Definition serving : sim.engine :=
  sim.mkEngine
    [sim.mkCtr "c0" "web" "sha256:old"
       (container.mkConfig "nginx:latest" (Some {[ "80/tcp" ]}) None
          (Some ["nginx"; "-g"; "daemon off;"]))
       (container.mkHostConfig
          (Some {[ "80/tcp" := Some [nat.mkPortBinding "0.0.0.0" "8090"] ]}))
       true]
    [image.mkSummary "sha256:old" ["nginx:latest"]]
    [("nginx:latest", "sha256:old")] "c1" [] [].

(** What [ContainerList] answers on an engine. *)
Definition observed (e : sim.engine) : list types.Container :=
  map (λ c, types.mkContainer (sim.id c) ["/" +:+ sim.name c])
    (sim.containers e).

(** An engine whose container [web] was created from another image
    reference than the desired one, while the registry holds a newer image
    for the desired reference. *)
Definition drifted : sim.engine :=
  sim.mkEngine [web_ctr "c0" "nginx:1.0" "sha256:old"]
    [image.mkSummary "sha256:old" ["nginx:1.0"; "nginx:latest"]]
    [("nginx:latest", "sha256:new")] "c1" [] [].

(** No document is known to the YAML decoder. *)
#[global] Instance no_documents : config.YamlLib := sim.tableYaml [].

(** A process that holds the configuration of the README, on the idle
    engine: there is no [config.yaml] to read and no image is local. *)
Definition bare : main.process sim.engine :=
  main.mkProcess idle inputs.readme [].

(** A process that holds the configuration of the README, on an engine
    that has the image and no container yet. *)
Definition ready : main.process sim.engine :=
  main.mkProcess
    (sim.mkEngine [] [image.mkSummary "sha256:old" ["nginx:latest"]]
       [("nginx:latest", "sha256:old")] "c0" [] [])
    inputs.readme [].

(** A configuration whose port is not a number. *)
Definition bad_port : config.Config :=
  config.mkConfig (config.mkAppConfig false false false)
    [config.mkContainerConfig "nginx:latest" "web"
       [config.mkPortBinding "http" "tcp" "0.0.0.0" "8090"] None None].

Definition misconfigured : main.process sim.engine :=
  main.mkProcess idle bad_port [].

(** The zero value of [types.StatsJSON], which [json.Unmarshal] leaves in
    [statsJSON] when it rejects the document. *)
Definition zeroStats : types.StatsJSON :=
  types.mkStatsJSON "" "" (cpu 0 0 []) (cpu 0 0 [])
    (types.mkMemoryStats 0 0 0 ∅) (types.mkBlkioStats []) ∅.

(** One container; the body of its stats answer breaks off while it is
    read, and what was read is not a JSON document. *)
Definition truncated : sim.engine :=
  sim.mkEngine [web_ctr "c0" "nginx:latest" "sha256:old"]
    [image.mkSummary "sha256:old" ["nginx:latest"]] [] "c1"
    [("c0", types.StatsBody (Some "unexpected EOF")
              (Some "unexpected end of JSON input") zeroStats)]
    [].

(** The state of the stats handler on that engine after the goroutine
    has sent its first error. *)
Definition blocked : main.gm_state :=
  main.mkGm
    [[main.SendErr
        "could not unmarshal stats for container c0: unexpected end of JSON input";
      main.SendStats zeroStats]]
    1 [] false
    ["could not read stats for container c0: unexpected EOF"] false
    main.RangeStats metrics.NewDockerMetrics.

(** Two containers; the stats query of the first fails, that of the
    second succeeds. *)
Definition db_ctr : sim.ctr :=
  sim.mkCtr "c1" "db" "sha256:pg"
    (container.mkConfig "postgres:16" None None None)
    (container.mkHostConfig (Some ∅)) true.

Definition db_stats : types.StatsJSON :=
  types.mkStatsJSON "c1" "/db"
    (cpu 300 2000 [300]%Z) (cpu 100 1000 [100]%Z)
    (types.mkMemoryStats 4096 8192 16384 {[ "cache" := 1024%Z ]})
    (types.mkBlkioStats []) ∅.

Definition half_failing : sim.engine :=
  sim.mkEngine [web_ctr "c0" "nginx:latest" "sha256:old"; db_ctr]
    [] [] "c2"
    [("c0", types.StatsFailed "connection refused");
     ("c1", types.StatsBody None None db_stats)]
    [].

(** Three containers, of which only [web] is still desired. *)
Definition cache_ctr : sim.ctr :=
  sim.mkCtr "c2" "cache" "sha256:redis"
    (container.mkConfig "redis:7" None None None)
    (container.mkHostConfig (Some ∅)) false.

Definition fleet : sim.engine :=
  sim.mkEngine [db_ctr; web_ctr "c0" "nginx:latest" "sha256:old"; cache_ctr]
    [image.mkSummary "sha256:old" ["nginx:latest"]] [] "c3" [] [].

(** The end of a scrape on that engine: the handler has answered with the
    one batched error, the gauges of [db] are set and those of [web] are
    not. *)
Definition reported_and_recorded (s : main.gm_state) : Prop :=
  main.pc s
  = main.Responded
      (main.HttpError
         "Errors occurred: [could not fetch stats for container c0: connection refused]"
         main.StatusInternalServerError) ∧
  metrics.MemoryUsage (main.dm s) !! ("c1", "/db")
  = Some (metrics.float64 4096) ∧
  metrics.MemoryUsage (main.dm s) !! ("c0", "/web") = None.

#[global] Instance reported_and_recorded_dec s :
  Decision (reported_and_recorded s).
Proof. unfold reported_and_recorded. apply _. Defined.

End samples.


(** ** Further predicates: listings, calls and traces *)

(** The listed container has at least one name, so that [Names[0]] does
    not run out of range. *)
Definition hasName (container : types.Container) : Prop :=
  types.Names container ≠ [].

(** The first name of the listed container is ["/"] followed by [name]:
    the test [container.Names[0] == "/"+name] of every lookup by name. *)
Definition bears (name : string) (container : types.Container) : bool :=
  bool_decide (head (types.Names container) = Some ("/" +:+ name)).

(** Every container that the engine lists has a name. *)
Definition lists_names (E : Type) `{!client.Client E} : Prop :=
  ∀ (e e' : E) (containers : list types.Container),
    client.ContainerList e = (Ok containers, e') → Forall hasName containers.

(** The create call that carries the fields of a desired spec, as
    [CreateContainer] and [ensureContainerConfig] issue it. *)
Definition createCall (config : docker.ContainerConfig) : call :=
  CallContainerCreate
    {| container.Image := docker.Image config;
       container.ExposedPorts := Some (docker.ExposedPorts config);
       container.Env := docker.Env config;
       container.Cmd := docker.Cmd config |}
    {| container.PortBindings := Some (Some <$> docker.PortBindings config) |}
    (docker.Name config).

(** The errors [nat.NewPort] gives on the port bindings, in order. *)
Definition portErrors `{!nat.Lib} (pbs : list config.PortBinding)
  : list error :=
  omap (λ pb, match nat.NewPort (config.Protocol pb) (config.Port pb) with
              | Err err => Some err
              | Ok _ => None
              end) pbs.

(** The exposed ports of the spec are the ports that have a host binding,
    and every bound port has exactly one. *)
Definition ports_agree (spec : docker.ContainerConfig) : Prop :=
  docker.ExposedPorts spec = dom (docker.PortBindings spec) ∧
  map_Forall (λ _ bindings, length bindings = 1) (docker.PortBindings spec).

(** What the loop body for one desired container may ask of the engine
    when it creates or pulls: the create call of the desired spec, and a
    pull of its image. *)
Definition body_event (container : docker.ContainerConfig) (ev : event)
  : Prop :=
  match ev with
  | Call (CallContainerCreate config hostConfig name) =>
      CallContainerCreate config hostConfig name = createCall container
  | Call (CallImagePull ref) => ref = docker.Image container
  | _ => True
  end.

(** The same for a pass: the spec is one of the desired specs. *)
Definition pass_event (desierdContainers : list docker.ContainerConfig)
    (ev : event) : Prop :=
  match ev with
  | Call (CallContainerCreate _ _ _) | Call (CallImagePull _) =>
      ∃ container, container ∈ desierdContainers ∧ body_event container ev
  | _ => True
  end.

(** What a loop body asks of the engine once its create step has created
    the container: listings, the one create call and the start. *)
Definition created_event (container : docker.ContainerConfig) (ev : event)
  : Prop :=
  match ev with
  | Log _ _ | Call CallContainerList | Call (CallContainerStart _) => True
  | Call (CallContainerCreate config hostConfig name) =>
      CallContainerCreate config hostConfig name = createCall container
  | _ => False
  end.

(** The calls that name a container name this one. *)
Definition targets (containerID : string) (ev : event) : Prop :=
  match ev with
  | Call (CallContainerInspect id) | Call (CallContainerStart id)
  | Call (CallContainerStop id) | Call (CallContainerRemove id) =>
      id = containerID
  | _ => True
  end.

(** The container IDs of the start calls of a trace, in order. *)
Definition starts (t : list event) : list string :=
  omap (λ ev, match ev with
              | Call (CallContainerStart containerID) => Some containerID
              | _ => None
              end) t.

Definition notStart (ev : event) : Prop :=
  match ev with
  | Call (CallContainerStart _) => False
  | _ => True
  end.

Definition notStop (ev : event) : Prop :=
  match ev with
  | Call (CallContainerStop _) => False
  | _ => True
  end.

Definition notRemove (ev : event) : Prop :=
  match ev with
  | Call (CallContainerRemove _) => False
  | _ => True
  end.

(** Traces in which a remove call only ever comes directly after the stop
    call of the same container. *)
Inductive paired : list event → Prop :=
| paired_nil : paired []
| paired_other ev t : notRemove ev → paired t → paired (ev :: t)
| paired_delete containerID t :
    paired t →
    paired (Call (CallContainerStop containerID)
              :: Call (CallContainerRemove containerID) :: t).

Definition stop_precedes_remove (t : list event) : Prop :=
  ∀ i containerID,
    t !! i = Some (Call (CallContainerRemove containerID)) →
    ∃ j, i = S j ∧ t !! j = Some (Call (CallContainerStop containerID)).

(** Every trace of the computation is [paired]. *)
Definition deletes {E A : Type} (m : M E A) : Prop :=
  ∀ e o e' t, m e = (o, e', t) → paired t.

(** The lines logged at [Info] in front of a delete: by the comparator, by
    the freshness step and by the pruner. *)
Definition stop_line (msg : string) : Prop :=
  ∃ name,
    msg = "Container " +:+ name
          +:+ " configuration does not match, recreating it..." +:+ nl ∨
    msg = "Container " +:+ name
          +:+ " is not up to date, recreating ..." +:+ nl ∨
    ∃ containerID,
      msg = "Container " +:+ name +:+ " (" +:+ containerID
            +:+ ") not desired, removing ..." +:+ nl.

(** Traces in which a stop call only ever comes directly after one of
    these lines. *)
Inductive announced : list event → Prop :=
| announced_nil : announced []
| announced_other ev t : notStop ev → announced t → announced (ev :: t)
| announced_stop msg containerID t :
    stop_line msg → announced t →
    announced (Log Info msg :: Call (CallContainerStop containerID) :: t).

Definition stop_is_announced (t : list event) : Prop :=
  ∀ i containerID,
    t !! i = Some (Call (CallContainerStop containerID)) →
    ∃ j msg, i = S j ∧ t !! j = Some (Log Info msg) ∧ stop_line msg.

(** Every trace of the computation is [announced]. *)
Definition announces {E A : Type} (m : M E A) : Prop :=
  ∀ e o e' t, m e = (o, e', t) → announced t.

(** The computation never panics, from whatever state it is run. *)
Definition safe {E A : Type} (m : M E A) : Prop :=
  ∀ e, outcome_of (m e) ≠ Panic.

(** ** Further predicates: the stats handler and the gauges *)

(** The stats query returned a body, and both reading and decoding it
    failed. *)
Definition twice_failed (reply : types.StatsReply) : Prop :=
  match reply with
  | types.StatsBody (Some _) (Some _) _ => True
  | _ => False
  end.

(** The samples that the goroutines of a scrape send, in the order of the
    listing: one for every container whose stats query returned a body,
    whether or not the body could be read and decoded. *)
Definition sent_samples {E : Type} `{!client.Client E}
    (containers : list types.Container) (e : E) : list types.StatsJSON :=
  omap (λ container,
          match client.ContainerStats (types.ID container) e with
          | types.StatsBody _ _ decoded => Some decoded
          | types.StatsFailed _ => None
          end) containers.

(** The label values [WithLabelValues(containerID, containerName)] of a
    sample. *)
Definition labels (stats : types.StatsJSON) : string * string :=
  (types.stats_ID stats, types.stats_Name stats).

(** The values of the eleven gauges for one pair of label values. *)
Definition gauges (dm : metrics.DockerMetrics) (l : string * string)
  : list (option spec_float) :=
  [metrics.CPUUsageTotal dm !! l; metrics.MemoryUsage dm !! l;
   metrics.MemoryMaxUsage dm !! l; metrics.MemoryLimit dm !! l;
   metrics.MemoryCache dm !! l; metrics.MemoryRSS dm !! l;
   metrics.MemoryUsageOverall dm !! l; metrics.NetworkRxBytes dm !! l;
   metrics.NetworkTxBytes dm !! l; metrics.BlockIoReadBytes dm !! l;
   metrics.BlockIoWriteBytes dm !! l].

(** One run of the stats handler: the scheduler that always lets the
    first goroutine that can take a step take it, for [n] steps. *)
Fixpoint run_first (n : nat) (s : main.gm_state) : main.gm_state :=
  match n with
  | O => s
  | S n =>
      match main.successors s with
      | [] => s
      | s' :: _ => run_first n s'
      end
  end.

(** Another run: the scheduler that always lets the last goroutine that
    can take a step take it, the handler before the closer and the closer
    before the tasks, for [n] steps. *)
Fixpoint run_last (n : nat) (s : main.gm_state) : main.gm_state :=
  match n with
  | O => s
  | S n =>
      match last (main.successors s) with
      | None => s
      | Some s' => run_last n s'
      end
  end.

(** The sum of a list of integers. *)
Definition total (l : list Z) : Z := foldr Z.add 0%Z l.

(** ** Further inputs *)

Module cases.

(** A configuration file, YAML in flow style, and the document it
    holds: the configuration of the README. *)
Definition yaml : string :=
  "{app_config: {debug: true, update_check: true, remove_unwanted_containers: true}, containers: [{name: nginx_1, image: 'nginx:latest', port_bindings: [{port: '80', protocol: tcp, host_ip: 0.0.0.0, host_port: '8090'}], env: [key1=value1]}]}".

Definition documents : config.YamlLib := sim.tableYaml [(yaml, inputs.readme)].

(** A process that has reconciled the configuration of two port bindings
    once, so that the package variable holds the spec of [web], on an
    engine that has the image and a [config.yaml] that holds the
    configuration of the README. *)
Definition reloadable : main.process sim.engine :=
  main.mkProcess
    (sim.mkEngine [] [image.mkSummary "sha256:old" ["nginx:latest"]]
       [("nginx:latest", "sha256:old")] "c0" [] [("config.yaml", yaml)])
    inputs.twice80_config [samples.web].

(** A sample of a container with two network interfaces and block I/O of
    several kinds. *)
Definition eth0 : types.NetworkStats := types.mkNetworkStats 1500 700.
Definition eth1 : types.NetworkStats := types.mkNetworkStats 2500 300.

Definition busy : types.StatsJSON :=
  types.mkStatsJSON "c1" "/db"
    (samples.cpu 300 2000 [300]%Z) (samples.cpu 100 1000 [100]%Z)
    (types.mkMemoryStats 4096 8192 16384 {[ "cache" := 1024%Z ]})
    (types.mkBlkioStats
       [types.mkBlkioStatEntry "read" 10; types.mkBlkioStatEntry "write" 20;
        types.mkBlkioStatEntry "sync" 40; types.mkBlkioStatEntry "read" 5])
    {[ "eth0" := eth0; "eth1" := eth1 ]}.

(** A sample that lists no per-CPU usage, while the container has used
    200 units of CPU out of 1000. *)
Definition no_percpu : types.StatsJSON :=
  types.mkStatsJSON "c1" "/db"
    (samples.cpu 300 2000 []) (samples.cpu 100 1000 [])
    (types.mkMemoryStats 4096 8192 16384 ∅)
    (types.mkBlkioStats []) ∅.

(** One container; the body of its stats answer is read in full and is
    not a JSON document of a sample. *)
Definition undecodable : sim.engine :=
  sim.mkEngine [samples.web_ctr "c0" "nginx:latest" "sha256:old"]
    [image.mkSummary "sha256:old" ["nginx:latest"]] [] "c1"
    [("c0", types.StatsBody None (Some "invalid character '<'")
              samples.zeroStats)]
    [].

(** Two containers whose stats queries both succeed. *)
Definition web_stats : types.StatsJSON :=
  types.mkStatsJSON "c0" "/web"
    (samples.cpu 150 2000 [150]%Z) (samples.cpu 100 1000 [100]%Z)
    (types.mkMemoryStats 2048 4096 16384 ∅)
    (types.mkBlkioStats []) ∅.

Definition both_reporting : sim.engine :=
  sim.mkEngine [samples.web_ctr "c0" "nginx:latest" "sha256:old"; samples.db_ctr]
    [] [] "c2"
    [("c0", types.StatsBody None None web_stats);
     ("c1", types.StatsBody None None samples.db_stats)]
    [].

(** The end of a scrape on that engine. *)
Definition reported_under_empty_labels (s : main.gm_state) : Prop :=
  main.pc s
  = main.Responded
      (main.HttpError
         "Errors occurred: [could not unmarshal stats for container c0: invalid character '<']"
         main.StatusInternalServerError) ∧
  metrics.MemoryUsage (main.dm s) !! ("", "") = Some (S754_zero false) ∧
  metrics.CPUUsageTotal (main.dm s) !! ("", "") = Some S754_nan ∧
  metrics.MemoryUsage (main.dm s) !! ("c0", "/web") = None.

#[global] Instance reported_under_empty_labels_dec s :
  Decision (reported_under_empty_labels s).
Proof. unfold reported_under_empty_labels. apply _. Defined.

End cases.
(** * Verification *)

(** ** Computations: what a bind runs, and what holds of every event *)

Section MonadFacts.
Context {E : Type}.

Lemma bind_inv {A B} (m : M E A) (f : A → M E B) e o e' t :
  bind m f e = (o, e', t) →
  match m e with
  | (Return a, e1, t1) => ∃ t2, f a e1 = (o, e', t2) ∧ t = t1 ++ t2
  | (Exit msg, e1, t1) => o = Exit msg ∧ e' = e1 ∧ t = t1
  | (Panic, e1, t1) => o = Panic ∧ e' = e1 ∧ t = t1
  end.
Proof.
  unfold bind. destruct (m e) as [[[a|msg|] e1] t1].
  - destruct (f a e1) as [[o2 e2] t2]. intros [= <- <- <-]. by eexists.
  - by intros [= <- <- <-].
  - by intros [= <- <- <-].
Qed.

Lemma bind_run {A B} (m : M E A) (f : A → M E B) e a e1 t1 :
  m e = (Return a, e1, t1) →
  bind m f e = (let '(o, e2, t2) := f a e1 in (o, e2, t1 ++ t2)).
Proof. unfold bind. by intros ->. Qed.

Lemma bind_exit {A B} (m : M E A) (f : A → M E B) e msg e1 t1 :
  m e = (Exit msg, e1, t1) → bind m f e = (Exit msg, e1, t1).
Proof. unfold bind. by intros ->. Qed.

Lemma always_ret {A} P (a : A) : always (E:=E) P (ret a).
Proof. intros e o e' t [= <- <- <-]. constructor. Qed.

Lemma always_bind {A B} P (m : M E A) (f : A → M E B) :
  always P m → (∀ a, always P (f a)) → always P (bind m f).
Proof.
  intros Hm Hf e o e' t Hrun. apply bind_inv in Hrun.
  destruct (m e) as [[[a|msg|] e1] t1] eqn:Hme.
  - destruct Hrun as (t2 & Hfa & ->). apply Forall_app. split.
    + by eapply Hm.
    + by eapply Hf.
  - destruct Hrun as (_ & _ & ->). by eapply Hm.
  - destruct Hrun as (_ & _ & ->). by eapply Hm.
Qed.

Lemma always_logf P l msg : P (Log l msg) → always (E:=E) P (logf l msg).
Proof. intros HP e o e' t [= <- <- <-]. by repeat constructor. Qed.

Lemma always_fatalf {A} P msg : always (E:=E) (A:=A) P (fatalf msg).
Proof. intros e o e' t [= <- <- <-]. constructor. Qed.

Lemma always_index0 P s : always (E:=E) P (index0 s).
Proof. destruct s; intros e o e' t [= <- <- <-]; constructor. Qed.

Lemma always_call {A} P c (op : E → A * E) :
  P (Call c) → always P (lift_call c op).
Proof.
  intros HP e o e' t. unfold lift_call. destruct (op e) as [a e1].
  intros [= <- <- <-]. by repeat constructor.
Qed.

Lemma pulls_app t1 t2 : pulls (t1 ++ t2) = pulls t1 ++ pulls t2.
Proof. apply omap_app. Qed.

Lemma pulls_notPull t : Forall notPull t → pulls t = [].
Proof.
  induction 1 as [|ev t Hev _ IH]; [done|].
  change (ev :: t) with ([ev] ++ t). rewrite pulls_app, IH.
  by destruct ev as [[]|].
Qed.

End MonadFacts.

Lemma append_cancel (s a b : string) : s +:+ a = s +:+ b → a = b.
Proof. induction s as [|c s IH]; simpl; [done|]. intros [= Heq]. by apply IH. Qed.

(** The lines logged at [Info] for one container differ from the line of
    its creation as soon as they continue differently after the name. *)
Lemma other_line (l : level) (name rest : string) :
  rest ≠ " created" →
  Log l ("Container " +:+ name +:+ rest) ≠ createdLog name.
Proof.
  intros Hrest [= _ Heq]. apply Hrest.
  by apply (append_cancel ""), (append_cancel name) in Heq.
Qed.

Lemma always_mono {E A} (P Q : event → Prop) (m : M E A) :
  (∀ ev, P ev → Q ev) → always P m → always Q m.
Proof. intros HPQ Hm e o e' t Hrun. eapply Forall_impl; [by eapply Hm|done]. Qed.

Lemma benign_notPull name ev : benign name ev → notPull ev.
Proof. by intros []. Qed.

Lemma benign_notCreated name ev : benign name ev → notCreated name ev.
Proof. by intros []. Qed.

Create HintDb always.

Ltac line_neq :=
  first
    [ discriminate
    | apply other_line;
      let Heq := fresh in intros Heq; vm_compute in Heq; discriminate Heq ].

Ltac event_ok :=
  first [ exact I | split; [exact I | line_neq] | line_neq ].

Ltac step_always :=
  first
    [ solve [eauto with always]
    | solve [unshelve
               (eapply always_mono; [apply benign_notPull | eauto with always]);
             exact ""]
    | solve [eapply always_mono; [apply benign_notCreated | eauto with always]]
    | apply always_ret
    | apply always_fatalf
    | apply always_index0
    | apply always_logf; event_ok
    | apply always_call; event_ok
    | apply always_bind; [|intros ?]
    | match goal with
      | |- always _ (if ?b then _ else _) => destruct b
      | |- always _ (match ?x with _ => _ end) => destruct x
      end ].
Ltac solve_always := repeat step_always.

(** From a run [R e = (o, e', t)] of a computation all of whose events
    satisfy [P], to [Forall P t]. *)
Ltac use_always P H :=
  cbv beta iota in H;
  match type of H with
  | ?R _ = _ =>
      let HR := fresh in
      assert (always P R) as HR by solve_always;
      apply HR in H
  end.

(** ** pkg/config: the conversion of the configuration *)

Section ConvertFacts.
Context `{!nat.Lib}.

Lemma containers_loop_ok cs containers containers' :
  config.containers_loop cs containers = (containers', None) →
  ∃ fresh, containers' = containers ++ fresh ∧ Forall2 converts cs fresh.
Proof.
  revert containers. induction cs as [|c cs IH]; intros containers; simpl.
  - intros [= <-]. exists []. by rewrite app_nil_r.
  - destruct (config.genPortSet _ _) as [portSet [e1|]] eqn:Hs; [done|].
    destruct (config.genPortMap _ _) as [portMap [e2|]] eqn:Hm; [done|].
    intros Hrun. apply IH in Hrun as (fresh & -> & Hall).
    eexists (_ :: fresh). rewrite <- app_assoc. split; [done|].
    constructor; [|done]. by repeat split.
Qed.

Lemma containers_loop_err cs containers containers' err :
  config.containers_loop cs containers = (containers', Some err) →
  ∃ fresh, containers' = containers ++ fresh ∧ length fresh < length cs.
Proof.
  revert containers. induction cs as [|c cs IH]; intros containers; simpl.
  - done.
  - destruct (config.genPortSet _ _) as [portSet [e1|]] eqn:Hs.
    { intros [= <- <-]. exists []. rewrite app_nil_r. simpl. split; [done|lia]. }
    destruct (config.genPortMap _ _) as [portMap [e2|]] eqn:Hm.
    { intros [= <- <-]. exists []. rewrite app_nil_r. simpl. split; [done|lia]. }
    intros Hrun. apply IH in Hrun as (fresh & -> & Hlen).
    eexists (_ :: fresh). rewrite <- app_assoc. simpl. split; [done|lia].
Qed.

(** Whatever the package variable holds when [ConfigToDockerConfig] is
    called stays at the head of what it returns. *)
Lemma ConfigToDockerConfig_appends cfg containers :
  match config.ConfigToDockerConfig cfg containers with
  | ((specs, None), containers') =>
      containers' = specs ∧
      ∃ fresh, specs = containers ++ fresh ∧
               Forall2 converts (config.Containers cfg) fresh
  | ((specs, Some _), containers') =>
      specs = [] ∧
      ∃ fresh, containers' = containers ++ fresh ∧
               length fresh < length (config.Containers cfg)
  end.
Proof.
  unfold config.ConfigToDockerConfig.
  destruct (config.containers_loop _ _) as [containers' [err|]] eqn:Hrun.
  - split; [done|]. by eapply containers_loop_err.
  - split; [done|]. by eapply containers_loop_ok.
Qed.

Lemma genPortMap_keeps post port :
  (∀ pb, pb ∈ post →
     nat.NewPort (config.Protocol pb) (config.Port pb) ≠ Ok port) →
  ∀ m m', config.genPortMap post m = (m', None) → m' !! port = m !! port.
Proof.
  induction post as [|pb post IH]; intros Hpost m m'; simpl.
  - by intros [= <-].
  - destruct (nat.NewPort _ _) as [p|e] eqn:Hp; [|done].
    intros Hrun. apply IH in Hrun.
    + rewrite Hrun. apply lookup_insert_ne. intros ->.
      by apply (Hpost pb); [left|].
    + intros pb' Hin. apply Hpost. by right.
Qed.

Lemma genPortMap_last pre pb post port :
  nat.NewPort (config.Protocol pb) (config.Port pb) = Ok port →
  (∀ pb', pb' ∈ post →
     nat.NewPort (config.Protocol pb') (config.Port pb') ≠ Ok port) →
  ∀ m m', config.genPortMap (pre ++ pb :: post) m = (m', None) →
  m' !! port =
    Some [nat.mkPortBinding (config.HostIP pb) (config.HostPort pb)].
Proof.
  intros Hpb Hpost. induction pre as [|a pre IH]; intros m m'; simpl.
  - rewrite Hpb. intros Hrun.
    rewrite (genPortMap_keeps post port Hpost _ _ Hrun).
    apply lookup_insert_eq.
  - destruct (nat.NewPort (config.Protocol a) _) as [p|e]; [|done]. apply IH.
Qed.

End ConvertFacts.

(** C10: in the desired spec built for a declared container, a port key
    is mapped to the one-element list that holds the host IP and host port
    of the last port_bindings entry resolving to that key; the entries
    declared before it for the same key leave no trace in the list. *)
Theorem C10_last_port_binding_replaces_earlier `{!nat.Lib}
    (cfg : config.Config) (containers specs containers' : list docker.ContainerConfig)
    (i : nat) (c : config.ContainerConfig)
    (pre : list config.PortBinding) (pb : config.PortBinding)
    (post : list config.PortBinding) (port : nat.Port) :
  config.ConfigToDockerConfig cfg containers = ((specs, None), containers') →
  config.Containers cfg !! i = Some c →
  config.PortBindings c = pre ++ pb :: post →
  nat.NewPort (config.Protocol pb) (config.Port pb) = Ok port →
  (∀ pb', pb' ∈ post →
     nat.NewPort (config.Protocol pb') (config.Port pb') ≠ Ok port) →
  ∃ spec,
    specs !! (length containers + i) = Some spec ∧
    docker.Name spec = config.Name c ∧
    docker.PortBindings spec !! port
      = Some [nat.mkPortBinding (config.HostIP pb) (config.HostPort pb)].
Proof.
  intros Hrun Hc Hpbs Hport Hpost.
  pose proof (ConfigToDockerConfig_appends cfg containers) as Happ.
  rewrite Hrun in Happ. destruct Happ as (_ & fresh & -> & Hall).
  destruct (Forall2_lookup_l _ _ _ _ _ Hall Hc) as (spec & Hspec & Hconv).
  exists spec. split.
  { rewrite lookup_app_r by lia.
    by replace (length containers + i - length containers) with i by lia. }
  destruct Hconv as (_ & Hname & _ & Hmap & _). split; [done|].
  rewrite Hpbs in Hmap. by eapply genPortMap_last.
Qed.

Lemma C10_last_port_binding_replaces_earlier_witness :
  ∃ spec,
    (config.ConfigToDockerConfig inputs.twice80_config []).1.1 !! (0 + 0)
      = Some spec ∧
    docker.Name spec = "web" ∧
    docker.PortBindings spec !! "80/tcp"
      = Some [nat.mkPortBinding "127.0.0.1" "9090"].
Proof.
  apply (C10_last_port_binding_replaces_earlier
           inputs.twice80_config [] _
           (config.ConfigToDockerConfig inputs.twice80_config []).2
           0 inputs.twice80 [inputs.first80] inputs.second80 [] "80/tcp").
  - vm_compute. reflexivity.
  - reflexivity.
  - reflexivity.
  - vm_compute. reflexivity.
  - intros pb' Hin. inversion Hin.
Defined.

(** ** pkg/docker: the delete step *)

Section DeleteFacts.
Context {E : Type} `{!client.Client E}.

Lemma DeleteContainer_run (containerId : string) (e : E) :
  match client.ContainerStop containerId e with
  | (Some err, e1) =>
      docker.DeleteContainer containerId e
        = (Return (Some err), e1, [Call (CallContainerStop containerId)])
  | (None, e1) =>
      match client.ContainerRemove containerId e1 with
      | (err, e2) =>
          docker.DeleteContainer containerId e
            = (Return err, e2,
               [Call (CallContainerStop containerId);
                Call (CallContainerRemove containerId)])
      end
  end.
Proof.
  unfold docker.DeleteContainer, bind, containerStop, containerRemove, lift_call.
  destruct (client.ContainerStop containerId e) as [[err|] e1]; [done|].
  by destruct (client.ContainerRemove containerId e1) as [[err|] e2].
Qed.

(** C5 (as the code has it): [DeleteContainer] succeeds exactly when both
    the stop and the remove succeed.  A failing stop, whatever its cause,
    is returned at once and no remove is issued; otherwise the result of
    the remove is returned. *)
Theorem C5_delete_returns_first_failure (containerId : string) (e : E) :
  match client.ContainerStop containerId e with
  | (Some err, e1) =>
      docker.DeleteContainer containerId e
        = (Return (Some err), e1, [Call (CallContainerStop containerId)])
  | (None, e1) =>
      match client.ContainerRemove containerId e1 with
      | (err, e2) =>
          docker.DeleteContainer containerId e
            = (Return err, e2,
               [Call (CallContainerStop containerId);
                Call (CallContainerRemove containerId)])
      end
  end.
Proof. apply DeleteContainer_run. Qed.

End DeleteFacts.

(** The delete of a container that is already gone: the engine reports
    not-found on the stop, [DeleteContainer] returns that error, and the
    container does not exist afterwards. *)
Lemma C5_delete_of_absent_container_fails :
  sim.findCtr "gone"
    (state_of (docker.DeleteContainer "gone" samples.idle)) = None ∧
  docker.DeleteContainer "gone" samples.idle
    = (Return (Some "No such container: gone"), samples.idle,
       [Call (CallContainerStop "gone")]).
Proof. split; reflexivity. Qed.

(** ** pkg/metrics: the CPU percentage *)

Lemma fdiv_by_zero (x : spec_float) (s : bool) :
  metrics.fdiv x (S754_zero s) = S754_nan ∨
  ∃ s', metrics.fdiv x (S754_zero s) = S754_infinity s'.
Proof. destruct x; simpl; eauto. Qed.

Lemma fmul_nan_or_infinity (x y : spec_float) :
  (x = S754_nan ∨ ∃ s, x = S754_infinity s) →
  metrics.fmul x y = S754_nan ∨ ∃ s, metrics.fmul x y = S754_infinity s.
Proof. intros [->|[s ->]]; destruct y; simpl; eauto. Qed.

(** C3: [UpdateMetrics] divides by the system delta without looking at
    it.  Whenever the two readings of the system usage are equal, the CPU
    percentage it records is a NaN or an infinity, never 0. *)
Theorem C3_zero_system_delta_gives_nan_or_infinity (stats : types.StatsJSON) :
  metrics.uint64 (types.SystemUsage (types.CPUStats stats)
                  - types.SystemUsage (types.PreCPUStats stats)) = 0%Z →
  (metrics.cpuPercent stats = S754_nan ∨
   ∃ s, metrics.cpuPercent stats = S754_infinity s) ∧
  metrics.CPUUsageTotal
    (metrics.UpdateMetrics metrics.NewDockerMetrics stats)
    !! (types.stats_ID stats, types.stats_Name stats)
    = Some (metrics.cpuPercent stats).
Proof.
  intros Hzero. split; [|apply lookup_insert_eq].
  unfold metrics.cpuPercent, metrics.systemDelta. rewrite Hzero.
  apply fmul_nan_or_infinity, fmul_nan_or_infinity.
  apply (fdiv_by_zero _ false).
Qed.

Lemma C3_zero_system_delta_gives_nan_or_infinity_witness :
  (metrics.cpuPercent samples.frozen = S754_nan ∨
   ∃ s, metrics.cpuPercent samples.frozen = S754_infinity s) ∧
  metrics.CPUUsageTotal
    (metrics.UpdateMetrics metrics.NewDockerMetrics samples.frozen)
    !! ("c1", "/web")
    = Some (metrics.cpuPercent samples.frozen).
Proof.
  apply (C3_zero_system_delta_gives_nan_or_infinity samples.frozen).
  reflexivity.
Defined.

(** With no CPU used the recorded value is a NaN, with some CPU used it is
    plus infinity. *)
Example cpuPercent_frozen : metrics.cpuPercent samples.frozen = S754_nan.
Proof. reflexivity. Qed.

Example cpuPercent_still :
  metrics.cpuPercent samples.still = S754_infinity false.
Proof. reflexivity. Qed.

(** ** main: the comparator *)

Section CompareFacts.
Context {E : Type} `{!client.Client E}.

Lemma compareConfig_run
    (inspect : types.ContainerJSON) (config : docker.ContainerConfig) (e : E) :
  ∃ needsUpdate logs,
    main.compareConfig inspect config e = (Return needsUpdate, e, logs) ∧
    Forall onlyLogs logs ∧
    (needsUpdate = false ↔ compares_equal inspect config).
Proof.
  unfold main.compareConfig, compares_equal, reflect.DeepEqual, bind, ret, logf.
  destruct inspect as [img [cimg ports env cmd] [bindings]].
  destruct config as [dimg dname dports dbindings denv dcmd]. simpl.
  destruct (decide (ports = Some dports)) as [Hp|Hp];
    [rewrite (bool_decide_eq_true_2 _ Hp)|rewrite (bool_decide_eq_false_2 _ Hp)];
  (destruct (decide (bindings = Some (Some <$> dbindings))) as [Hb|Hb];
    [rewrite (bool_decide_eq_true_2 _ Hb)|rewrite (bool_decide_eq_false_2 _ Hb)]);
  (destruct (decide (cimg = dimg)) as [Hi|Hi];
    [rewrite (bool_decide_eq_true_2 _ Hi)|rewrite (bool_decide_eq_false_2 _ Hi)]);
  simpl; destruct dcmd as [dcmd|];
  simpl; do 2 eexists; (split; [reflexivity|]);
  (split; [by repeat constructor|]); intuition congruence.
Qed.

Lemma calls_app t1 t2 : calls (t1 ++ t2) = calls t1 ++ calls t2.
Proof. apply omap_app. Qed.

Lemma calls_onlyLogs t : Forall onlyLogs t → calls t = [].
Proof.
  induction 1 as [|ev t Hev _ IH]; [done|].
  change (ev :: t) with ([ev] ++ t). rewrite calls_app, IH.
  by destruct ev.
Qed.

Lemma stops_app t1 t2 : stops (t1 ++ t2) = stops t1 ++ stops t2.
Proof. apply omap_app. Qed.

Lemma stops_onlyLogs t : Forall onlyLogs t → stops t = [].
Proof.
  induction 1 as [|ev t Hev _ IH]; [done|].
  change (ev :: t) with ([ev] ++ t). rewrite stops_app, IH.
  by destruct ev as [[]|].
Qed.

(** In [ensureContainerConfig], at the listed container that bears the
    desired name, the decision of the comparator is the recreate: when the
    four checks find no mismatch the function returns nil after the
    inspect without any stop, remove or create, and otherwise it goes on
    to stop the container. *)
Lemma comparator_decides_the_recreate
    (inspect : types.ContainerJSON) (config : docker.ContainerConfig) (e : E)
    (container : types.Container) (rest : list types.Container) (e0 : E)
    (names : list string) :
  types.Names container = ("/" +:+ docker.Name config) :: names →
  client.ContainerInspect (types.ID container) e0 = (Ok inspect, e) →
  let r := main.ensureContainerConfig_loop (container :: rest) config e0 in
  (compares_equal inspect config →
   outcome_of r = Return None ∧ state_of r = e ∧
   calls (trace_of r) = [CallContainerInspect (types.ID container)]) ∧
  (¬ compares_equal inspect config →
   ∃ logs after,
     Forall onlyLogs logs ∧
     trace_of r
     = Call (CallContainerInspect (types.ID container)) :: logs
         ++ mismatchLog (docker.Name config)
         :: Call (CallContainerStop (types.ID container)) :: after).
Proof.
  destruct (compareConfig_run inspect config e)
    as (needsUpdate & logs & Hcompare & Hlogs & Hiff).
  intros Hnames Hinspect r. subst r.
  destruct (main.ensureContainerConfig_loop (container :: rest) config e0)
    as [[o e'] t] eqn:Hrun.
  unfold outcome_of, state_of, trace_of. simpl in *.
  rewrite Hnames in Hrun. apply bind_inv in Hrun. simpl in Hrun.
  destruct Hrun as (t2 & Hrun & ->).
  rewrite bool_decide_eq_true_2 in Hrun by done.
  apply bind_inv in Hrun. unfold containerInspect, lift_call in Hrun.
  rewrite Hinspect in Hrun. destruct Hrun as (t3 & Hrun & ->).
  apply bind_inv in Hrun. rewrite Hcompare in Hrun.
  destruct Hrun as (t4 & Hrun & ->). simpl.
  destruct needsUpdate.
  - split.
    { intros Heq. apply Hiff in Heq. done. }
    intros _. apply bind_inv in Hrun. unfold logf at 1 in Hrun.
    destruct Hrun as (t5 & Hrun & ->). apply bind_inv in Hrun.
    pose proof (DeleteContainer_run (types.ID container) e) as Hdel.
    destruct (client.ContainerStop (types.ID container) e) as [[serr|] e1].
    { rewrite Hdel in Hrun. destruct Hrun as (t6 & _ & ->).
      exists logs, t6. done. }
    destruct (client.ContainerRemove (types.ID container) e1) as [[rerr|] e2];
      rewrite Hdel in Hrun; destruct Hrun as (t6 & _ & ->);
      by exists logs, (Call (CallContainerRemove (types.ID container)) :: t6).
  - split.
    2:{ intros Hne. exfalso. apply Hne. by apply Hiff. }
    intros _. apply bind_inv in Hrun. unfold logf at 1 in Hrun.
    destruct Hrun as (t5 & [= <- <- <-] & ->).
    split; [done|]. split; [done|].
    rewrite calls_app. simpl. by rewrite (calls_onlyLogs logs Hlogs).
Qed.

End CompareFacts.

(** A container whose compared fields are those of the desired spec, with
    no command declared, is left alone. *)
Example matching_container_is_left_alone :
  main.ensureContainerConfig samples.web samples.stale
  = (Return None, samples.stale,
     [Call CallContainerList; Call (CallContainerInspect "c0");
      Log Debug ("Config for container web already up to date" +:+ nl)]).
Proof. vm_compute. reflexivity. Qed.

(** A container without exposed ports, for which the inspect answers the
    nil map, does not compare equal to the spec, whose map comes from
    [make]. *)
Example nil_ports_do_not_compare_equal :
  outcome_of
    (main.compareConfig
       (types.mkContainerJSON "sha256:pg"
          (container.mkConfig "postgres:16" None None None)
          (container.mkHostConfig (Some ∅)))
       (docker.mkContainerConfig "postgres:16" "db" ∅ ∅ None None)
       samples.idle)
  = Return true.
Proof. vm_compute. reflexivity. Qed.

(** C1: the four checks of the comparator leave [needsUpdate] false
    exactly when the inspected exposed ports and port bindings are maps
    that are not nil and hold what the desired spec holds, the image
    references are equal, and the desired command is not declared.  The
    environment of neither side enters the decision.  A declared command,
    however, always asks for a recreate, whatever command the container
    has: the inspected command is a [strslice.StrSlice] and the desired one
    a [[]string], and [reflect.DeepEqual] is false on values of two types.
    So on an engine that runs the container [web] exactly as the spec
    [served] has it created, command included, the function logs that the
    command does not match, stops, removes and creates the container, and
    on the engine it leaves it does the same again. *)
Theorem C1_declared_command_always_asks_for_recreate :
  (∀ (E : Type) (Hclient : client.Client E) (inspect : types.ContainerJSON)
     (config : docker.ContainerConfig) (e : E),
     (∃ needsUpdate logs,
        main.compareConfig inspect config e = (Return needsUpdate, e, logs) ∧
        (needsUpdate = false ↔ compares_equal inspect config) ∧
        (docker.Cmd config ≠ None → needsUpdate = true)) ∧
     (∀ env env',
        main.compareConfig (observed_with_env env inspect)
          (desired_with_env env' config) e
        = main.compareConfig inspect config e)) ∧
  client.ContainerInspect "c0" samples.serving
  = (Ok (types.mkContainerJSON "sha256:old"
           {| container.Image := docker.Image samples.served;
              container.ExposedPorts := Some (docker.ExposedPorts samples.served);
              container.Env := docker.Env samples.served;
              container.Cmd := docker.Cmd samples.served |}
           {| container.PortBindings :=
                Some (Some <$> docker.PortBindings samples.served) |}),
     samples.serving) ∧
  (let r := main.ensureContainerConfig samples.served samples.serving in
   outcome_of r = Return None ∧
   trace_of r
   = [Call CallContainerList; Call (CallContainerInspect "c0");
      Log Debug ("Container web command does not match" +:+ nl);
      mismatchLog "web";
      Call (CallContainerStop "c0"); Call (CallContainerRemove "c0");
      Call CallContainerList; Call (createCall samples.served);
      Log Info ("Container web recreated with the correct configuration"
                +:+ nl)] ∧
   calls (trace_of (main.ensureContainerConfig samples.served (state_of r)))
   = [CallContainerList; CallContainerInspect "c1";
      CallContainerStop "c1"; CallContainerRemove "c1";
      CallContainerList; createCall samples.served]).
Proof.
  split; [|split; [|split; [|split]]]; try (vm_compute; reflexivity).
  intros E Hclient inspect config e. split; [|done].
  destruct (compareConfig_run inspect config e)
    as (needsUpdate & logs & Hcompare & _ & Hiff).
  exists needsUpdate, logs. split; [done|]. split; [done|].
  intros Hcmd. destruct needsUpdate; [done|].
  exfalso. apply Hcmd. by apply Hiff.
Qed.

(** ** main: the freshness check *)

Lemma latestOf_from (images : list image.Summary) (ref latestImageID : string) :
  (∀ img, img ∈ images → ref ∉ image.RepoTags img) →
  fold_left
    (λ latestImageID img,
       if existsb (λ tag, bool_decide (tag = ref)) (image.RepoTags img)
       then image.ID img else latestImageID)
    images latestImageID = latestImageID.
Proof.
  revert latestImageID.
  induction images as [|img images IH]; intros latestImageID Hnone; [done|].
  simpl. destruct (existsb _ _) eqn:Hex.
  - apply existsb_exists in Hex as (tag & Hin & Htag).
    apply bool_decide_eq_true in Htag as ->.
    exfalso. apply (Hnone img); [left|]. by apply list_elem_of_In.
  - apply IH. intros img' Hin. apply Hnone. by right.
Qed.

Lemma latestOf_none (images : list image.Summary) (ref : string) :
  (∀ img, img ∈ images → ref ∉ image.RepoTags img) →
  main.latestOf images ref = "".
Proof. apply latestOf_from. Qed.

Lemma latestOf_last (pre : list image.Summary) (img : image.Summary)
    (post : list image.Summary) (ref : string) :
  ref ∈ image.RepoTags img →
  (∀ img', img' ∈ post → ref ∉ image.RepoTags img') →
  main.latestOf (pre ++ img :: post) ref = image.ID img.
Proof.
  intros Hin Hpost. unfold main.latestOf. rewrite fold_left_app. simpl.
  replace (existsb _ (image.RepoTags img)) with true.
  - by apply latestOf_from.
  - symmetry. apply existsb_exists. exists ref. split.
    + by apply list_elem_of_In.
    + by apply bool_decide_eq_true.
Qed.

Section FreshnessFacts.
Context {E : Type} `{!client.Client E}.

(** C8: once the running container has been inspected, the freshness
    check pulls the desired image, whatever the local image index holds.
    After the pull, if no image of the index carries the desired reference
    the check returns an error; and if some image does, the verdict is the
    equality of the image identifier of the running container with the
    identifier of the matched image (the last image of the index that
    carries the reference, its identifier not being empty), with no
    error. *)
Theorem C8_freshness_pulls_then_compares_or_fails
    (containerID : string) (config : docker.ContainerConfig) (e e1 : E)
    (inspect : types.ContainerJSON) :
  client.ContainerInspect containerID e = (Ok inspect, e1) →
  (∃ rest,
     trace_of (main.isContainerUpToDate containerID config e)
     = Call (CallContainerInspect containerID)
         :: Call (CallImagePull (docker.Image config)) :: rest) ∧
  (∀ e2 images e3,
     client.ImagePull (docker.Image config) e1 = (None, e2) →
     client.ImageList e2 = (Ok images, e3) →
     ((∀ img, img ∈ images → docker.Image config ∉ image.RepoTags img) →
      outcome_of (main.isContainerUpToDate containerID config e)
      = Return (false,
                Some ("could not find the latest image for "
                      +:+ docker.Image config))) ∧
     (∀ pre img post,
        images = pre ++ img :: post →
        docker.Image config ∈ image.RepoTags img →
        (∀ img', img' ∈ post → docker.Image config ∉ image.RepoTags img') →
        image.ID img ≠ "" →
        outcome_of (main.isContainerUpToDate containerID config e)
        = Return (bool_decide (types.Image inspect = image.ID img), None))).
Proof.
  intros Hinspect.
  unfold main.isContainerUpToDate, bind, containerInspect, imagePull,
    imageList, lift_call, trace_of, outcome_of.
  rewrite Hinspect.
  destruct (client.ImagePull (docker.Image config) e1) as [[perr|] e2] eqn:Hpull.
  { split; [by eexists|]. intros ??? [=]. }
  destruct (client.ImageList e2) as [[images|lerr] e3] eqn:Hlist; simpl.
  2:{ split; [by eexists|]. intros ??? [= <-]. rewrite Hlist. intros [=]. }
  split.
  { case_bool_decide; simpl; [by eexists|].
    case_bool_decide; simpl; by eexists. }
  intros e2' images' e3' [= <-]. rewrite Hlist. intros [= <- <-]. split.
  - intros Hnone. by rewrite (latestOf_none _ _ Hnone).
  - intros pre img post -> Hin Hpost Hid.
    rewrite (latestOf_last _ _ _ _ Hin Hpost).
    rewrite (bool_decide_eq_false_2 _ Hid).
    by case_bool_decide.
Qed.

End FreshnessFacts.

Lemma C8_freshness_pulls_then_compares_or_fails_witness :
  outcome_of (main.isContainerUpToDate "c0" samples.web samples.stale)
  = Return (false, None).
Proof.
  refine (proj2 (proj2
    (C8_freshness_pulls_then_compares_or_fails "c0" samples.web samples.stale
       samples.stale (types.mkContainerJSON "sha256:old" _ _) _)
    (sim.ImagePull "nginx:latest" samples.stale).2
    [image.mkSummary "sha256:old" []; image.mkSummary "sha256:new" ["nginx:latest"]]
    (sim.ImagePull "nginx:latest" samples.stale).2 _ _)
    [image.mkSummary "sha256:old" []]
    (image.mkSummary "sha256:new" ["nginx:latest"]) [] _ _ _ _).
  - reflexivity.
  - reflexivity.
  - reflexivity.
  - reflexivity.
  - simpl. left.
  - intros img' Hin. inversion Hin.
  - discriminate.
Defined.

(** ** main: the pruner *)

Section PruneFacts.
Context {E : Type} `{!client.Client E}.





End PruneFacts.

(** ** main: the loop body of the reconciliation *)

Section EnsureFacts.
Context {E : Type} `{!client.Client E}.

Lemma findByName_benign N containers name :
  always (E:=E) (benign N) (docker.findByName containers name).
Proof. induction containers; simpl; solve_always. Qed.
Hint Resolve findByName_benign : always.

Lemma idByName_benign N containers name :
  always (E:=E) (benign N) (docker.idByName containers name).
Proof. induction containers; simpl; solve_always. Qed.
Hint Resolve idByName_benign : always.

Lemma CreateContainer_benign N config :
  always (E:=E) (benign N) (docker.CreateContainer config).
Proof.
  unfold docker.CreateContainer, containerList, containerCreate. solve_always.
Qed.
Hint Resolve CreateContainer_benign : always.

Lemma DeleteContainer_benign N containerId :
  always (E:=E) (benign N) (docker.DeleteContainer containerId).
Proof.
  unfold docker.DeleteContainer, containerStop, containerRemove. solve_always.
Qed.
Hint Resolve DeleteContainer_benign : always.

Lemma GetContainerIDByName_benign N name :
  always (E:=E) (benign N) (docker.GetContainerIDByName name).
Proof. unfold docker.GetContainerIDByName, containerList. solve_always. Qed.
Hint Resolve GetContainerIDByName_benign : always.

Lemma EnsureRunningContainers_benign N containerID :
  always (E:=E) (benign N) (docker.EnsureRunningContainers containerID).
Proof. unfold docker.EnsureRunningContainers, containerStart. solve_always. Qed.
Hint Resolve EnsureRunningContainers_benign : always.

Lemma findRunning_benign runningContainers container :
  always (E:=E) (benign (docker.Name container))
    (main.findRunning runningContainers container).
Proof. induction runningContainers; simpl; solve_always. Qed.
Hint Resolve findRunning_benign : always.

Lemma compareConfig_benign inspect config :
  always (E:=E) (benign (docker.Name config))
    (main.compareConfig inspect config).
Proof. unfold main.compareConfig. solve_always. Qed.
Hint Resolve compareConfig_benign : always.

Lemma ensureContainerConfig_loop_benign containers config :
  always (E:=E) (benign (docker.Name config))
    (main.ensureContainerConfig_loop containers config).
Proof.
  induction containers; simpl; unfold containerCreate, containerInspect;
    solve_always.
Qed.
Hint Resolve ensureContainerConfig_loop_benign : always.

Lemma ensureContainerConfig_benign config :
  always (E:=E) (benign (docker.Name config))
    (main.ensureContainerConfig config).
Proof. unfold main.ensureContainerConfig, containerList. solve_always. Qed.
Hint Resolve ensureContainerConfig_benign : always.

Lemma isContainerUpToDate_notCreated containerID config :
  always (E:=E) (notCreated (docker.Name config))
    (main.isContainerUpToDate containerID config).
Proof.
  unfold main.isContainerUpToDate, containerInspect, imagePull, imageList.
  solve_always.
Qed.
Hint Resolve isContainerUpToDate_notCreated : always.

Lemma updateStep_notCreated ctid container :
  always (E:=E) (notCreated (docker.Name container))
    (main.updateStep ctid container).
Proof. unfold main.updateStep. solve_always. Qed.
Hint Resolve updateStep_notCreated : always.

(** A computation without pulls in front of another one adds no pull. *)
Lemma bind_skip {A B} (m : M E A) (f : A → M E B) e (b : B) e' t :
  bind m f e = (Return b, e', t) →
  always notPull m →
  ∃ a e1 t2, f a e1 = (Return b, e', t2) ∧ pulls t = pulls t2.
Proof.
  intros Hrun Hm. apply bind_inv in Hrun.
  destruct (m e) as [[[a|msg|] e1] t1] eqn:Hme.
  - destruct Hrun as (t2 & Hfa & ->). exists a, e1, t2. split; [done|].
    by rewrite pulls_app, (pulls_notPull t1) by (by eapply Hm).
  - by destruct Hrun as ([=] & _).
  - by destruct Hrun as ([=] & _).
Qed.

Lemma isContainerUpToDate_pulls containerID config e upToDate e' t :
  main.isContainerUpToDate containerID config e
    = (Return (upToDate, None), e', t) →
  pulls t = [docker.Image config].
Proof.
  unfold main.isContainerUpToDate, bind, containerInspect, imagePull,
    imageList, lift_call, logf, ret.
  destruct (client.ContainerInspect containerID e) as [[inspect|err] e1];
    [|by intros [=]].
  destruct (client.ImagePull (docker.Image config) e1) as [[err|] e2];
    [by intros [=]|].
  destruct (client.ImageList e2) as [[images|err] e3]; [|by intros [=]].
  case_bool_decide; [by intros [=]|].
  case_bool_decide; by intros [= <- <- <-].
Qed.

Lemma updateStep_pulls ctid container e ctid' e' t :
  main.updateStep ctid container e = (Return (inr ctid'), e', t) →
  pulls t = [docker.Image container].
Proof.
  unfold main.updateStep. intros Hrun. apply bind_inv in Hrun.
  destruct (main.isContainerUpToDate ctid container e)
    as [[[[upToDate [err|]]|msg|] e1] t1] eqn:Hcheck;
    try (by destruct Hrun as ([=] & _)).
  { by destruct Hrun as (t2 & [=] & _). }
  destruct Hrun as (t2 & Hrest & ->).
  rewrite pulls_app, (isContainerUpToDate_pulls _ _ _ _ _ _ Hcheck).
  assert (Forall notPull t2) as Hquiet; [|by rewrite (pulls_notPull t2)].
  by use_always notPull Hrest.
Qed.

(** Without update checking the loop body never pulls. *)
Lemma ensureOne_no_check runningContainers container :
  always (E:=E) notPull (main.ensureOne runningContainers container false).
Proof. unfold main.ensureOne. simpl. solve_always. Qed.

(** What the loop body runs up to the point where [created] is known. *)
Lemma ensureOne_inv runningContainers container updateCheck e o e' t :
  main.ensureOne runningContainers container updateCheck e = (o, e', t) →
  (Forall (benign (docker.Name container)) t ∧ o ≠ Return None) ∨
  ∃ (created : bool) (e1 : E) (t1 t2 : list event),
    Forall (benign (docker.Name container)) t1 ∧
    t = t1 ++ (if created then [createdLog (docker.Name container)] else [])
           ++ t2 ∧
    (_ <- (if negb created then
             err <- main.ensureContainerConfig container ;;
             match err with
             | Some err =>
                 fatalf ("Error ensuring container configuration: " +:+ err)
             | None => ret tt
             end
           else ret tt) ;;
     p <- docker.GetContainerIDByName (docker.Name container) ;;
     match p with
     | (_, Some err) => ret (Some err)
     | (ctid, None) =>
         r <- (if updateCheck && negb created
               then main.updateStep ctid container
               else ret (inr ctid)) ;;
         match r with
         | inl err => ret (Some err)
         | inr ctid =>
             err <- docker.EnsureRunningContainers ctid ;;
             match err with
             | Some err => ret (Some err)
             | None =>
                 _ <- logf Info ("Container " +:+ docker.Name container
                                 +:+ " ensured" +:+ nl) ;;
                 ret None
             end
         end
     end) e1 = (o, e', t2).
Proof.
  unfold main.ensureOne. intros Hrun. apply bind_inv in Hrun.
  match type of Hrun with
  | match ?m e with _ => _ end =>
      destruct (m e) as [[[found|msg|] e1] t1] eqn:Hfound
  end.
  2,3: destruct Hrun as (-> & _ & ->); left; split; [|done];
       by use_always (benign (docker.Name container)) Hfound.
  use_always (benign (docker.Name container)) Hfound.
  destruct Hrun as (t2 & Hrun & ->). apply bind_inv in Hrun.
  match type of Hrun with
  | match ?m e1 with _ => _ end =>
      destruct (m e1) as [[[[[err|] created]|msg|] e2] t2'] eqn:Hcreate
  end.
  3,4: destruct Hrun as (-> & _ & ->); left; split; [|done];
       apply Forall_app; split; [done|];
       by use_always (benign (docker.Name container)) Hcreate.
  - destruct Hrun as (t3 & [= <- <- <-] & ->). left. split; [|done].
    rewrite app_nil_r. apply Forall_app. split; [done|].
    by use_always (benign (docker.Name container)) Hcreate.
  - use_always (benign (docker.Name container)) Hcreate.
    destruct Hrun as (t3 & Hrun & ->). apply bind_inv in Hrun.
    right. destruct created.
    + unfold logf at 1 in Hrun. destruct Hrun as (t4 & Hrun & ->).
      exists true, e2, (t1 ++ t2'), t4. split; [by apply Forall_app|].
      split; [by rewrite <- !app_assoc|]. exact Hrun.
    + unfold ret at 1 in Hrun. destruct Hrun as (t4 & Hrun & ->).
      exists false, e2, (t1 ++ t2'), t4. split; [by apply Forall_app|].
      split; [by rewrite <- !app_assoc|]. exact Hrun.
Qed.

Lemma Forall_benign_pulls N t : Forall (benign N) t → pulls t = [].
Proof.
  intros Hq. apply pulls_notPull. eapply Forall_impl; [done|].
  apply benign_notPull.
Qed.

Lemma Forall_notCreated N t : Forall (notCreated N) t → createdLog N ∉ t.
Proof. intros Hall Hin. by eapply Forall_forall in Hall. Qed.

(** C4 (as the code has it): in the loop body for one desired container,
    an image pull, that is the freshness check, happens only when update
    checking is enabled and the create step of this body has not just
    created the container; and when the body reaches its end with update
    checking enabled and without having created the container, the
    freshness check has run, with exactly one pull of the desired image,
    whatever the comparator has decided and done before it. *)
Theorem C4_freshness_check_iff_not_created
    (runningContainers : list types.Container)
    (container : docker.ContainerConfig) (updateCheck : bool)
    (e e' : E) (o : outcome (option error)) (t : list event) :
  main.ensureOne runningContainers container updateCheck e = (o, e', t) →
  (pulls t ≠ [] →
   updateCheck = true ∧ createdLog (docker.Name container) ∉ t) ∧
  (o = Return None → updateCheck = true →
   createdLog (docker.Name container) ∉ t →
   pulls t = [docker.Image container]).
Proof.
  intros Hrun.
  destruct (ensureOne_inv _ _ _ _ _ _ _ Hrun)
    as [[Hq Ho]|(created & e1 & t1 & t2 & Ht1 & -> & Hrest)].
  { split; [|done]. intros Hp. by rewrite (Forall_benign_pulls _ _ Hq) in Hp. }
  destruct created; simpl in Hrest.
  - rewrite andb_false_r in Hrest.
    use_always notPull Hrest. split.
    + intros Hp. exfalso. apply Hp.
      rewrite !pulls_app, (Forall_benign_pulls _ _ Ht1), (pulls_notPull t2 Hrest).
      done.
    + intros _ _ Hnot. exfalso. apply Hnot. set_solver.
  - rewrite andb_true_r in Hrest. simpl. destruct updateCheck.
    + split.
      * intros _. split; [done|].
        use_always (notCreated (docker.Name container)) Hrest.
        apply Forall_notCreated, Forall_app. split; [|done].
        eapply Forall_impl; [done|]. apply benign_notCreated.
      * intros -> _ _. rewrite pulls_app, (Forall_benign_pulls _ _ Ht1). simpl.
        apply bind_skip in Hrest as (? & e2 & t3 & Hrest & ->);
          [|solve_always].
        apply bind_skip in Hrest as ([ctid [err|]] & e3 & t4 & Hrest & ->);
          [| |solve_always]; [done|].
        apply bind_inv in Hrest.
        destruct (main.updateStep ctid container e3)
          as [[[[err|ctid']|msg|] e4] t5] eqn:Hup.
        -- by destruct Hrest as (? & [=] & _).
        -- destruct Hrest as (t6 & Hrest & ->).
           rewrite pulls_app, (updateStep_pulls _ _ _ _ _ _ Hup).
           use_always notPull Hrest. by rewrite (pulls_notPull t6).
        -- by destruct Hrest as ([=] & _).
        -- by destruct Hrest as ([=] & _).
    + use_always notPull Hrest. split; [|done].
      intros Hp. exfalso. apply Hp.
      by rewrite pulls_app, (Forall_benign_pulls _ _ Ht1), (pulls_notPull t2).
Qed.

(** The trace of a pass is the traces of its loop bodies, one after the
    other. *)
Lemma ensureContainers_loop_bodies
    (runningContainers : list types.Container)
    (desierdContainers : list docker.ContainerConfig) (updateCheck : bool)
    (e : E) :
  trace_of (main.ensureContainers_loop runningContainers desierdContainers
              updateCheck e)
  = List.concat
      (map (λ b, trace_of b.2)
         (bodies runningContainers desierdContainers updateCheck e)).
Proof.
  revert e. induction desierdContainers as [|container rest IH]; intros e;
    [done|].
  simpl. unfold bind at 1.
  destruct (main.ensureOne runningContainers container updateCheck e)
    as [[[[err|]|msg|] e1] t1] eqn:Hbody; unfold outcome_of, trace_of; simpl;
    try by rewrite app_nil_r.
  specialize (IH e1). unfold trace_of, state_of in *. simpl.
  destruct (main.ensureContainers_loop runningContainers rest updateCheck e1)
    as [[o2 e2] t2]. simpl in *. by rewrite IH.
Qed.

End EnsureFacts.

Lemma elem_of_infos (msg : string) (t : list event) :
  Log Info msg ∈ t ↔ msg ∈ infos t.
Proof.
  unfold infos. rewrite list_elem_of_omap. split.
  - intros Hin. by exists (Log Info msg).
  - intros (ev & Hin & Hev). by destruct ev as [c|[] m]; simplify_eq.
Qed.

(** On an engine whose container [web] differs from the desired spec in
    its image reference, with update checking enabled: the loop body
    recreates the container for the mismatch, then runs the freshness
    check on the container it has just recreated, finds it stale and
    recreates it a second time. *)
Lemma C4_recreated_container_is_freshness_checked :
  let t := trace_of (main.ensureOne (samples.observed samples.drifted)
                       samples.web true samples.drifted) in
  infos t =
    ["Container web configuration does not match, recreating it..." +:+ nl;
     "Container web recreated with the correct configuration" +:+ nl;
     "Container web is not up to date, recreating ..." +:+ nl;
     "Container web ensured" +:+ nl] ∧
  pulls t = ["nginx:latest"] ∧
  stops t = ["c0"; "c1"] ∧
  removes t = ["c0"; "c1"].
Proof. vm_compute. repeat split; reflexivity. Qed.

Lemma C4_freshness_check_iff_not_created_witness :
  pulls (trace_of (main.ensureOne (samples.observed samples.drifted)
                     samples.web true samples.drifted))
  = ["nginx:latest"].
Proof.
  refine (proj2
    (C4_freshness_check_iff_not_created (samples.observed samples.drifted)
       samples.web true samples.drifted
       (state_of (main.ensureOne (samples.observed samples.drifted)
                    samples.web true samples.drifted))
       (outcome_of (main.ensureOne (samples.observed samples.drifted)
                      samples.web true samples.drifted))
       _ _) _ _ _).
  - vm_compute. reflexivity.
  - vm_compute. reflexivity.
  - reflexivity.
  - intros Hin. apply elem_of_infos in Hin. vm_compute in Hin.
    repeat (apply elem_of_cons in Hin as [Hin|Hin]; [discriminate Hin|]).
    by apply elem_of_nil in Hin.
Defined.

(** ** main: the handlers of /reload and /update *)

Section HandlerFacts.
Context {E : Type} `{!client.Client E} `{!os.FS E}.
Context `{!nat.Lib} `{!config.YamlLib}.

(** C6: a failing /reload or /update does not answer the request.  When
    reading the configuration fails, [reloadConfig] ends the process
    through [log.Fatalf] and returns no response; [reconcileContainers]
    does the same when the conversion of the configuration fails, when
    the pruner returns an error, and when [ensureContainers] returns an
    error. *)
Theorem C6_failing_reload_and_update_exit_the_process (p : main.process E) :
  (∀ err,
     config.Read (main.world p) = Err err →
     main.reloadConfig p
     = (Exit ("Error reloading config: error reading config: " +:+ err),
        p, [])) ∧
  (∀ err specs containers',
     config.ConfigToDockerConfig (main.cfg p) (main.config_containers p)
       = ((specs, Some err), containers') →
     main.reconcileContainers p
     = (Exit ("Error converting config to Docker config: " +:+ err),
        main.mkProcess (main.world p) (main.cfg p) containers', [])) ∧
  (∀ err specs containers' e1 t,
     config.ConfigToDockerConfig (main.cfg p) (main.config_containers p)
       = ((specs, None), containers') →
     config.RemoveUnwantedContainers (config.appConfig (main.cfg p)) = true →
     main.removeUnwantedContainers specs (main.world p)
       = (Return (Some err), e1, t) →
     main.reconcileContainers p
     = (Exit ("Error when removing unwanted containers: " +:+ err),
        main.mkProcess e1 (main.cfg p) containers', t)) ∧
  (∀ err specs containers' e1 t,
     config.ConfigToDockerConfig (main.cfg p) (main.config_containers p)
       = ((specs, None), containers') →
     config.RemoveUnwantedContainers (config.appConfig (main.cfg p)) = false →
     main.ensureContainers specs
       (config.UpdateCheck (config.appConfig (main.cfg p))) (main.world p)
       = (Return (Some err), e1, t) →
     main.reconcileContainers p
     = (Exit ("Error ensuring containers: " +:+ err),
        main.mkProcess e1 (main.cfg p) containers', t)).
Proof.
  destruct p as [w c g]. simpl. repeat split.
  - intros err Hread.
    unfold main.reloadConfig, main.updateConfig, bind, fatalf. simpl.
    by rewrite Hread.
  - intros err specs g' Hconv.
    unfold main.reconcileContainers, main.convertConfig, bind, fatalf. simpl.
    by rewrite Hconv.
  - intros err specs g' e1 t Hconv Hflag Hprune.
    unfold main.reconcileContainers.
    rewrite (bind_run _ _ _ (specs, None) (main.mkProcess w c g') [])
      by (unfold main.convertConfig; simpl; by rewrite Hconv).
    rewrite (bind_run _ _ _ c (main.mkProcess w c g') []) by done.
    rewrite Hflag.
    erewrite (bind_exit _ _ _ _ (main.mkProcess e1 c g') t); [done|].
    erewrite bind_run
      by (unfold main.on_world; simpl; by rewrite Hprune).
    unfold fatalf. by rewrite app_nil_r.
  - intros err specs g' e1 t Hconv Hflag Hensure.
    unfold main.reconcileContainers.
    rewrite (bind_run _ _ _ (specs, None) (main.mkProcess w c g') [])
      by (unfold main.convertConfig; simpl; by rewrite Hconv).
    rewrite (bind_run _ _ _ c (main.mkProcess w c g') []) by done.
    rewrite Hflag.
    rewrite (bind_run _ _ _ tt (main.mkProcess w c g') []) by done.
    rewrite (bind_run _ _ _ c (main.mkProcess w c g') []) by done.
    erewrite bind_run
      by (unfold main.on_world; simpl; by rewrite Hensure).
    unfold fatalf. by rewrite app_nil_r.
Qed.

End HandlerFacts.

(** The handler of /metrics, next to them, answers a failing listing with
    a server error. *)
Lemma GenerateMetrics_answers_failed_listing {E : Type} `{!client.Client E}
    (dm : metrics.DockerMetrics) (e e' : E) (err : error) :
  client.ContainerList e = (Err err, e') →
  main.pc (main.GenerateMetrics dm e)
  = main.Responded
      (main.HttpError "Could not list containers"
         main.StatusInternalServerError).
Proof.
  intros Hlist.
  unfold main.GenerateMetrics, docker.ListAllContariners, bind, containerList,
    lift_call.
  by rewrite Hlist.
Qed.

Lemma C6_failing_reload_and_update_exit_the_process_witness :
  main.reloadConfig samples.bare
  = (Exit ("Error reloading config: error reading config: "
           +:+ "open config.yaml: no such file or directory"),
     samples.bare, []).
Proof.
  apply (proj1 (C6_failing_reload_and_update_exit_the_process
                  samples.bare)).
  reflexivity.
Defined.

(** /update on a configuration whose port is not a number, and on a
    configuration whose image the engine does not have: the process
    exits, nothing is written to the response. *)
Example update_exits_on_bad_port :
  outcome_of (main.reconcileContainers samples.misconfigured)
  = Exit ("Error converting config to Docker config: "
          +:+ "strconv.ParseUint: parsing " +:+ sim.quote +:+ "http"
          +:+ sim.quote +:+ ": invalid syntax").
Proof. reflexivity. Qed.

Example update_exits_on_missing_image :
  outcome_of (main.reconcileContainers samples.bare)
  = Exit "Error ensuring containers: No such image: nginx:latest".
Proof. vm_compute. reflexivity. Qed.

(** ** main: the stats handler *)

Lemma all_ends_S (n : nat) (P : main.gm_state → Prop)
    `{!∀ s, Decision (P s)} (s : main.gm_state) :
  all_ends (S n) P s =
    match main.successors s with
    | [] => bool_decide (P s)
    | x :: next => forallb (all_ends n P) (x :: next)
    end.
Proof. simpl. by destruct (main.successors s). Qed.

Lemma all_ends_sound (n : nat) (P : main.gm_state → Prop)
    `{!∀ s, Decision (P s)} (s : main.gm_state) :
  all_ends n P s = true →
  ∀ s', rtc main.gm_step s s' → main.successors s' = [] → P s'.
Proof.
  revert s. induction n as [|n IH]; intros s; [done|].
  rewrite all_ends_S.
  destruct (main.successors s) as [|x next] eqn:Hsucc.
  - intros HP s' Hrtc _. apply bool_decide_eq_true in HP.
    destruct Hrtc as [|s x s' Hstep _]; [done|].
    unfold main.gm_step in Hstep. rewrite Hsucc in Hstep.
    by apply elem_of_nil in Hstep.
  - intros Hall s' Hrtc Hend.
    destruct Hrtc as [|s y s' Hstep Hrtc]; [congruence|].
    unfold main.gm_step in Hstep. rewrite Hsucc in Hstep.
    rewrite forallb_forall in Hall. apply (IH y); [|done..].
    apply Hall. by apply list_elem_of_In.
Qed.

Lemma pendingE_app (l k : list (list main.action)) :
  pendingE (l ++ k) = pendingE l ++ pendingE k.
Proof. unfold pendingE. by rewrite map_app, concat_app. Qed.

Lemma pendingS_app (l k : list (list main.action)) :
  pendingS (l ++ k) = pendingS l ++ pendingS k.
Proof. unfold pendingS. by rewrite map_app, concat_app. Qed.

(** What a goroutine that takes its next step leaves to send. *)
Lemma pending_insert (tasks : list (list main.action)) (i : nat)
    (a : main.action) (rest : list main.action) :
  tasks !! i = Some (a :: rest) →
  ∃ e1 e2 s1 s2,
    pendingE tasks = e1 ++ errsOf [a] ++ e2 ∧
    pendingE (<[ i := rest ]> tasks) = e1 ++ e2 ∧
    pendingS tasks = s1 ++ statsOf [a] ++ s2 ∧
    pendingS (<[ i := rest ]> tasks) = s1 ++ s2.
Proof.
  intros Hi.
  pose proof (take_drop_middle tasks i (a :: rest) Hi) as Hmid.
  pose proof (insert_take_drop tasks i rest (lookup_lt_Some _ _ _ Hi)) as Hins.
  revert Hmid Hins.
  generalize (take i tasks) (drop (S i) tasks). intros l1 l2 <- ->.
  exists (pendingE l1), (errsOf rest ++ pendingE l2),
    (pendingS l1), (statsOf rest ++ pendingS l2).
  rewrite !pendingE_app, !pendingS_app.
  unfold pendingE, pendingS. by destruct a.
Qed.

Lemma pendingErrs_insert (tasks : list (list main.action)) (i : nat)
    (a : main.action) (rest : list main.action) :
  tasks !! i = Some (a :: rest) →
  pendingErrs tasks
  = length (errsOf [a]) + pendingErrs (<[ i := rest ]> tasks).
Proof.
  intros Hi. unfold pendingErrs.
  destruct (pending_insert _ _ _ _ Hi) as (e1 & e2 & _ & _ & -> & -> & _).
  rewrite !length_app. lia.
Qed.

Lemma pending_done (tasks : list (list main.action)) :
  forallb (λ t, bool_decide (t = [])) tasks = true →
  pendingE tasks = [] ∧ pendingS tasks = [].
Proof.
  induction tasks as [|t tasks IH]; simpl; [done|].
  intros [Ht Hrest]%andb_prop. apply bool_decide_eq_true in Ht as ->.
  by destruct (IH Hrest).
Qed.

Lemma pendingErrs_done (tasks : list (list main.action)) :
  forallb (λ t, bool_decide (t = [])) tasks = true → pendingErrs tasks = 0.
Proof.
  intros Hdone. unfold pendingErrs. by destruct (pending_done _ Hdone) as [-> _].
Qed.

(** Once the goroutines have more errors to send than [errChan] holds, no
    step changes that: a goroutine that cannot send never returns, so the
    closer never closes [statsChan] and the handler never leaves its first
    loop. *)
Lemma overfull_step (s s' : main.gm_state) :
  overfull s → main.gm_step s s' → overfull s'.
Proof.
  intros (Hpc & Hopen & Herr & Hcap & Hmore) Hstep.
  unfold main.gm_step, main.successors in Hstep.
  apply elem_of_app in Hstep as [Htask|Hstep].
  - apply list_elem_of_In, in_flat_map in Htask as (i & _ & Htask).
    apply list_elem_of_In in Htask. unfold main.task_step in Htask.
    destruct (main.tasks s !! i) as [[|[err|statsJSON] rest]|] eqn:Hi;
      try by apply elem_of_nil in Htask.
    + case_bool_decide as Hroom; [|by apply elem_of_nil in Htask].
      apply list_elem_of_singleton in Htask as ->.
      pose proof (pendingErrs_insert _ _ _ _ Hi) as Hp.
      unfold overfull. simpl in *. rewrite length_app. simpl.
      repeat split; [done|done|done|lia|lia].
    + case_bool_decide as Hroom; [|by apply elem_of_nil in Htask].
      apply list_elem_of_singleton in Htask as ->.
      pose proof (pendingErrs_insert _ _ _ _ Hi) as Hp.
      unfold overfull. simpl in *. repeat split; [done|done|done|lia|lia].
  - apply elem_of_app in Hstep as [Hclose|Hhandle].
    + unfold main.closer_step in Hclose.
      destruct (forallb _ (main.tasks s)) eqn:Hdone;
        [|by apply elem_of_nil in Hclose].
      rewrite (pendingErrs_done _ Hdone) in Hmore. lia.
    + unfold main.handler_step in Hhandle. rewrite Hpc, Hopen in Hhandle.
      destruct (main.statsChan s) as [|statsJSON rest];
        [by apply elem_of_nil in Hhandle|].
      apply list_elem_of_singleton in Hhandle as ->. by unfold overfull.
Qed.

(** C9: whenever the goroutines of a scrape have more errors to send than
    there are containers, the scrape is never answered: in every
    reachable state the handler is still in its loop over [statsChan] and
    both channels are still open, so no batched error is ever reported.
    A goroutine whose body read fails and whose decoding fails as well
    sends two errors, for it returns after neither. *)
Theorem C9_more_errors_than_containers_blocks_the_handler
    {E : Type} `{!client.Client E} (dm : metrics.DockerMetrics) (e : E)
    (s : main.gm_state) :
  main.capacity (main.GenerateMetrics dm e)
    < pendingErrs (main.tasks (main.GenerateMetrics dm e)) →
  rtc main.gm_step (main.GenerateMetrics dm e) s →
  main.pc s = main.RangeStats ∧ main.statsClosed s = false ∧
  main.errClosed s = false.
Proof.
  intros Hmore Hrtc.
  assert (overfull (main.GenerateMetrics dm e)) as Hinit.
  { unfold main.GenerateMetrics in *.
    destruct (docker.ListAllContariners e)
      as [[[[containers [err|]]|msg|] e'] t]; simpl in *;
      try (exfalso; unfold pendingErrs, pendingE in Hmore; simpl in Hmore; lia).
    unfold overfull. simpl. repeat split; [lia|done]. }
  assert (overfull s) as (Hpc & Hopen & Herr & _).
  { revert s Hrtc. apply rtc_ind_r; [done|].
    intros s s' _ Hstep Hs. by eapply overfull_step. }
  done.
Qed.

Lemma C9_more_errors_than_containers_blocks_the_handler_witness :
  main.pc samples.blocked = main.RangeStats ∧
  main.statsClosed samples.blocked = false ∧
  main.errClosed samples.blocked = false.
Proof.
  apply (C9_more_errors_than_containers_blocks_the_handler
           metrics.NewDockerMetrics samples.truncated samples.blocked).
  - vm_compute. constructor.
  - apply rtc_once. unfold main.gm_step.
    replace (main.successors
               (main.GenerateMetrics metrics.NewDockerMetrics samples.truncated))
      with [samples.blocked] by (vm_compute; reflexivity).
    apply list_elem_of_here.
Defined.

(** One container whose stats body breaks off while it is read.  The
    goroutine sends the read error, which fills [errChan], and then waits
    for ever to send the unmarshal error: the only state that follows the
    start has no step left, with the handler in its loop over
    [statsChan]. *)
Example truncated_scrape_blocks :
  let init := main.GenerateMetrics metrics.NewDockerMetrics samples.truncated in
  main.successors init = [samples.blocked] ∧
  main.successors samples.blocked = [] ∧
  ∀ s, rtc main.gm_step init s → s = init ∨ s = samples.blocked.
Proof.
  intros init.
  assert (main.successors init = [samples.blocked]) as Hinit
    by (vm_compute; reflexivity).
  assert (main.successors samples.blocked = []) as Hblocked
    by (vm_compute; reflexivity).
  split; [done|]. split; [done|].
  apply rtc_ind_r; [by left|].
  intros s s' _ Hstep [Hs|Hs]; unfold main.gm_step in Hstep;
    rewrite Hs in Hstep.
  - rewrite Hinit in Hstep. apply list_elem_of_singleton in Hstep as ->.
    by right.
  - rewrite Hblocked in Hstep. by apply elem_of_nil in Hstep.
Qed.

(** *** When the errors fit into [errChan] *)

Lemma task_step_successor (s s' : main.gm_state) (i : nat) :
  i < length (main.tasks s) → s' ∈ main.task_step s i → s' ∈ main.successors s.
Proof.
  intros Hi Hin. unfold main.successors. apply elem_of_app. left.
  apply list_elem_of_In, in_flat_map. exists i. split.
  - apply in_seq. lia.
  - by apply list_elem_of_In.
Qed.

Lemma closer_step_successor (s s' : main.gm_state) :
  s' ∈ main.closer_step s → s' ∈ main.successors s.
Proof.
  intros Hin. unfold main.successors.
  apply elem_of_app. right. apply elem_of_app. by left.
Qed.

Lemma handler_step_successor (s s' : main.gm_state) :
  s' ∈ main.handler_step s → s' ∈ main.successors s.
Proof.
  intros Hin. unfold main.successors.
  apply elem_of_app. right. apply elem_of_app. by right.
Qed.

Lemma not_done (tasks : list (list main.action)) :
  forallb (λ t, bool_decide (t = [])) tasks = false →
  ∃ i a rest, tasks !! i = Some (a :: rest).
Proof.
  induction tasks as [|t tasks IH]; simpl; [done|].
  destruct t as [|a rest]; simpl.
  - intros Hrest. destruct (IH Hrest) as (i & a & rest & Hi).
    by exists (S i), a, rest.
  - intros _. by exists 0, a, rest.
Qed.

Lemma scrape_inv_step (errs : list error) (stats : list types.StatsJSON)
    (dm0 : metrics.DockerMetrics) (s s' : main.gm_state) :
  scrape_inv errs stats dm0 s → main.gm_step s s' → scrape_inv errs stats dm0 s'.
Proof.
  intros (Hlen & Hclosed & Herrclosed & (received & Hdm & Hstats) & Hpc) Hstep.
  unfold main.gm_step, main.successors in Hstep.
  apply elem_of_app in Hstep as [Htask|Hstep].
  - apply list_elem_of_In, in_flat_map in Htask as (i & _ & Htask).
    apply list_elem_of_In in Htask. unfold main.task_step in Htask.
    destruct (main.tasks s !! i) as [[|a rest]|] eqn:Hi;
      try by apply elem_of_nil in Htask.
    destruct (pending_insert _ _ _ _ Hi)
      as (e1 & e2 & s1 & s2 & HE & HE' & HS & HS').
    assert (main.statsClosed s = false) as Hopen.
    { destruct (main.statsClosed s); [|done].
      destruct (Hclosed eq_refl) as [HEnil HSnil].
      rewrite HE in HEnil. rewrite HS in HSnil.
      destruct a; simpl in *.
      - by destruct e1.
      - by destruct s1. }
    assert (main.pc s = main.RangeStats) as Hrange.
    { destruct (main.pc s) as [|msgs|r]; [done|..];
        destruct Hpc as (Hc & _); congruence. }
    rewrite Hrange in Hpc.
    destruct a as [err|statsJSON]; simpl in *.
    + case_bool_decide as Hroom; [|by apply elem_of_nil in Htask].
      apply list_elem_of_singleton in Htask as ->.
      unfold scrape_inv. simpl. rewrite length_insert, Hrange, HE', HS'.
      split; [done|]. split; [by rewrite Hopen|]. split; [done|].
      split.
      * exists received. split; [done|]. by rewrite <- HS.
      * rewrite <- Hpc, HE, <- !app_assoc. f_equiv. simpl.
        by rewrite Permutation_middle.
    + case_bool_decide as Hroom; [|by apply elem_of_nil in Htask].
      apply list_elem_of_singleton in Htask as ->.
      unfold scrape_inv. simpl. rewrite length_insert, Hrange, HE', HS'.
      split; [done|]. split; [by rewrite Hopen|]. split; [done|].
      split.
      * exists received. split; [done|].
        rewrite <- Hstats, HS, <- !app_assoc. do 2 f_equiv. simpl.
        by rewrite Permutation_middle.
      * by rewrite <- HE.
  - apply elem_of_app in Hstep as [Hclose|Hhandle].
    + unfold main.closer_step in Hclose.
      destruct (forallb _ (main.tasks s)) eqn:Hdone;
        [|by apply elem_of_nil in Hclose].
      destruct (main.statsClosed s) eqn:Hopen; simpl in Hclose.
      * destruct (main.errClosed s) eqn:Herr; simpl in Hclose;
          [by apply elem_of_nil in Hclose|].
        apply list_elem_of_singleton in Hclose as ->.
        unfold scrape_inv. simpl.
        split; [done|]. split; [done|]. split; [done|].
        split; [by exists received|]. done.
      * apply list_elem_of_singleton in Hclose as ->.
        unfold scrape_inv. simpl.
        split; [done|]. split; [intros _; by apply pending_done|].
        split; [done|]. split; [by exists received|].
        destruct (main.pc s) as [|msgs|r]; [done|..];
          destruct Hpc as (Hc & _); congruence.
    + unfold main.handler_step in Hhandle.
      destruct (main.pc s) as [|msgs|r] eqn:Hrange.
      * destruct (main.statsChan s) as [|statsJSON rest] eqn:Hchan.
        -- destruct (main.statsClosed s) eqn:Hopen;
             [|by apply elem_of_nil in Hhandle].
           destruct (Hclosed eq_refl) as [HEnil HSnil].
           rewrite HEnil, app_nil_r in Hpc.
           case_bool_decide as Hsome;
             apply list_elem_of_singleton in Hhandle as ->;
             unfold scrape_inv; simpl.
           ++ split; [done|]. split; [done|]. split; [done|].
              split; [by exists received|].
              split; [done|]. split; [done|]. split; [|done].
              intros ->. apply Permutation_nil_r in Hpc.
              rewrite Hpc in Hsome. simpl in Hsome. lia.
           ++ split; [done|]. split; [done|]. split; [done|].
              split; [by exists received|].
              split; [done|]. split; [done|]. left. split; [|done].
              destruct (main.errChan s); [|simpl in Hsome; lia].
              by apply Permutation_nil_l in Hpc.
        -- apply list_elem_of_singleton in Hhandle as ->.
           unfold scrape_inv. simpl.
           split; [done|]. split; [done|]. split; [done|].
           split; [|done].
           exists (received ++ [statsJSON]). split.
           ++ by rewrite fold_left_app, Hdm.
           ++ by rewrite <- Hstats, <- !app_assoc.
      * destruct Hpc as (Hc & Hchan & Hne & Hmsgs).
        destruct (main.errChan s) as [|err rest] eqn:Herrs.
        -- destruct (main.errClosed s) eqn:Herr;
             [|by apply elem_of_nil in Hhandle].
           apply list_elem_of_singleton in Hhandle as ->.
           unfold scrape_inv. simpl. rewrite Hc, Hchan.
           split; [done|]. split; [intros _; by apply Hclosed|].
           split; [done|].
           split; [exists received; by rewrite Hchan in Hstats|].
           split; [done|]. split; [done|]. right. split; [done|].
           exists msgs. split; [|done]. by rewrite app_nil_r in Hmsgs.
        -- apply list_elem_of_singleton in Hhandle as ->.
           unfold scrape_inv. simpl. rewrite Hc, Hchan.
           split; [done|]. split; [intros _; by apply Hclosed|].
           split; [done|].
           split; [exists received; by rewrite Hchan in Hstats|].
           split; [done|]. split; [done|]. split; [done|].
           by rewrite <- app_assoc.
      * by apply elem_of_nil in Hhandle.
Qed.

Lemma step_capacity (s s' : main.gm_state) :
  main.gm_step s s' → main.capacity s' = main.capacity s.
Proof.
  intros Hstep. unfold main.gm_step, main.successors in Hstep.
  apply elem_of_app in Hstep as [Htask|Hstep].
  - apply list_elem_of_In, in_flat_map in Htask as (i & _ & Htask).
    apply list_elem_of_In in Htask. unfold main.task_step in Htask.
    destruct (main.tasks s !! i) as [[|[err|statsJSON] rest]|];
      try (by apply elem_of_nil in Htask);
      (case_bool_decide; [|by apply elem_of_nil in Htask]);
      by apply list_elem_of_singleton in Htask as ->.
  - apply elem_of_app in Hstep as [Hclose|Hhandle].
    + unfold main.closer_step in Hclose.
      repeat (match type of Hclose with
              | context [if ?b then _ else _] => destruct b
              end; try (by apply elem_of_nil in Hclose));
        by apply list_elem_of_singleton in Hclose as ->.
    + unfold main.handler_step in Hhandle.
      repeat (match type of Hhandle with
              | context [if ?b then _ else _] => destruct b
              | context [match ?x with _ => _ end] => destruct x
              end; try (by apply elem_of_nil in Hhandle));
        by apply list_elem_of_singleton in Hhandle as ->.
Qed.

(** When the errors fit into [errChan], some goroutine can take a step as
    long as the handler has not responded. *)
Lemma scrape_inv_progress (errs : list error) (stats : list types.StatsJSON)
    (dm0 : metrics.DockerMetrics) (s : main.gm_state) :
  scrape_inv errs stats dm0 s →
  (length errs ≤ main.capacity s)%nat →
  main.successors s = [] →
  ∃ r, main.pc s = main.Responded r.
Proof.
  intros (Hlen & Hclosed & Herrclosed & _ & Hpc) Hfit Hend.
  assert (main.closer_step s = []) as Hcloser.
  { destruct (main.closer_step s) as [|s' l] eqn:Hc; [done|]. exfalso.
    assert (s' ∈ main.successors s) as Hin
      by (apply closer_step_successor; rewrite Hc; left).
    rewrite Hend in Hin. by apply elem_of_nil in Hin. }
  assert (main.handler_step s = []) as Hhandler.
  { destruct (main.handler_step s) as [|s' l] eqn:Hh; [done|]. exfalso.
    assert (s' ∈ main.successors s) as Hin
      by (apply handler_step_successor; rewrite Hh; left).
    rewrite Hend in Hin. by apply elem_of_nil in Hin. }
  assert (∀ i, i < length (main.tasks s) → main.task_step s i = []) as Htasks.
  { intros i Hi. destruct (main.task_step s i) as [|s' l] eqn:Ht; [done|].
    exfalso.
    assert (s' ∈ main.successors s) as Hin
      by (apply (task_step_successor _ _ i Hi); rewrite Ht; left).
    rewrite Hend in Hin. by apply elem_of_nil in Hin. }
  unfold main.closer_step in Hcloser. unfold main.handler_step in Hhandler.
  destruct (forallb (λ t, bool_decide (t = [])) (main.tasks s)) eqn:Hdone.
  - destruct (main.statsClosed s) eqn:Hopen; [|done].
    destruct (main.errClosed s) eqn:Herr; [|done].
    destruct (main.pc s) as [|msgs|r] eqn:Hrange; [| |by exists r].
    + destruct (main.statsChan s); [|done]. by case_bool_decide.
    + by destruct (main.errChan s).
  - exfalso. destruct (not_done _ Hdone) as (i & a & rest & Hi).
    destruct (pending_insert _ _ _ _ Hi)
      as (e1 & e2 & s1 & s2 & HE & _ & HS & _).
    assert (i < length (main.tasks s)) as Hlt by (by eapply lookup_lt_Some).
    specialize (Htasks i Hlt). unfold main.task_step in Htasks.
    rewrite Hi in Htasks.
    assert (main.statsClosed s = false) as Hopen.
    { destruct (main.statsClosed s); [|done].
      destruct (Hclosed eq_refl) as [HEnil HSnil].
      rewrite HE in HEnil. rewrite HS in HSnil.
      destruct a; simpl in *.
      - by destruct e1.
      - by destruct s1. }
    assert (main.pc s = main.RangeStats) as Hrange.
    { destruct (main.pc s) as [|msgs|r]; [done|..];
        destruct Hpc as (Hc & _); congruence. }
    rewrite Hrange in Hpc, Hhandler.
    destruct a as [err|statsJSON].
    + rewrite bool_decide_eq_true_2 in Htasks; [done|].
      apply Permutation_length in Hpc.
      rewrite HE, !length_app in Hpc. simpl in Hpc. lia.
    + case_bool_decide as Hroom; [done|].
      destruct (main.statsChan s); [simpl in Hroom; lia|done].
Qed.

Lemma actions_insert (tasks : list (list main.action)) (i : nat)
    (a : main.action) (rest : list main.action) :
  tasks !! i = Some (a :: rest) →
  sum_list_with length tasks = S (sum_list_with length (<[ i := rest ]> tasks)).
Proof.
  intros Hi.
  pose proof (take_drop_middle tasks i (a :: rest) Hi) as Hmid.
  pose proof (insert_take_drop tasks i rest (lookup_lt_Some _ _ _ Hi)) as Hins.
  revert Hmid Hins.
  generalize (take i tasks) (drop (S i) tasks). intros l1 l2 <- ->.
  rewrite !sum_list_with_app. simpl. lia.
Qed.

(** Every step lowers the bound, so no run of a scrape goes on for ever. *)
Lemma step_fuel (s s' : main.gm_state) :
  main.gm_step s s' → fuel s' < fuel s.
Proof.
  intros Hstep. unfold main.gm_step, main.successors in Hstep.
  apply elem_of_app in Hstep as [Htask|Hstep].
  - apply list_elem_of_In, in_flat_map in Htask as (i & _ & Htask).
    apply list_elem_of_In in Htask. unfold main.task_step in Htask.
    destruct (main.tasks s !! i) as [[|[err|statsJSON] rest]|] eqn:Hi;
      try (by apply elem_of_nil in Htask);
      (case_bool_decide; [|by apply elem_of_nil in Htask]);
      apply list_elem_of_singleton in Htask as ->;
      pose proof (actions_insert _ _ _ _ Hi) as Hact;
      unfold fuel; simpl; rewrite ?length_app; simpl; lia.
  - apply elem_of_app in Hstep as [Hclose|Hhandle].
    + unfold main.closer_step in Hclose.
      destruct (forallb _ (main.tasks s)); [|by apply elem_of_nil in Hclose].
      destruct (main.statsClosed s) eqn:Hopen; simpl in Hclose.
      * destruct (main.errClosed s) eqn:Herr; simpl in Hclose;
          [by apply elem_of_nil in Hclose|].
        apply list_elem_of_singleton in Hclose as ->.
        unfold fuel. simpl. rewrite Hopen, Herr. lia.
      * apply list_elem_of_singleton in Hclose as ->.
        unfold fuel. simpl. rewrite Hopen. lia.
    + unfold main.handler_step in Hhandle.
      destruct (main.pc s) as [|msgs|r] eqn:Hrange.
      * destruct (main.statsChan s) as [|statsJSON rest] eqn:Hchan.
        -- destruct (main.statsClosed s) eqn:Hopen;
             [|by apply elem_of_nil in Hhandle].
           case_bool_decide;
             apply list_elem_of_singleton in Hhandle as ->;
             unfold fuel; simpl; rewrite Hrange, Hchan, Hopen; simpl; lia.
        -- apply list_elem_of_singleton in Hhandle as ->.
           unfold fuel. simpl. rewrite Hrange, Hchan. simpl. lia.
      * destruct (main.errChan s) as [|err rest] eqn:Herrs.
        -- destruct (main.errClosed s) eqn:Herr;
             [|by apply elem_of_nil in Hhandle].
           apply list_elem_of_singleton in Hhandle as ->.
           unfold fuel. simpl. rewrite Hrange, Herrs, Herr. simpl. lia.
        -- apply list_elem_of_singleton in Hhandle as ->.
           unfold fuel. simpl. rewrite Hrange, Herrs. simpl. lia.
      * by apply elem_of_nil in Hhandle.
Qed.

Lemma runs_are_finite (k : nat) (s s' : main.gm_state) :
  nsteps main.gm_step k s s' → (k + fuel s' ≤ fuel s)%nat.
Proof.
  induction 1 as [|k s x s' Hstep _ IH]; [done|].
  apply step_fuel in Hstep. lia.
Qed.

Lemma UpdateMetrics_records (dm : metrics.DockerMetrics)
    (stats : types.StatsJSON) :
  recorded (metrics.UpdateMetrics dm stats)
    (types.stats_ID stats, types.stats_Name stats).
Proof.
  unfold recorded, metrics.UpdateMetrics. simpl.
  repeat split; rewrite lookup_insert_eq; by eexists.
Qed.

Lemma UpdateMetrics_keeps (dm : metrics.DockerMetrics)
    (stats : types.StatsJSON) (labels : string * string) :
  recorded dm labels → recorded (metrics.UpdateMetrics dm stats) labels.
Proof.
  unfold recorded, metrics.UpdateMetrics. simpl.
  intros (?&?&?&?&?&?&?&?&?&?&?).
  repeat split; by apply lookup_insert_is_Some'; right.
Qed.

(** The gauges set from a list of samples have a value for each of
    them. *)
Lemma received_recorded (received : list types.StatsJSON)
    (dm : metrics.DockerMetrics) (stats : types.StatsJSON) :
  stats ∈ received →
  recorded (fold_left metrics.UpdateMetrics received dm)
    (types.stats_ID stats, types.stats_Name stats).
Proof.
  induction received as [|x received IH] using rev_ind; [by intros ?%elem_of_nil|].
  rewrite fold_left_app. simpl. intros [Hin|Hin]%elem_of_app.
  - by apply UpdateMetrics_keeps, IH.
  - apply list_elem_of_singleton in Hin as ->. apply UpdateMetrics_records.
Qed.

(** A scrape in which the goroutines have no more errors to send than
    there are containers: every run that ends has ended with a response,
    after the gauges have been set from every sample sent; the response
    is the metrics page when no goroutine had an error, and otherwise the
    one server error that carries every error, in the order of their
    arrival. *)
Lemma scrape_reports_when_errors_fit
    {E : Type} `{!client.Client E} (dm : metrics.DockerMetrics) (e e' : E)
    (containers : list types.Container) (s : main.gm_state) :
  client.ContainerList e = (Ok containers, e') →
  (pendingErrs (main.tasks (main.GenerateMetrics dm e))
   ≤ main.capacity (main.GenerateMetrics dm e))%nat →
  rtc main.gm_step (main.GenerateMetrics dm e) s →
  main.successors s = [] →
  ∃ r received,
    main.pc s = main.Responded r ∧
    received ≡ₚ pendingS (main.tasks (main.GenerateMetrics dm e)) ∧
    main.dm s = fold_left metrics.UpdateMetrics received dm ∧
    ((pendingE (main.tasks (main.GenerateMetrics dm e)) = [] ∧
      r = main.ServeMetrics (main.dm s)) ∨
     (pendingE (main.tasks (main.GenerateMetrics dm e)) ≠ [] ∧
      ∃ errorMsgs,
        errorMsgs ≡ₚ pendingE (main.tasks (main.GenerateMetrics dm e)) ∧
        r = main.HttpError
              ("Errors occurred: " +:+ main.Sprint_v errorMsgs)
              main.StatusInternalServerError)).
Proof.
  intros Hlist Hfit Hrtc Hend.
  set (init := main.GenerateMetrics dm e) in *.
  assert (scrape_inv (pendingE (main.tasks init)) (pendingS (main.tasks init))
            dm init ∧ main.capacity init = length containers) as [Hinit Hcap].
  { subst init. unfold main.GenerateMetrics, docker.ListAllContariners, bind,
      containerList, lift_call. rewrite Hlist. simpl.
    split; [|done]. unfold scrape_inv. simpl.
    split; [by rewrite length_map|]. split; [done|]. split; [done|].
    split; [by exists []|]. done. }
  assert (scrape_inv (pendingE (main.tasks init)) (pendingS (main.tasks init))
            dm s ∧ main.capacity s = main.capacity init) as [Hinv Hsame].
  { clear Hend. revert s Hrtc. apply rtc_ind_r; [done|].
    intros s s' _ Hstep [Hs Hc]. split.
    - by eapply scrape_inv_step.
    - by rewrite (step_capacity _ _ Hstep). }
  destruct (scrape_inv_progress _ _ _ _ Hinv) as [r Hr]; [|done|].
  { rewrite Hsame. exact Hfit. }
  destruct Hinv as (_ & Hclosed & _ & (received & Hdm & Hstats) & Hpc).
  rewrite Hr in Hpc. destruct Hpc as (Hc & Hchan & Hresp).
  destruct (Hclosed Hc) as [_ HSnil].
  rewrite Hchan, HSnil, !app_nil_r in Hstats.
  by exists r, received.
Qed.

(** Two containers, the stats query of the first failing: every run of the
    handler ends with the response that carries the one batched error,
    after the gauges of the second container have been set. *)
Example half_failing_scrape_reports_and_records (s : main.gm_state) :
  rtc main.gm_step
    (main.GenerateMetrics metrics.NewDockerMetrics samples.half_failing) s →
  main.successors s = [] →
  samples.reported_and_recorded s.
Proof.
  revert s. apply (all_ends_sound 20 samples.reported_and_recorded).
  vm_compute. reflexivity.
Qed.


(** C2: [ConfigToDockerConfig] appends to the package variable
    [containers] and never resets it.  Run twice on the configuration of
    the README, the first call returns one spec and the second call
    returns that spec twice: the spec built by the first call is carried
    over into the list of the second.  So of two /update requests in a
    row, the first creates and starts [nginx_1], and the second runs the
    loop body for [nginx_1] twice. *)
Theorem C2_second_call_carries_first_specs_over :
  (∃ spec,
     config.ConfigToDockerConfig inputs.readme [] = (([spec], None), [spec]) ∧
     config.ConfigToDockerConfig inputs.readme [spec]
       = (([spec; spec], None), [spec; spec])) ∧
  let first := main.reconcileContainers samples.ready in
  let second := main.reconcileContainers (state_of first) in
  outcome_of first = Return (main.Fprint ("Containers reconciled" +:+ nl)) ∧
  infos (trace_of first)
    = ["Container nginx_1 created"; "Container nginx_1 ensured" +:+ nl] ∧
  outcome_of second = Return (main.Fprint ("Containers reconciled" +:+ nl)) ∧
  infos (trace_of second)
    = ["Container nginx_1 ensured" +:+ nl; "Container nginx_1 ensured" +:+ nl] ∧
  pulls (trace_of second) = ["nginx:latest"; "nginx:latest"] ∧
  length (main.config_containers (state_of second)) = 2.
Proof.
  split.
  - eexists. split.
    + vm_compute. reflexivity.
    + vm_compute. reflexivity.
  - vm_compute. repeat split; reflexivity.
Qed.

(** * Further properties of the code *)

(** ** pkg/config: what the conversion keeps and when it fails *)

Section ConvertMore.
Context `{!nat.Lib}.

(** Both inner loops stop at the first port binding that [nat.NewPort]
    rejects, with its error. *)
Lemma genPortSet_error (pbs : list config.PortBinding) (portSet : PortSet) :
  (config.genPortSet pbs portSet).2 = head (portErrors pbs).
Proof.
  revert portSet. induction pbs as [|pb pbs IH]; intros portSet; [done|].
  simpl. unfold portErrors. simpl.
  destruct (nat.NewPort _ _) as [port|err]; [apply IH|done].
Qed.

Lemma genPortMap_error (pbs : list config.PortBinding) (portMap : PortMap) :
  (config.genPortMap pbs portMap).2 = head (portErrors pbs).
Proof.
  revert portMap. induction pbs as [|pb pbs IH]; intros portMap; [done|].
  simpl. unfold portErrors. simpl.
  destruct (nat.NewPort _ _) as [port|err]; [apply IH|done].
Qed.

(** The two loops range over the same bindings: the set of the first is
    the domain of the map of the second. *)
Lemma genPorts_agree (pbs : list config.PortBinding)
    (portSet : PortSet) (portMap : PortMap) (portSet' : PortSet)
    (portMap' : PortMap) :
  config.genPortSet pbs portSet = (portSet', None) →
  config.genPortMap pbs portMap = (portMap', None) →
  portSet = dom portMap →
  map_Forall (λ _ bindings, length bindings = 1) portMap →
  portSet' = dom portMap' ∧
  map_Forall (λ _ bindings, length bindings = 1) portMap'.
Proof.
  revert portSet portMap. induction pbs as [|pb pbs IH];
    intros portSet portMap; simpl.
  - by intros [= <-] [= <-].
  - destruct (nat.NewPort _ _) as [port|err]; [|done].
    intros Hset Hmap Hdom Hone. eapply IH; [done..| |].
    + rewrite dom_insert_L. by rewrite Hdom.
    + by apply map_Forall_insert_2.
Qed.

Lemma containers_loop_ports (cs : list config.ContainerConfig)
    (containers containers' : list docker.ContainerConfig)
    (err : option error) :
  config.containers_loop cs containers = (containers', err) →
  Forall ports_agree containers → Forall ports_agree containers'.
Proof.
  revert containers. induction cs as [|c cs IH]; intros containers; simpl.
  - by intros [= <- _].
  - destruct (config.genPortSet _ _) as [portSet [e1|]] eqn:Hs.
    { by intros [= <- _]. }
    destruct (config.genPortMap _ _) as [portMap [e2|]] eqn:Hm.
    { by intros [= <- _]. }
    intros Hrun Hold. apply (IH _ Hrun). apply Forall_app. split; [done|].
    apply Forall_singleton. unfold ports_agree. simpl.
    eapply genPorts_agree; [done..| |].
    + by rewrite dom_empty_L.
    + apply map_Forall_empty.
Qed.

Lemma containers_loop_error (cs : list config.ContainerConfig)
    (containers : list docker.ContainerConfig) :
  (config.containers_loop cs containers).2
  = head (portErrors (flat_map config.PortBindings cs)).
Proof.
  revert containers. induction cs as [|c cs IH]; intros containers; [done|].
  simpl. unfold portErrors in *. rewrite omap_app.
  pose proof (genPortSet_error (config.PortBindings c) ∅) as Hs.
  pose proof (genPortMap_error (config.PortBindings c) ∅) as Hm.
  unfold portErrors in *.
  destruct (config.genPortSet _ _) as [portSet [e1|]]; simpl in Hs.
  { by destruct (omap _ (config.PortBindings c)); simplify_eq/=. }
  destruct (config.genPortMap _ _) as [portMap [e2|]]; simpl in Hm.
  { by destruct (omap _ (config.PortBindings c)); simplify_eq/=. }
  destruct (omap _ (config.PortBindings c)); [|done]. simpl. apply IH.
Qed.

(** X1: [ConfigToDockerConfig] keeps the ports of every spec in step: in
    each spec that it returns, and in each spec that it leaves in the
    package variable, the exposed ports are exactly the ports that have a
    host binding, and every bound port has exactly one host binding,
    provided this holds of the specs that the variable held before (as it
    does of the empty variable of a new process).  This holds too when the
    conversion fails half-way. *)
Theorem X1_exposed_ports_are_the_bound_ports (cfg : config.Config)
    (containers : list docker.ContainerConfig) :
  Forall ports_agree containers →
  Forall ports_agree (config.ConfigToDockerConfig cfg containers).1.1 ∧
  Forall ports_agree (config.ConfigToDockerConfig cfg containers).2.
Proof.
  intros Hold. unfold config.ConfigToDockerConfig.
  destruct (config.containers_loop (config.Containers cfg) containers)
    as [containers' [err|]] eqn:Hrun; simpl;
    apply containers_loop_ports in Hrun; done.
Qed.

(** X2: [ConfigToDockerConfig] fails exactly when [nat.NewPort] rejects a
    port binding of some declared container, and its error is then the one
    of the first such binding in the order of the declaration, whatever
    the package variable holds.  With an error the returned list is nil;
    without, it is the package variable afterwards; and in both cases what
    the variable held before is still at the head of it. *)
Theorem X2_conversion_fails_on_the_first_invalid_port (cfg : config.Config)
    (containers : list docker.ContainerConfig) :
  let r := config.ConfigToDockerConfig cfg containers in
  r.1.2
  = head (portErrors (flat_map config.PortBindings (config.Containers cfg))) ∧
  match r.1.2 with
  | Some _ => r.1.1 = []
  | None => r.1.1 = r.2
  end ∧
  containers `prefix_of` r.2.
Proof.
  unfold config.ConfigToDockerConfig.
  pose proof (containers_loop_error (config.Containers cfg) containers) as Herr.
  destruct (config.containers_loop _ _) as [containers' [err|]] eqn:Hrun;
    simpl in *.
  - split; [done|]. split; [done|].
    apply containers_loop_err in Hrun as (fresh & -> & _). by exists fresh.
  - split; [done|]. split; [done|].
    apply containers_loop_ok in Hrun as (fresh & -> & _). by exists fresh.
Qed.

End ConvertMore.

Lemma X1_exposed_ports_are_the_bound_ports_witness :
  Forall ports_agree
    (config.ConfigToDockerConfig inputs.twice80_config []).1.1 ∧
  Forall ports_agree (config.ConfigToDockerConfig inputs.twice80_config []).2.
Proof.
  apply (X1_exposed_ports_are_the_bound_ports inputs.twice80_config []).
  constructor.
Defined.

(** A configuration whose second container declares a port that is not a
    number: the conversion returns the error of that port and no spec,
    while the spec of the first container stays in the package
    variable. *)
Example conversion_stops_at_bad_port :
  config.ConfigToDockerConfig
    (config.mkConfig (config.mkAppConfig false false false)
       [inputs.nginx_1;
        config.mkContainerConfig "nginx:latest" "web"
          [inputs.first80; config.mkPortBinding "http" "tcp" "0.0.0.0" "1"]
          None None])
    []
  = (([], Some ("strconv.ParseUint: parsing " +:+ sim.quote +:+ "http"
              +:+ sim.quote +:+ ": invalid syntax")),
     [docker.mkContainerConfig "nginx:latest" "nginx_1" {[ "80/tcp" ]}
        {[ "80/tcp" := [nat.mkPortBinding "0.0.0.0" "8090"] ]}
        (Some ["key1=value1"]) None]).
Proof. vm_compute. reflexivity. Qed.

(** ** pkg/docker: lookups by name and the create step *)

Section DockerFacts.
Context {E : Type} `{!client.Client E}.

Lemma index0_bears (container : types.Container) (name : string) (e : E) :
  hasName container →
  ∃ n, index0 (types.Names container) e = (Return n, e, []) ∧
       bool_decide (n = "/" +:+ name) = bears name container.
Proof.
  unfold hasName, bears. destruct (types.Names container) as [|n names]; [done|].
  intros _. exists n. split; [done|]. simpl.
  apply bool_decide_ext. split; congruence.
Qed.

Lemma run_list (e e1 : E) (r : result (list types.Container)) :
  client.ContainerList e = (r, e1) →
  containerList e = (Return r, e1, [Call CallContainerList]).
Proof. intros Hlist. unfold containerList, lift_call. by rewrite Hlist. Qed.

(** The loops that look a name up in a listing touch neither the engine
    nor the trace. *)
Lemma findByName_run (containers : list types.Container) (name : string)
    (e : E) :
  Forall hasName containers →
  docker.findByName containers name e
  = (Return (existsb (bears name) containers), e, []).
Proof.
  induction 1 as [|container containers Hc _ IH]; [done|].
  simpl. destruct (index0_bears container name e Hc) as (n & Hn & Hb).
  rewrite (bind_run _ _ _ _ _ _ Hn), Hb.
  destruct (bears name container); simpl; [done|]. by rewrite IH.
Qed.

Lemma idByName_run (containers : list types.Container) (name : string)
    (e : E) :
  Forall hasName containers →
  docker.idByName containers name e
  = (Return match List.find (bears name) containers with
            | Some container => (types.ID container, None)
            | None => ("", Some ("container " +:+ name +:+ " not found"))
            end, e, []).
Proof.
  induction 1 as [|container containers Hc _ IH]; [done|].
  simpl. destruct (index0_bears container name e Hc) as (n & Hn & Hb).
  rewrite (bind_run _ _ _ _ _ _ Hn), Hb.
  destruct (bears name container); simpl; [done|]. by rewrite IH.
Qed.

(** X3: [CreateContainer] lists the containers first.  A failing listing
    is returned as the error, with nothing created.  When a listed
    container bears the name of the spec, nothing is created either and
    the result is [(nil, false)].  Otherwise exactly one create call is
    issued, with the image, exposed ports, environment, command, port
    bindings and name of the spec, and [created] is true exactly when the
    engine accepts it; an error of the engine is returned with [created]
    false. *)
Theorem X3_create_is_skipped_for_a_listed_name
    (config : docker.ContainerConfig) (e : E) :
  (∀ err e1,
     client.ContainerList e = (Err err, e1) →
     docker.CreateContainer config e
     = (Return (Some err, false), e1, [Call CallContainerList])) ∧
  (∀ containers e1,
     client.ContainerList e = (Ok containers, e1) →
     Forall hasName containers →
     if existsb (bears (docker.Name config)) containers
     then docker.CreateContainer config e
          = (Return (None, false), e1, [Call CallContainerList])
     else
       ∃ r e2,
         client.ContainerCreate
           {| container.Image := docker.Image config;
              container.ExposedPorts := Some (docker.ExposedPorts config);
              container.Env := docker.Env config;
              container.Cmd := docker.Cmd config |}
           {| container.PortBindings :=
                Some (Some <$> docker.PortBindings config) |}
           (docker.Name config) e1 = (r, e2) ∧
         docker.CreateContainer config e
         = (Return match r with
                   | Ok _ => (None, true)
                   | Err err => (Some err, false)
                   end, e2,
            [Call CallContainerList; Call (createCall config)])).
Proof.
  unfold docker.CreateContainer. split.
  { intros err e1 Hlist. by rewrite (bind_run _ _ _ _ _ _ (run_list _ _ _ Hlist)). }
  intros containers e1 Hlist Hnames.
  rewrite (bind_run _ _ _ _ _ _ (run_list _ _ _ Hlist)).
  assert ((if bool_decide (0 < length containers)
           then docker.findByName containers (docker.Name config)
           else ret false) e1
          = (Return (existsb (bears (docker.Name config)) containers), e1, []))
    as Hfound.
  { case_bool_decide as Hlen; [by apply findByName_run|].
    destruct containers; [done|simpl in Hlen; lia]. }
  rewrite (bind_run _ _ _ _ _ _ Hfound).
  destruct (existsb _ containers); [done|].
  destruct (client.ContainerCreate _ _ _ e1) as [r e2] eqn:Hcreate.
  exists r, e2. split; [done|].
  unfold bind, containerCreate, lift_call. rewrite Hcreate.
  by destruct r.
Qed.

(** X4: [GetContainerIDByName] returns the ID of the first listed
    container that bears the name, with a nil error; when no listed
    container bears it, the empty ID with the error ["container <name> not
    found"]; and when the listing fails, the empty ID with the error of
    the listing.  It makes that one call and no other. *)
Theorem X4_lookup_returns_the_first_listed_bearer
    (containerName : string) (e : E) :
  (∀ err e1,
     client.ContainerList e = (Err err, e1) →
     docker.GetContainerIDByName containerName e
     = (Return ("", Some err), e1, [Call CallContainerList])) ∧
  (∀ containers e1,
     client.ContainerList e = (Ok containers, e1) →
     Forall hasName containers →
     docker.GetContainerIDByName containerName e
     = (Return match List.find (bears containerName) containers with
               | Some container => (types.ID container, None)
               | None =>
                   ("", Some ("container " +:+ containerName +:+ " not found"))
               end, e1, [Call CallContainerList])).
Proof.
  unfold docker.GetContainerIDByName. split.
  - intros err e1 Hlist.
    by rewrite (bind_run _ _ _ _ _ _ (run_list _ _ _ Hlist)).
  - intros containers e1 Hlist Hnames.
    rewrite (bind_run _ _ _ _ _ _ (run_list _ _ _ Hlist)).
    by rewrite idByName_run.
Qed.

End DockerFacts.

Lemma X3_create_is_skipped_for_a_listed_name_witness :
  docker.CreateContainer samples.web samples.stale
  = (Return (None, false), samples.stale, [Call CallContainerList]).
Proof.
  apply (proj2 (X3_create_is_skipped_for_a_listed_name samples.web
                  samples.stale)
           (samples.observed samples.stale) samples.stale).
  - reflexivity.
  - repeat constructor; discriminate.
Defined.

(** On an engine that has the image and no container, the container is
    created. *)
Example create_on_empty_engine :
  docker.CreateContainer samples.web (main.world samples.ready)
  = (Return (None, true),
     sim.mkEngine
       [sim.mkCtr "c0" "web" "sha256:old"
          (container.mkConfig "nginx:latest" (Some {[ "80/tcp" ]}) None None)
          (container.mkHostConfig
             (Some {[ "80/tcp" := Some [nat.mkPortBinding "0.0.0.0" "8090"] ]}))
          false]
       [image.mkSummary "sha256:old" ["nginx:latest"]]
       [("nginx:latest", "sha256:old")] "c0'" [] [],
     [Call CallContainerList; Call (createCall samples.web)]).
Proof. vm_compute. reflexivity. Qed.

Lemma X4_lookup_returns_the_first_listed_bearer_witness :
  docker.GetContainerIDByName "web" samples.fleet
  = (Return ("c0", None), samples.fleet, [Call CallContainerList]) ∧
  docker.GetContainerIDByName "proxy" samples.fleet
  = (Return ("", Some "container proxy not found"), samples.fleet,
     [Call CallContainerList]).
Proof.
  split.
  - apply (proj2 (X4_lookup_returns_the_first_listed_bearer "web"
                    samples.fleet)
             (samples.observed samples.fleet) samples.fleet).
    + reflexivity.
    + repeat constructor; discriminate.
  - apply (proj2 (X4_lookup_returns_the_first_listed_bearer "proxy"
                    samples.fleet)
             (samples.observed samples.fleet) samples.fleet).
    + reflexivity.
    + repeat constructor; discriminate.
Defined.

(** ** The engine calls that each function can make

    For a property [P] of events, each lemma asks [P] of the calls that
    the function can issue, and of the lines it can log, and gives [P] of
    every event of every run. *)

Ltac event_ok ::=
  first [ exact I | split; [first [exact I | reflexivity] | line_neq]
        | line_neq | reflexivity | solve [auto] ].

Section Alphabet.
Context {E : Type} `{!client.Client E}.
Variable P : event → Prop.

Lemma findByName_silent containers name :
  always (E:=E) P (docker.findByName containers name).
Proof. induction containers; simpl; solve_always. Qed.

Lemma idByName_silent containers name :
  always (E:=E) P (docker.idByName containers name).
Proof. induction containers; simpl; solve_always. Qed.

Lemma isConfigured_silent container configs :
  always (E:=E) P (main.isConfigured container configs).
Proof. induction configs; simpl; solve_always. Qed.

Hint Resolve findByName_silent idByName_silent isConfigured_silent : always.

Lemma CreateContainer_calls config :
  P (Call CallContainerList) → P (Call (createCall config)) →
  always (E:=E) P (docker.CreateContainer config).
Proof.
  intros Hlist Hcreate.
  unfold docker.CreateContainer, containerList, containerCreate. solve_always.
Qed.

Lemma DeleteContainer_calls containerId :
  P (Call (CallContainerStop containerId)) →
  P (Call (CallContainerRemove containerId)) →
  always (E:=E) P (docker.DeleteContainer containerId).
Proof.
  intros Hstop Hremove.
  unfold docker.DeleteContainer, containerStop, containerRemove. solve_always.
Qed.

Lemma GetContainerIDByName_calls name :
  P (Call CallContainerList) →
  always (E:=E) P (docker.GetContainerIDByName name).
Proof.
  intros Hlist. unfold docker.GetContainerIDByName, containerList. solve_always.
Qed.

Lemma ListAllContariners_calls :
  P (Call CallContainerList) → always (E:=E) P docker.ListAllContariners.
Proof.
  intros Hlist. unfold docker.ListAllContariners, containerList. solve_always.
Qed.

Lemma EnsureRunningContainers_calls containerID :
  P (Call (CallContainerStart containerID)) →
  always (E:=E) P (docker.EnsureRunningContainers containerID).
Proof.
  intros Hstart. unfold docker.EnsureRunningContainers, containerStart.
  solve_always.
Qed.

Hint Resolve CreateContainer_calls DeleteContainer_calls
  GetContainerIDByName_calls ListAllContariners_calls
  EnsureRunningContainers_calls : always.

Hypothesis Plog : ∀ l msg, P (Log l msg).

Lemma findRunning_calls runningContainers container :
  always (E:=E) P (main.findRunning runningContainers container).
Proof using Plog. induction runningContainers; simpl; solve_always. Qed.

Lemma compareConfig_calls inspect config :
  always (E:=E) P (main.compareConfig inspect config).
Proof using Plog. unfold main.compareConfig. solve_always. Qed.

Hint Resolve findRunning_calls compareConfig_calls : always.

Lemma isContainerUpToDate_calls containerID config :
  P (Call (CallContainerInspect containerID)) →
  P (Call (CallImagePull (docker.Image config))) →
  P (Call CallImageList) →
  always (E:=E) P (main.isContainerUpToDate containerID config).
Proof using Plog.
  intros Hinspect Hpull Hlist.
  unfold main.isContainerUpToDate, containerInspect, imagePull, imageList.
  solve_always.
Qed.
Hint Resolve isContainerUpToDate_calls : always.

Lemma removeUnwantedContainers_calls configs :
  P (Call CallContainerList) →
  (∀ containerID, P (Call (CallContainerStop containerID))) →
  (∀ containerID, P (Call (CallContainerRemove containerID))) →
  always (E:=E) P (main.removeUnwantedContainers configs).
Proof using Plog.
  intros Hlist Hstop Hremove.
  assert (∀ containers,
            always (E:=E) P (main.removeUnwantedContainers_loop containers configs))
    as Hloop.
  { induction containers; simpl; solve_always. }
  unfold main.removeUnwantedContainers. solve_always.
Qed.

Lemma ensureContainerConfig_one_calls container config :
  P (Call CallContainerList) →
  P (Call (CallContainerInspect (types.ID container))) →
  P (Call (CallContainerStop (types.ID container))) →
  P (Call (CallContainerRemove (types.ID container))) →
  P (Call (createCall config)) →
  always (E:=E) P (main.ensureContainerConfig_loop [container] config).
Proof using Plog.
  intros Hlist Hinspect Hstop Hremove Hcreate.
  pose proof Hcreate as Hcreate'. unfold createCall in Hcreate'.
  simpl. unfold containerCreate, containerInspect. solve_always.
Qed.

Hypothesis Plist : P (Call CallContainerList).
Hypothesis Pinspect : ∀ containerID, P (Call (CallContainerInspect containerID)).
Hypothesis Pstop : ∀ containerID, P (Call (CallContainerStop containerID)).
Hypothesis Premove : ∀ containerID, P (Call (CallContainerRemove containerID)).

Lemma ensureContainerConfig_loop_calls containers config :
  P (Call (createCall config)) →
  always (E:=E) P (main.ensureContainerConfig_loop containers config).
Proof using Plog Plist Pinspect Pstop Premove.
  intros Hcreate. pose proof Hcreate as Hcreate'. unfold createCall in Hcreate'.
  induction containers; simpl; unfold containerCreate, containerInspect;
    solve_always.
Qed.
Hint Resolve ensureContainerConfig_loop_calls : always.

Lemma ensureContainerConfig_calls config :
  P (Call (createCall config)) →
  always (E:=E) P (main.ensureContainerConfig config).
Proof using Plog Plist Pinspect Pstop Premove.
  intros Hcreate. unfold main.ensureContainerConfig, containerList.
  solve_always.
Qed.
Hint Resolve ensureContainerConfig_calls : always.

Lemma updateStep_calls ctid container :
  P (Call (createCall container)) →
  P (Call (CallImagePull (docker.Image container))) →
  P (Call CallImageList) →
  always (E:=E) P (main.updateStep ctid container).
Proof using Plog Plist Pinspect Pstop Premove. intros Hcreate Hpull Himages. unfold main.updateStep. solve_always. Qed.
Hint Resolve updateStep_calls : always.

Lemma ensureOne_calls runningContainers container updateCheck :
  P (Call (createCall container)) →
  P (Call (CallImagePull (docker.Image container))) →
  P (Call CallImageList) →
  (∀ containerID, P (Call (CallContainerStart containerID))) →
  always (E:=E) P (main.ensureOne runningContainers container updateCheck).
Proof using Plog Plist Pinspect Pstop Premove.
  intros Hcreate Hpull Himages Hstart. unfold main.ensureOne. solve_always.
Qed.

End Alphabet.

Ltac alphabet :=
  first
    [ apply findByName_silent | apply idByName_silent
    | apply isConfigured_silent
    | apply findRunning_calls | apply compareConfig_calls
    | apply CreateContainer_calls | apply DeleteContainer_calls
    | apply GetContainerIDByName_calls | apply ListAllContariners_calls
    | apply EnsureRunningContainers_calls
    | apply isContainerUpToDate_calls
    | apply ensureContainerConfig_one_calls
    | apply ensureContainerConfig_loop_calls
    | apply ensureContainerConfig_calls
    | apply updateStep_calls | apply ensureOne_calls
    | apply removeUnwantedContainers_calls ];
  try (intros; exact I); try done.

Ltac solve_calls := repeat first [ solve [alphabet] | step_always ].

Ltac use_calls P H :=
  cbv beta iota in H;
  match type of H with
  | ?R _ = _ =>
      let HR := fresh in
      assert (always P R) as HR by solve_calls;
      apply HR in H
  end.

Lemma starts_app t1 t2 : starts (t1 ++ t2) = starts t1 ++ starts t2.
Proof. apply omap_app. Qed.

Lemma starts_notStart t : Forall notStart t → starts t = [].
Proof.
  induction 1 as [|ev t Hev _ IH]; [done|].
  change (ev :: t) with ([ev] ++ t). rewrite starts_app, IH.
  by destruct ev as [[]|].
Qed.

Lemma stops_notStop t : Forall notStop t → stops t = [].
Proof.
  induction 1 as [|ev t Hev _ IH]; [done|].
  change (ev :: t) with ([ev] ++ t). rewrite stops_app, IH.
  by destruct ev as [[]|].
Qed.

Lemma removes_app t1 t2 : removes (t1 ++ t2) = removes t1 ++ removes t2.
Proof. apply omap_app. Qed.

Lemma removes_notRemove t : Forall notRemove t → removes t = [].
Proof.
  induction 1 as [|ev t Hev _ IH]; [done|].
  change (ev :: t) with ([ev] ++ t). rewrite removes_app, IH.
  by destruct ev as [[]|].
Qed.

(** ** main: the comparator's choice of container, the freshness check and
    the recreate that follows it *)

Section ReconfigureFacts.
Context {E : Type} `{!client.Client E}.

(** The listed containers in front of the first one that bears the name
    are passed over without a call. *)
Lemma ensureContainerConfig_loop_skip
    (pre rest : list types.Container) (config : docker.ContainerConfig) (e : E) :
  Forall hasName pre →
  existsb (bears (docker.Name config)) pre = false →
  main.ensureContainerConfig_loop (pre ++ rest) config e
  = main.ensureContainerConfig_loop rest config e.
Proof.
  induction 1 as [|container pre Hc _ IH]; [done|].
  simpl. intros [Hb Hpre]%orb_false_elim.
  destruct (index0_bears container (docker.Name config) e Hc) as (n & Hn & Hbn).
  rewrite (bind_run _ _ _ _ _ _ Hn), Hbn, Hb. simpl. rewrite IH by done.
  by destruct (main.ensureContainerConfig_loop rest config e) as [[o e2] t2].
Qed.

(** The listed containers behind it are never looked at. *)
Lemma ensureContainerConfig_loop_match
    (container : types.Container) (rest : list types.Container)
    (config : docker.ContainerConfig) (e : E) :
  bears (docker.Name config) container = true →
  main.ensureContainerConfig_loop (container :: rest) config e
  = main.ensureContainerConfig_loop [container] config e.
Proof.
  intros Hb. simpl. unfold bears in Hb. apply bool_decide_eq_true in Hb.
  destruct (types.Names container) as [|n names]; [done|].
  simpl in Hb. injection Hb as ->.
  rewrite !(bind_run (index0 (_ :: names)) _ e _ e [] eq_refl).
  by rewrite bool_decide_eq_true_2.
Qed.

Lemma find_split {A} (f : A → bool) (l : list A) (x : A) :
  List.find f l = Some x →
  ∃ pre rest, l = pre ++ x :: rest ∧ existsb f pre = false ∧ f x = true.
Proof.
  induction l as [|a l IH]; [done|]. simpl.
  destruct (f a) eqn:Ha.
  - intros [= ->]. by exists [], l.
  - intros Hfind. destruct (IH Hfind) as (pre & rest & -> & Hpre & Hx).
    exists (a :: pre), rest. split; [done|]. simpl. by rewrite Ha.
Qed.

Lemma find_none_existsb {A} (f : A → bool) (l : list A) :
  List.find f l = None → existsb f l = false.
Proof.
  induction l as [|a l IH]; [done|]. simpl.
  destruct (f a); [done|]. apply IH.
Qed.

(** X5: [ensureContainerConfig] acts on the first listed container that
    bears the name of the spec, and on no other: what it does is what its
    loop does on that container alone, beginning with its inspect, and
    every inspect, stop and remove it issues names that container.  When
    no listed container bears the name, it logs that the container was not
    found and issues one create call with the fields of the spec, whose
    error, if any, it returns.  A failing listing is returned as the
    error. *)
Theorem X5_only_the_first_bearer_is_reconfigured
    (config : docker.ContainerConfig) (e : E) :
  (∀ err e1,
     client.ContainerList e = (Err err, e1) →
     main.ensureContainerConfig config e
     = (Return (Some err), e1, [Call CallContainerList])) ∧
  (∀ containers e1,
     client.ContainerList e = (Ok containers, e1) →
     Forall hasName containers →
     match List.find (bears (docker.Name config)) containers with
     | Some container =>
         main.ensureContainerConfig config e
         = (let '(o, e2, t) :=
              main.ensureContainerConfig_loop [container] config e1 in
            (o, e2, Call CallContainerList :: t)) ∧
         (∃ rest,
            trace_of (main.ensureContainerConfig config e)
            = Call CallContainerList
                :: Call (CallContainerInspect (types.ID container)) :: rest) ∧
         Forall (targets (types.ID container))
           (trace_of (main.ensureContainerConfig config e))
     | None =>
         ∃ r e2,
           client.ContainerCreate
             {| container.Image := docker.Image config;
                container.ExposedPorts := Some (docker.ExposedPorts config);
                container.Env := docker.Env config;
                container.Cmd := docker.Cmd config |}
             {| container.PortBindings :=
                  Some (Some <$> docker.PortBindings config) |}
             (docker.Name config) e1 = (r, e2) ∧
           main.ensureContainerConfig config e
           = (Return match r with
                     | Ok _ => None
                     | Err err => Some err
                     end, e2,
              [Call CallContainerList;
               Log Info ("Container " +:+ docker.Name config
                         +:+ " not found, creating it..." +:+ nl);
               Call (createCall config)])
     end).
Proof.
  unfold main.ensureContainerConfig. split.
  { intros err e1 Hlist.
    by rewrite (bind_run _ _ _ _ _ _ (run_list _ _ _ Hlist)). }
  intros containers e1 Hlist Hnames.
  rewrite (bind_run _ _ _ _ _ _ (run_list _ _ _ Hlist)).
  destruct (List.find _ containers) as [container|] eqn:Hfind.
  - apply find_split in Hfind as (pre & rest & -> & Hpre & Hb).
    apply Forall_app in Hnames as [Hnpre _].
    rewrite ensureContainerConfig_loop_skip by done.
    rewrite ensureContainerConfig_loop_match by done.
    split; [done|].
    destruct (main.ensureContainerConfig_loop [container] config e1)
      as [[o e2] t] eqn:Hrun.
    unfold trace_of. simpl. split.
    + simpl in Hrun.
      unfold bears in Hb. apply bool_decide_eq_true in Hb.
      destruct (types.Names container) as [|n names]; [done|].
      simpl in Hb. injection Hb as ->.
      apply bind_inv in Hrun. simpl in Hrun. destruct Hrun as (t2 & Hrun & ->).
      rewrite bool_decide_eq_true_2 in Hrun by done.
      apply bind_inv in Hrun. unfold containerInspect, lift_call in Hrun.
      destruct (client.ContainerInspect (types.ID container) e1) as [r e3].
      destruct Hrun as (t3 & _ & ->). by eexists.
    + constructor; [done|].
      eapply (ensureContainerConfig_one_calls (targets (types.ID container)));
        [done..|exact Hrun].
  - apply find_none_existsb in Hfind.
    rewrite <- (app_nil_r containers).
    rewrite ensureContainerConfig_loop_skip by done. simpl.
    destruct (client.ContainerCreate _ _ _ e1) as [r e2] eqn:Hcreate.
    exists r, e2. split; [done|].
    unfold bind, logf, containerCreate, lift_call. rewrite Hcreate.
    by destruct r.
Qed.

(** X6: the calls of [isContainerUpToDate] are always an initial part of
    the inspect of the container, the pull of the desired image and the
    image listing, in this order, and all three when it returns without
    error; it never ends the process, and its verdict is true only
    together with a nil error. *)
Theorem X6_freshness_check_calls_and_verdict
    (containerID : string) (config : docker.ContainerConfig) (e : E) :
  let r := main.isContainerUpToDate containerID config e in
  calls (trace_of r)
    `prefix_of` [CallContainerInspect containerID;
                 CallImagePull (docker.Image config); CallImageList] ∧
  ∃ upToDate err,
    outcome_of r = Return (upToDate, err) ∧
    match err with
    | Some _ => upToDate = false
    | None =>
        calls (trace_of r)
        = [CallContainerInspect containerID;
           CallImagePull (docker.Image config); CallImageList]
    end.
Proof.
  unfold main.isContainerUpToDate, bind, containerInspect, imagePull,
    imageList, lift_call, logf, ret, trace_of, outcome_of.
  destruct (client.ContainerInspect containerID e) as [[inspect|err] e1]; simpl.
  2:{ split; [by eexists|]. by exists false, (Some err). }
  destruct (client.ImagePull (docker.Image config) e1) as [[err|] e2]; simpl.
  { split; [by eexists|]. by exists false, (Some err). }
  destruct (client.ImageList e2) as [[images|err] e3]; simpl.
  2:{ split; [done|]. by exists false, (Some err). }
  case_bool_decide; simpl.
  { split; [done|]. by eexists false, (Some _). }
  case_bool_decide; simpl; (split; [done|]); by eexists _, None.
Qed.

(** X7: the freshness step of the loop body does what the verdict says.
    An error of the check is returned with nothing else done; on a true
    verdict the step ends with the same container ID and has issued the
    calls of the check only; on a false verdict it logs the recreate and
    stops the checked container, and from there on it stops nothing else
    and removes at most that container.  The process never ends inside
    the step unless it ends inside the check. *)
Theorem X7_stale_verdict_recreates_the_checked_container
    (ctid : string) (container : docker.ContainerConfig) (e : E) :
  match main.isContainerUpToDate ctid container e with
  | (Return (_, Some err), e1, t1) =>
      main.updateStep ctid container e = (Return (inl err), e1, t1)
  | (Return (true, None), e1, t1) =>
      main.updateStep ctid container e = (Return (inr ctid), e1, t1)
  | (Return (false, None), e1, t1) =>
      ∃ o e2 t2,
        main.updateStep ctid container e
        = (o, e2,
           t1 ++ Log Info ("Container " +:+ docker.Name container
                           +:+ " is not up to date, recreating ..." +:+ nl)
              :: Call (CallContainerStop ctid) :: t2) ∧
        stops t2 = [] ∧ removes t2 `prefix_of` [ctid]
  | (Exit msg, e1, t1) =>
      main.updateStep ctid container e = (Exit msg, e1, t1)
  | (Panic, e1, t1) => main.updateStep ctid container e = (Panic, e1, t1)
  end.
Proof.
  unfold main.updateStep.
  destruct (main.isContainerUpToDate ctid container e)
    as [[[[upToDate [err|]]|msg|] e1] t1] eqn:Hcheck;
    [| |unfold bind; by rewrite Hcheck..].
  { rewrite (bind_run _ _ _ _ _ _ Hcheck).
    destruct upToDate; simpl; by rewrite app_nil_r. }
  rewrite (bind_run _ _ _ _ _ _ Hcheck).
  destruct upToDate; simpl; [by rewrite app_nil_r|].
  rewrite (bind_run _ _ _ tt e1 [Log Info _]) by done.
  pose proof (DeleteContainer_run ctid e1) as Hdel.
  destruct (client.ContainerStop ctid e1) as [[serr|] e2].
  { rewrite (bind_run _ _ _ _ _ _ Hdel). simpl.
    eexists _, _, []. split; [done|]. split; [done|]. apply prefix_nil. }
  destruct (client.ContainerRemove ctid e2) as [[rerr|] e3].
  { rewrite (bind_run _ _ _ _ _ _ Hdel). simpl.
    eexists _, _, [_]. split; [done|]. by split. }
  rewrite (bind_run _ _ _ _ _ _ Hdel). cbv beta iota.
  destruct (bind (docker.CreateContainer container) _ e3)
    as [[o e4] t4] eqn:Hrest.
  eexists o, e4, (_ :: t4). split; [done|].
  assert (Forall notStop t4 ∧ Forall notRemove t4) as [Hs Hr].
  { split.
    - pose proof Hrest as Hrest'. by use_calls notStop Hrest'.
    - by use_calls notRemove Hrest. }
  simpl. rewrite (stops_notStop _ Hs), (removes_notRemove _ Hr). done.
Qed.

End ReconfigureFacts.

Lemma X5_only_the_first_bearer_is_reconfigured_witness :
  Forall (targets "c0")
    (trace_of (main.ensureContainerConfig samples.web samples.fleet)).
Proof.
  apply (proj2 (X5_only_the_first_bearer_is_reconfigured samples.web
                  samples.fleet)
           (samples.observed samples.fleet) samples.fleet).
  - reflexivity.
  - repeat constructor; discriminate.
Defined.

(** On the engine whose container [web] runs an image that the registry
    has replaced, the freshness step stops and removes [c0], creates the
    container anew and ends with the ID of the new container. *)
Example stale_container_is_recreated :
  let r := main.updateStep "c0" samples.web samples.stale in
  outcome_of r = Return (inr "c1") ∧
  calls (trace_of r)
  = [CallContainerInspect "c0"; CallImagePull "nginx:latest"; CallImageList;
     CallContainerStop "c0"; CallContainerRemove "c0";
     CallContainerList; createCall samples.web; CallContainerList].
Proof. vm_compute. split; reflexivity. Qed.

(** ** main: what a pass asks of the engine *)

Lemma paired_app t1 t2 : paired t1 → paired t2 → paired (t1 ++ t2).
Proof.
  induction 1 as [|ev t Hev _ IH|containerID t _ IH]; simpl; intros Ht2.
  - done.
  - apply paired_other; [done|]. by apply IH.
  - apply paired_delete. by apply IH.
Qed.

Lemma paired_quiet t : Forall notRemove t → paired t.
Proof. induction 1; by constructor. Qed.

Lemma paired_stop_precedes_remove t : paired t → stop_precedes_remove t.
Proof.
  induction 1 as [|ev t Hev _ IH|containerID t _ IH]; intros i id Hi.
  - done.
  - destruct i as [|i]; simpl in Hi.
    { injection Hi as ->. done. }
    destruct (IH i id Hi) as (j & -> & Hj). by exists (S j).
  - destruct i as [|[|i]]; simpl in Hi; [done| |].
    { injection Hi as ->. by exists 0. }
    destruct (IH i id Hi) as (j & -> & Hj). by exists (S (S j)).
Qed.

Section PassFacts.
Context {E : Type} `{!client.Client E}.

Lemma pass_event_body desierdContainers container :
  container ∈ desierdContainers →
  ∀ ev, body_event container ev → pass_event desierdContainers ev.
Proof. intros Hin [[]|] Hev; simpl; eauto. Qed.

(** X8: whatever [ensureContainers] creates or pulls is desired: every
    create call of a pass carries the image, exposed ports, environment,
    command, port bindings and name of one of the desired specs, and every
    pull is a pull of the image of one of them. *)
Theorem X8_pass_creates_and_pulls_only_what_is_desired
    (desierdContainers : list docker.ContainerConfig) (updateCheck : bool)
    (e : E) :
  Forall (pass_event desierdContainers)
    (trace_of (main.ensureContainers desierdContainers updateCheck e)).
Proof.
  assert (∀ runningContainers rest,
            rest ⊆ desierdContainers →
            always (E:=E) (pass_event desierdContainers)
              (main.ensureContainers_loop runningContainers rest updateCheck))
    as Hloop.
  { intros runningContainers rest. induction rest as [|container rest IH];
      intros Hsub; simpl; [apply always_ret|].
    apply always_bind.
    - eapply always_mono; [apply (pass_event_body _ container); set_solver|].
      by apply ensureOne_calls.
    - intros [err|]; [apply always_ret|]. apply IH. set_solver. }
  destruct (main.ensureContainers desierdContainers updateCheck e)
    as [[o e'] t] eqn:Hrun.
  revert Hrun. unfold main.ensureContainers.
  apply always_bind.
  - by apply ListAllContariners_calls.
  - intros [runningContainers [err|]]; [apply always_ret|]. by apply Hloop.
Qed.

Lemma deletes_bind {A B} (m : M E A) (f : A → M E B) :
  deletes m → (∀ a, deletes (f a)) → deletes (bind m f).
Proof.
  intros Hm Hf e o e' t Hrun. apply bind_inv in Hrun.
  destruct (m e) as [[[a|msg|] e1] t1] eqn:Hme.
  - destruct Hrun as (t2 & Hfa & ->). apply paired_app.
    + by eapply Hm.
    + by eapply Hf.
  - destruct Hrun as (_ & _ & ->). by eapply Hm.
  - destruct Hrun as (_ & _ & ->). by eapply Hm.
Qed.

Lemma deletes_quiet {A} (m : M E A) : always notRemove m → deletes m.
Proof. intros Hm e o e' t Hrun. apply paired_quiet. by eapply Hm. Qed.

Lemma deletes_DeleteContainer containerId :
  deletes (E:=E) (docker.DeleteContainer containerId).
Proof.
  intros e o e' t Hrun.
  pose proof (DeleteContainer_run containerId e) as Hdel.
  destruct (client.ContainerStop containerId e) as [[err|] e1].
  - rewrite Hdel in Hrun. injection Hrun as <- <- <-.
    by repeat constructor.
  - destruct (client.ContainerRemove containerId e1) as [err e2].
    rewrite Hdel in Hrun. injection Hrun as <- <- <-.
    by repeat constructor.
Qed.

Ltac step_deletes :=
  first
    [ assumption
    | match goal with H : ∀ _, _ |- deletes _ => apply H end
    | apply deletes_DeleteContainer
    | solve [apply deletes_quiet; solve_calls]
    | apply deletes_bind; [|intros ?]
    | match goal with
      | |- deletes (if ?b then _ else _) => destruct b
      | |- deletes (match ?x with _ => _ end) => destruct x
      end ].
Ltac solve_deletes := repeat step_deletes.

Lemma ensureContainerConfig_loop_deletes containers config :
  deletes (E:=E) (main.ensureContainerConfig_loop containers config).
Proof.
  induction containers; simpl; unfold containerCreate, containerInspect;
    solve_deletes.
Qed.

Lemma ensureOne_deletes runningContainers container updateCheck :
  deletes (E:=E) (main.ensureOne runningContainers container updateCheck).
Proof.
  pose proof ensureContainerConfig_loop_deletes.
  unfold main.ensureOne, main.ensureContainerConfig, main.updateStep,
    containerList.
  solve_deletes.
Qed.

Lemma ensureContainers_deletes desierdContainers updateCheck :
  deletes (E:=E) (main.ensureContainers desierdContainers updateCheck).
Proof.
  assert (∀ runningContainers rest,
            deletes (E:=E)
              (main.ensureContainers_loop runningContainers rest updateCheck))
    as Hloop.
  { intros runningContainers rest. induction rest; simpl.
    - solve_deletes.
    - pose proof ensureOne_deletes. solve_deletes. }
  unfold main.ensureContainers. solve_deletes.
Qed.

Lemma removeUnwantedContainers_deletes configs :
  deletes (E:=E) (main.removeUnwantedContainers configs).
Proof.
  assert (∀ containers,
            deletes (E:=E) (main.removeUnwantedContainers_loop containers configs))
    as Hloop.
  { induction containers; simpl; solve_deletes. }
  unfold main.removeUnwantedContainers. solve_deletes.
Qed.

(** X9: neither the pass nor the pruner ever removes a container that it
    has not stopped immediately before: in every trace of
    [ensureContainers] and of [removeUnwantedContainers], a remove call
    comes directly after the stop call of the same container. *)
Theorem X9_remove_follows_the_stop_of_the_same_container
    (desierdContainers : list docker.ContainerConfig) (updateCheck : bool)
    (e : E) :
  stop_precedes_remove
    (trace_of (main.ensureContainers desierdContainers updateCheck e)) ∧
  stop_precedes_remove
    (trace_of (main.removeUnwantedContainers desierdContainers e)).
Proof.
  split; apply paired_stop_precedes_remove.
  - destruct (main.ensureContainers desierdContainers updateCheck e)
      as [[o e'] t] eqn:Hrun. by eapply ensureContainers_deletes.
  - destruct (main.removeUnwantedContainers desierdContainers e)
      as [[o e'] t] eqn:Hrun. by eapply removeUnwantedContainers_deletes.
Qed.

(** A computation that starts no container, in front of another one. *)
Lemma bind_quiet {A B} (m : M E A) (f : A → M E B) e o e' t :
  bind m f e = (o, e', t) →
  always notStart m →
  (starts t = [] ∧ ∀ b, o ≠ Return b) ∨
  ∃ a e1 t2, f a e1 = (o, e', t2) ∧ starts t = starts t2.
Proof.
  intros Hrun Hm. apply bind_inv in Hrun.
  destruct (m e) as [[[a|msg|] e1] t1] eqn:Hme.
  - destruct Hrun as (t2 & Hfa & ->). right. exists a, e1, t2. split; [done|].
    by rewrite starts_app, (starts_notStart t1) by (by eapply Hm).
  - destruct Hrun as (-> & _ & ->). left.
    split; [apply starts_notStart; by eapply Hm|done].
  - destruct Hrun as (-> & _ & ->). left.
    split; [apply starts_notStart; by eapply Hm|done].
Qed.

(** The start is the last call of the loop body. *)
Lemma ensureOne_starts runningContainers container updateCheck e o e' t :
  main.ensureOne runningContainers container updateCheck e = (o, e', t) →
  (starts t = [] ∧ o ≠ Return None) ∨ ∃ ctid, starts t = [ctid].
Proof.
  unfold main.ensureOne. intros Hrun.
  apply bind_quiet in Hrun as [[Hs Ho]|(found & e1 & t1 & Hrun & ->)];
    [left; by split| |solve_calls].
  apply bind_quiet in Hrun as [[Hs Ho]|([[err|] created] & e2 & t2 & Hrun & ->)];
    [left; by split| | |solve_calls].
  { injection Hrun as <- <- <-. left. by split. }
  apply bind_quiet in Hrun as [[Hs Ho]|(? & e3 & t3 & Hrun & ->)];
    [left; by split| |solve_calls].
  apply bind_quiet in Hrun as [[Hs Ho]|(? & e4 & t4 & Hrun & ->)];
    [left; by split| |solve_calls].
  apply bind_quiet in Hrun as [[Hs Ho]|([ctid [err|]] & e5 & t5 & Hrun & ->)];
    [left; by split| | |solve_calls].
  { injection Hrun as <- <- <-. left. by split. }
  apply bind_quiet in Hrun as [[Hs Ho]|([err|ctid'] & e6 & t6 & Hrun & ->)];
    [left; by split| | |solve_calls].
  { injection Hrun as <- <- <-. left. by split. }
  right. exists ctid'. revert Hrun.
  unfold docker.EnsureRunningContainers, bind, containerStart, lift_call, logf.
  destruct (client.ContainerStart ctid' e6) as [[err|] e7];
    by intros [= <- <- <-].
Qed.

(** X10: a pass starts at most one container for each desired spec, and a
    pass that returns without error has issued exactly one start call for
    each of them, whether or not the container was running already. *)
Theorem X10_pass_starts_one_container_per_spec
    (desierdContainers : list docker.ContainerConfig) (updateCheck : bool)
    (e e' : E) (o : outcome (option error)) (t : list event) :
  main.ensureContainers desierdContainers updateCheck e = (o, e', t) →
  (length (starts t) ≤ length desierdContainers)%nat ∧
  (o = Return None → length (starts t) = length desierdContainers).
Proof.
  assert (∀ runningContainers rest e o e' t,
            main.ensureContainers_loop runningContainers rest updateCheck e
              = (o, e', t) →
            (length (starts t) ≤ length rest)%nat ∧
            (o = Return None → length (starts t) = length rest)) as Hloop.
  { intros runningContainers rest. induction rest as [|container rest IH];
      intros e0 o0 e0' t0; simpl.
    { by intros [= <- <- <-]. }
    intros Hrun. apply bind_inv in Hrun.
    destruct (main.ensureOne runningContainers container updateCheck e0)
      as [[[[err|]|msg|] e1] t1] eqn:Hbody.
    - destruct Hrun as (t2 & [= <- <- <-] & ->). rewrite app_nil_r.
      destruct (ensureOne_starts _ _ _ _ _ _ _ Hbody) as [[-> _]|[ctid ->]];
        simpl; split; (lia || done).
    - destruct Hrun as (t2 & Hrun & ->). apply IH in Hrun as [Hle Heq].
      rewrite starts_app, length_app.
      destruct (ensureOne_starts _ _ _ _ _ _ _ Hbody) as [[_ Hne]|[ctid ->]];
        [done|]. simpl. split; [lia|]. intros Ho. rewrite Heq; done.
    - destruct Hrun as (-> & _ & ->).
      destruct (ensureOne_starts _ _ _ _ _ _ _ Hbody) as [[-> _]|[ctid ->]];
        simpl; split; (lia || done).
    - destruct Hrun as (-> & _ & ->).
      destruct (ensureOne_starts _ _ _ _ _ _ _ Hbody) as [[-> _]|[ctid ->]];
        simpl; split; (lia || done). }
  unfold main.ensureContainers. intros Hrun.
  apply bind_quiet in Hrun
    as [[Hs Ho]|([runningContainers [err|]] & e1 & t1 & Hrun & ->)].
  - rewrite Hs. simpl. split; [lia|]. intros ->. by destruct (Ho None).
  - injection Hrun as <- <- <-. simpl. split; [lia|done].
  - by eapply Hloop.
  - by apply ListAllContariners_calls.
Qed.

#[local] Hint Resolve findByName_benign idByName_benign CreateContainer_benign
  DeleteContainer_benign GetContainerIDByName_benign
  EnsureRunningContainers_benign findRunning_benign compareConfig_benign
  ensureContainerConfig_loop_benign ensureContainerConfig_benign
  isContainerUpToDate_notCreated updateStep_notCreated : always.

(** X11: a container that the create step of the loop body has just
    created is only looked up by name and started: when the body logs the
    line of the creation, its calls are listings, the one create call with
    the fields of the spec, and the start.  It neither inspects, compares,
    stops, removes nor pulls, whatever [updateCheck] is. *)
Theorem X11_created_container_is_only_looked_up_and_started
    (runningContainers : list types.Container)
    (container : docker.ContainerConfig) (updateCheck : bool)
    (e e' : E) (o : outcome (option error)) (t : list event) :
  main.ensureOne runningContainers container updateCheck e = (o, e', t) →
  createdLog (docker.Name container) ∈ t →
  Forall (created_event container) t.
Proof.
  unfold main.ensureOne. intros Hrun Hin. apply bind_inv in Hrun.
  match type of Hrun with
  | match ?m e with _ => _ end =>
      destruct (m e) as [[[found|msg|] e1] t1] eqn:Hfound
  end.
  2,3: destruct Hrun as (-> & _ & ->); exfalso; revert Hin;
       apply Forall_notCreated;
       by use_always (notCreated (docker.Name container)) Hfound.
  pose proof Hfound as Hfound'.
  use_always (notCreated (docker.Name container)) Hfound.
  use_calls (created_event container) Hfound'.
  destruct Hrun as (t2 & Hrun & ->). apply bind_inv in Hrun.
  match type of Hrun with
  | match ?m e1 with _ => _ end =>
      destruct (m e1) as [[[[[err|] created]|msg|] e2] t2'] eqn:Hcreate
  end.
  3,4: destruct Hrun as (-> & _ & ->); exfalso; revert Hin;
       apply Forall_notCreated, Forall_app; split; [done|];
       by use_always (notCreated (docker.Name container)) Hcreate.
  - destruct Hrun as (t3 & [= <- <- <-] & ->). exfalso. revert Hin.
    apply Forall_notCreated. rewrite app_nil_r. apply Forall_app.
    split; [done|].
    by use_always (notCreated (docker.Name container)) Hcreate.
  - pose proof Hcreate as Hcreate'.
    use_always (notCreated (docker.Name container)) Hcreate.
    use_calls (created_event container) Hcreate'.
    destruct Hrun as (t3 & Hrun & ->). destruct created.
    + simpl in Hrun. rewrite andb_false_r in Hrun.
      apply Forall_app. split; [done|]. apply Forall_app. split; [done|].
      by use_calls (created_event container) Hrun.
    + exfalso. revert Hin. apply Forall_notCreated.
      apply Forall_app. split; [done|]. apply Forall_app. split; [done|].
      simpl in Hrun. rewrite andb_true_r in Hrun.
      by use_always (notCreated (docker.Name container)) Hrun.
Qed.

End PassFacts.

Lemma X10_pass_starts_one_container_per_spec_witness :
  length (starts (trace_of (main.ensureContainers [samples.web] false
                              (main.world samples.ready))))
  = 1.
Proof.
  refine (proj2
    (X10_pass_starts_one_container_per_spec [samples.web] false
       (main.world samples.ready)
       (state_of (main.ensureContainers [samples.web] false
                    (main.world samples.ready)))
       (outcome_of (main.ensureContainers [samples.web] false
                      (main.world samples.ready)))
       _ _) _).
  - vm_compute. reflexivity.
  - vm_compute. reflexivity.
Defined.

Lemma X11_created_container_is_only_looked_up_and_started_witness :
  Forall (created_event samples.web)
    (trace_of (main.ensureOne [] samples.web true (main.world samples.ready))).
Proof.
  apply (X11_created_container_is_only_looked_up_and_started [] samples.web
           true (main.world samples.ready)
           (state_of (main.ensureOne [] samples.web true
                        (main.world samples.ready)))
           (outcome_of (main.ensureOne [] samples.web true
                          (main.world samples.ready)))).
  - vm_compute. reflexivity.
  - apply elem_of_infos. vm_compute. left.
Defined.

(** The pass on the engine that has the image and no container: the
    container is created, looked up and started, and nothing is pulled
    although update checking is enabled. *)
Example first_pass_creates_and_starts :
  calls (trace_of (main.ensureContainers [samples.web] true
                     (main.world samples.ready)))
  = [CallContainerList; CallContainerList; createCall samples.web;
     CallContainerList; CallContainerStart "c0"].
Proof. vm_compute. reflexivity. Qed.

(** ** main: every stop is announced *)

Lemma announced_app t1 t2 : announced t1 → announced t2 → announced (t1 ++ t2).
Proof.
  induction 1 as [|ev t Hev _ IH|msg containerID t Hmsg _ IH]; simpl;
    intros Ht2.
  - done.
  - apply announced_other; [done|]. by apply IH.
  - apply announced_stop; [done|]. by apply IH.
Qed.

Lemma announced_quiet t : Forall notStop t → announced t.
Proof. induction 1; by constructor. Qed.

Lemma announced_stop_is_announced t : announced t → stop_is_announced t.
Proof.
  induction 1 as [|ev t Hev _ IH|msg containerID t Hmsg _ IH]; intros i id Hi.
  - done.
  - destruct i as [|i]; simpl in Hi.
    { injection Hi as ->. done. }
    destruct (IH i id Hi) as (j & m & -> & Hj & Hm). by exists (S j), m.
  - destruct i as [|[|i]]; simpl in Hi; [done| |].
    { injection Hi as ->. by exists 0, msg. }
    destruct (IH i id Hi) as (j & m & -> & Hj & Hm). by exists (S (S j)), m.
Qed.

Section AnnouncedStops.
Context {E : Type} `{!client.Client E}.

Lemma announces_bind {A B} (m : M E A) (f : A → M E B) :
  announces m → (∀ a, announces (f a)) → announces (bind m f).
Proof.
  intros Hm Hf e o e' t Hrun. apply bind_inv in Hrun.
  destruct (m e) as [[[a|msg|] e1] t1] eqn:Hme.
  - destruct Hrun as (t2 & Hfa & ->). apply announced_app.
    + by eapply Hm.
    + by eapply Hf.
  - destruct Hrun as (_ & _ & ->). by eapply Hm.
  - destruct Hrun as (_ & _ & ->). by eapply Hm.
Qed.

Lemma announces_quiet {A} (m : M E A) : always notStop m → announces m.
Proof. intros Hm e o e' t Hrun. apply announced_quiet. by eapply Hm. Qed.

(** A delete that follows its line. *)
Lemma announces_delete {B} (msg : string) (containerId : string)
    (f : option error → M E B) :
  stop_line msg →
  (∀ err, announces (f err)) →
  announces (bind (logf Info msg)
               (λ _, bind (docker.DeleteContainer containerId) f)).
Proof.
  intros Hmsg Hf e o e' t Hrun.
  rewrite (bind_run _ _ _ tt e [Log Info msg]) in Hrun by done.
  destruct (bind (docker.DeleteContainer containerId) f e)
    as [[o1 e1] t1] eqn:Hrest.
  injection Hrun as <- <- <-. apply bind_inv in Hrest.
  pose proof (DeleteContainer_run containerId e) as Hdel.
  destruct (client.ContainerStop containerId e) as [[serr|] e2].
  - rewrite Hdel in Hrest. destruct Hrest as (t2 & Hrest & ->). simpl.
    apply announced_stop; [done|]. by eapply Hf.
  - destruct (client.ContainerRemove containerId e2) as [rerr e3].
    rewrite Hdel in Hrest. destruct Hrest as (t2 & Hrest & ->). simpl.
    apply announced_stop; [done|]. apply announced_other; [done|].
    by eapply Hf.
Qed.

Ltac stop_line_ok :=
  eexists;
  first [ left; reflexivity
        | right; left; reflexivity
        | right; right; eexists; reflexivity ].

Ltac step_announces :=
  first
    [ assumption
    | match goal with H : ∀ _, _ |- announces _ => apply H end
    | solve [apply announces_quiet; solve_calls]
    | apply announces_delete; [stop_line_ok|intros ?]
    | apply announces_bind; [|intros ?]
    | match goal with
      | |- announces (if ?b then _ else _) => destruct b
      | |- announces (match ?x with _ => _ end) => destruct x
      end ].
Ltac solve_announces := repeat step_announces.

Lemma ensureContainerConfig_loop_announces containers config :
  announces (E:=E) (main.ensureContainerConfig_loop containers config).
Proof.
  induction containers; simpl; unfold containerCreate, containerInspect;
    solve_announces.
Qed.

Lemma ensureOne_announces runningContainers container updateCheck :
  announces (E:=E) (main.ensureOne runningContainers container updateCheck).
Proof.
  pose proof ensureContainerConfig_loop_announces.
  unfold main.ensureOne, main.ensureContainerConfig, main.updateStep,
    containerList.
  solve_announces.
Qed.

Lemma ensureContainers_announces desierdContainers updateCheck :
  announces (E:=E) (main.ensureContainers desierdContainers updateCheck).
Proof.
  assert (∀ runningContainers rest,
            announces (E:=E)
              (main.ensureContainers_loop runningContainers rest updateCheck))
    as Hloop.
  { intros runningContainers rest. induction rest; simpl.
    - solve_announces.
    - pose proof ensureOne_announces. solve_announces. }
  unfold main.ensureContainers. solve_announces.
Qed.

Lemma removeUnwantedContainers_announces configs :
  announces (E:=E) (main.removeUnwantedContainers configs).
Proof.
  assert (∀ containers,
            announces (E:=E)
              (main.removeUnwantedContainers_loop containers configs))
    as Hloop.
  { induction containers; simpl; solve_announces. }
  unfold main.removeUnwantedContainers. solve_announces.
Qed.

(** X12: no container is stopped without notice: in every trace of
    [ensureContainers] and of [removeUnwantedContainers], a stop call comes
    directly after a line logged at [Info] that announces it, which says
    that the configuration of the container does not match, that the
    container is not up to date, or that it is not desired. *)
Theorem X12_every_stop_is_announced_at_info
    (desierdContainers : list docker.ContainerConfig) (updateCheck : bool)
    (e : E) :
  stop_is_announced
    (trace_of (main.ensureContainers desierdContainers updateCheck e)) ∧
  stop_is_announced
    (trace_of (main.removeUnwantedContainers desierdContainers e)).
Proof.
  split; apply announced_stop_is_announced.
  - destruct (main.ensureContainers desierdContainers updateCheck e)
      as [[o e'] t] eqn:Hrun. by eapply ensureContainers_announces.
  - destruct (main.removeUnwantedContainers desierdContainers e)
      as [[o e'] t] eqn:Hrun. by eapply removeUnwantedContainers_announces.
Qed.

End AnnouncedStops.

(** ** Indexing the names of a listed container

    Every lookup by name reads [Names[0]] of a listed container, which
    panics on a container without names. *)

Section SafeFacts.
Context {E : Type}.

Lemma safe_ret {A} (a : A) : safe (E:=E) (ret a).
Proof. by intros e. Qed.

Lemma safe_logf l msg : safe (E:=E) (logf l msg).
Proof. by intros e. Qed.

Lemma safe_fatalf {A} msg : safe (E:=E) (A:=A) (fatalf msg).
Proof. by intros e. Qed.

(** A bind is safe when its first part is and what follows is safe on
    every value that the first part can return. *)
Lemma safe_bind_post {A B} (Q : A → Prop) (m : M E A) (f : A → M E B) :
  safe m →
  (∀ e a e1 t1, m e = (Return a, e1, t1) → Q a) →
  (∀ a, Q a → safe (f a)) →
  safe (bind m f).
Proof.
  intros Hm HQ Hf e. specialize (Hm e). specialize (HQ e).
  unfold bind, outcome_of in *.
  destruct (m e) as [[[a|msg|] e1] t1]; simpl in *; [|done..].
  specialize (Hf a (HQ _ _ _ eq_refl) e1). unfold outcome_of in Hf.
  by destruct (f a e1) as [[o e2] t2].
Qed.

Lemma safe_bind {A B} (m : M E A) (f : A → M E B) :
  safe m → (∀ a, safe (f a)) → safe (bind m f).
Proof. intros Hm Hf. apply (safe_bind_post (λ _, True)); auto. Qed.

Lemma safe_index0 (s : list string) : s ≠ [] → safe (E:=E) (index0 s).
Proof. by destruct s. Qed.

End SafeFacts.

Section SafeEngine.
Context {E : Type} `{!client.Client E}.

Lemma safe_call {A} c (op : E → A * E) : safe (lift_call c op).
Proof. intros e. unfold lift_call, outcome_of. by destruct (op e). Qed.

Hypothesis Hnames : lists_names E.

Lemma safe_bind_list {B} (f : result (list types.Container) → M E B) :
  (∀ err, safe (f (Err err))) →
  (∀ containers, Forall hasName containers → safe (f (Ok containers))) →
  safe (bind containerList f).
Proof using Hnames.
  intros Herr Hok.
  apply (safe_bind_post
           (λ r, match r with
                 | Ok containers => Forall hasName containers
                 | Err _ => True
                 end)).
  - apply safe_call.
  - intros e [containers|err] e1 t1; [|done].
    unfold containerList, lift_call.
    destruct (client.ContainerList e) as [r e'] eqn:Hlist.
    intros [= -> -> _]. by eapply Hnames.
  - intros [containers|err]; auto.
Qed.

Lemma safe_bind_ListAll {B}
    (f : list types.Container * option error → M E B) :
  (∀ containers err, safe (f (containers, Some err))) →
  (∀ containers, Forall hasName containers → safe (f (containers, None))) →
  safe (bind docker.ListAllContariners f).
Proof using Hnames.
  intros Herr Hok.
  apply (safe_bind_post
           (λ p, match p.2 with
                 | None => Forall hasName p.1
                 | Some _ => True
                 end)).
  - unfold docker.ListAllContariners. apply safe_bind_list.
    + intros err. apply safe_ret.
    + intros containers _. apply safe_ret.
  - intros e [containers [err|]] e1 t1; [done|]. simpl.
    unfold docker.ListAllContariners, bind, containerList, lift_call.
    destruct (client.ContainerList e) as [[cs|err] e'] eqn:Hlist; [|done].
    intros [= -> -> _]. by eapply Hnames.
  - intros [containers [err|]]; simpl; auto.
Qed.

Ltac step_safe :=
  first
    [ assumption
    | match goal with H : ∀ _, _ |- safe _ => apply H end
    | apply safe_ret | apply safe_logf | apply safe_fatalf | apply safe_call
    | apply safe_index0; assumption
    | apply safe_bind_list; [intros ?|intros ? ?]
    | apply safe_bind_ListAll; [intros ? ?|intros ? ?]
    | apply safe_bind; [|intros ?]
    | match goal with
      | |- safe (if ?b then _ else _) => destruct b
      | |- safe (match ?x with _ => _ end) => destruct x
      end ].
Ltac solve_safe := repeat step_safe.

Lemma findByName_safe containers name :
  Forall hasName containers → safe (E:=E) (docker.findByName containers name).
Proof. induction 1; simpl; solve_safe. Qed.

Lemma idByName_safe containers name :
  Forall hasName containers → safe (E:=E) (docker.idByName containers name).
Proof. induction 1; simpl; solve_safe. Qed.

Lemma findRunning_safe runningContainers container :
  Forall hasName runningContainers →
  safe (E:=E) (main.findRunning runningContainers container).
Proof. induction 1; simpl; solve_safe. Qed.

Lemma isConfigured_safe container configs :
  hasName container → safe (E:=E) (main.isConfigured container configs).
Proof. intros Hc. induction configs; simpl; solve_safe. Qed.

Lemma CreateContainer_safe config : safe (E:=E) (docker.CreateContainer config).
Proof using Hnames.
  unfold docker.CreateContainer, containerCreate.
  pose proof findByName_safe. solve_safe.
Qed.

Lemma DeleteContainer_safe containerId :
  safe (E:=E) (docker.DeleteContainer containerId).
Proof.
  unfold docker.DeleteContainer, containerStop, containerRemove. solve_safe.
Qed.

Lemma GetContainerIDByName_safe name :
  safe (E:=E) (docker.GetContainerIDByName name).
Proof using Hnames.
  unfold docker.GetContainerIDByName. pose proof idByName_safe. solve_safe.
Qed.

Lemma compareConfig_safe inspect config :
  safe (E:=E) (main.compareConfig inspect config).
Proof. unfold main.compareConfig. solve_safe. Qed.

Lemma isContainerUpToDate_safe containerID config :
  safe (E:=E) (main.isContainerUpToDate containerID config).
Proof.
  unfold main.isContainerUpToDate, containerInspect, imagePull, imageList.
  solve_safe.
Qed.

Lemma ensureContainerConfig_loop_safe containers config :
  Forall hasName containers →
  safe (E:=E) (main.ensureContainerConfig_loop containers config).
Proof using Hnames.
  pose proof CreateContainer_safe. pose proof DeleteContainer_safe.
  pose proof compareConfig_safe.
  induction 1; simpl; unfold containerCreate, containerInspect; solve_safe.
Qed.

Lemma ensureContainerConfig_safe config :
  safe (E:=E) (main.ensureContainerConfig config).
Proof using Hnames.
  unfold main.ensureContainerConfig.
  pose proof ensureContainerConfig_loop_safe. solve_safe.
Qed.

Lemma updateStep_safe ctid container :
  safe (E:=E) (main.updateStep ctid container).
Proof using Hnames.
  pose proof CreateContainer_safe. pose proof DeleteContainer_safe.
  pose proof isContainerUpToDate_safe. pose proof GetContainerIDByName_safe.
  unfold main.updateStep. solve_safe.
Qed.

Lemma ensureOne_safe runningContainers container updateCheck :
  Forall hasName runningContainers →
  safe (E:=E) (main.ensureOne runningContainers container updateCheck).
Proof using Hnames.
  intros Hrunning.
  pose proof CreateContainer_safe. pose proof ensureContainerConfig_safe.
  pose proof updateStep_safe. pose proof GetContainerIDByName_safe.
  pose proof (findRunning_safe runningContainers container Hrunning).
  unfold main.ensureOne, docker.EnsureRunningContainers, containerStart.
  solve_safe.
Qed.

Lemma ensureContainers_safe desierdContainers updateCheck :
  safe (E:=E) (main.ensureContainers desierdContainers updateCheck).
Proof using Hnames.
  assert (∀ runningContainers rest,
            Forall hasName runningContainers →
            safe (E:=E)
              (main.ensureContainers_loop runningContainers rest updateCheck))
    as Hloop.
  { intros runningContainers rest Hrunning.
    pose proof (λ c, ensureOne_safe runningContainers c updateCheck Hrunning).
    induction rest; simpl; solve_safe. }
  unfold main.ensureContainers. solve_safe.
Qed.

Lemma removeUnwantedContainers_safe configs :
  safe (E:=E) (main.removeUnwantedContainers configs).
Proof using Hnames.
  assert (∀ containers,
            Forall hasName containers →
            safe (E:=E) (main.removeUnwantedContainers_loop containers configs))
    as Hloop.
  { pose proof DeleteContainer_safe.
    induction 1 as [|container containers Hc _ IH]; simpl; [solve_safe|].
    pose proof (isConfigured_safe container configs Hc). solve_safe. }
  unfold main.removeUnwantedContainers. solve_safe.
Qed.

End SafeEngine.

Section SafeHandlers.
Context {E : Type} `{!client.Client E} `{!nat.Lib}.

Lemma on_world_safe {A} (m : M E A) : safe m → safe (main.on_world m).
Proof.
  intros Hm p. specialize (Hm (main.world p)).
  unfold main.on_world, outcome_of in *.
  by destruct (m (main.world p)) as [[o e] t].
Qed.

Lemma convertConfig_safe : safe (E:=main.process E) main.convertConfig.
Proof.
  intros p. unfold main.convertConfig, outcome_of.
  by destruct (config.ConfigToDockerConfig _ _) as [r containers'].
Qed.

Lemma getCfg_safe : safe (E:=main.process E) main.getCfg.
Proof. by intros p. Qed.

(** X13: as long as every container that the engine lists has a name, an
    /update never panics: no lookup by name of the pruner or of the pass
    indexes an empty list of names. *)
Theorem X13_update_never_panics_when_containers_have_names :
  lists_names E →
  ∀ p : main.process E, outcome_of (main.reconcileContainers p) ≠ Panic.
Proof.
  intros Hnames. change (safe (E:=main.process E) main.reconcileContainers).
  unfold main.reconcileContainers.
  apply safe_bind; [apply convertConfig_safe|].
  intros [containers [err|]]; [apply safe_fatalf|].
  apply safe_bind; [apply getCfg_safe|]. intros cfg.
  apply safe_bind.
  { destruct (config.RemoveUnwantedContainers _); [|apply safe_ret].
    apply safe_bind.
    - by apply on_world_safe, removeUnwantedContainers_safe.
    - intros [err|]; [apply safe_fatalf|apply safe_ret]. }
  intros _. apply safe_bind; [apply getCfg_safe|]. intros cfg'.
  apply safe_bind.
  - by apply on_world_safe, ensureContainers_safe.
  - intros [err|]; [apply safe_fatalf|apply safe_ret].
Qed.

End SafeHandlers.

(** Without a name the first lookup panics: the pruner on a listing whose
    first container has no name. *)
Lemma removeUnwantedContainers_panics_without_name
    {E : Type} `{!client.Client E} (configs : list docker.ContainerConfig)
    (e e1 : E) (container : types.Container) (rest : list types.Container) :
  client.ContainerList e = (Ok (container :: rest), e1) →
  types.Names container = [] →
  outcome_of (main.removeUnwantedContainers configs e) = Panic.
Proof.
  intros Hlist Hnames. unfold main.removeUnwantedContainers.
  unfold docker.ListAllContariners.
  rewrite (bind_run _ _ _ (container :: rest, None) e1 [Call CallContainerList]).
  2:{ by rewrite (bind_run _ _ _ _ _ _ (run_list _ _ _ Hlist)). }
  simpl. destruct configs as [|config configs]; simpl;
    unfold bind, index0, outcome_of; by rewrite Hnames.
Qed.

(** The reference engine lists every container under its name. *)
Lemma sim_lists_names : lists_names sim.engine.
Proof.
  intros e e' containers [= <- _]. apply Forall_forall.
  intros c (x & -> & _)%list_elem_of_fmap. done.
Qed.

Lemma X13_update_never_panics_when_containers_have_names_witness :
  outcome_of (main.reconcileContainers samples.ready) ≠ Panic.
Proof.
  apply (X13_update_never_panics_when_containers_have_names sim_lists_names
           samples.ready).
Defined.

(** ** main: the handlers of /update and /reload when nothing fails *)

Section HandlerMore.
Context {E : Type} `{!client.Client E} `{!os.FS E}.
Context `{!nat.Lib} `{!config.YamlLib}.

(** From a response of /update back to what was run. *)
Lemma reconcileContainers_inv (p p' : main.process E) (r : main.response)
    (t : list event) :
  main.reconcileContainers p = (Return r, p', t) →
  r = main.Fprint ("Containers reconciled" +:+ nl) ∧
  main.cfg p' = main.cfg p ∧
  config.ConfigToDockerConfig (main.cfg p) (main.config_containers p)
  = ((main.config_containers p', None), main.config_containers p') ∧
  ∃ e1 t1 t2,
    (if config.RemoveUnwantedContainers (config.appConfig (main.cfg p))
     then main.removeUnwantedContainers (main.config_containers p')
            (main.world p) = (Return None, e1, t1)
     else e1 = main.world p ∧ t1 = []) ∧
    main.ensureContainers (main.config_containers p')
      (config.UpdateCheck (config.appConfig (main.cfg p))) e1
    = (Return None, main.world p', t2) ∧
    t = t1 ++ t2.
Proof.
  destruct p as [w c g]. unfold main.reconcileContainers. simpl.
  intros Hrun. apply bind_inv in Hrun. unfold main.convertConfig in Hrun.
  simpl in Hrun.
  pose proof (ConfigToDockerConfig_appends c g) as Happ.
  destruct (config.ConfigToDockerConfig c g) as [[specs [err|]] g'] eqn:Hconv;
    destruct Hrun as (t0 & Hrun & ->); [done|].
  destruct Happ as (-> & _).
  apply bind_inv in Hrun. simpl in Hrun. destruct Hrun as (t1 & Hrun & ->).
  apply bind_inv in Hrun.
  destruct (config.RemoveUnwantedContainers (config.appConfig c)) eqn:Hflag.
  - match type of Hrun with
    | match ?m ?s with _ => _ end =>
        destruct (m s) as [[[[]|msg|] p1] tp] eqn:Hprune
    end; try (by destruct Hrun as ([=] & _)).
    destruct Hrun as (t2 & Hrun & ->).
    apply bind_inv in Hprune. unfold main.on_world in Hprune. simpl in Hprune.
    destruct (main.removeUnwantedContainers specs w)
      as [[[[perr|]|msg|] e1] t3] eqn:Hp;
      try (by destruct Hprune as ([=] & _));
      destruct Hprune as (t4 & Hprune & ->); [done|].
    injection Hprune as <- <-.
    apply bind_inv in Hrun. simpl in Hrun. destruct Hrun as (t5 & Hrun & ->).
    apply bind_inv in Hrun. unfold main.on_world in Hrun. simpl in Hrun.
    destruct (main.ensureContainers specs _ e1)
      as [[[[eerr|]|msg|] e2] t6] eqn:He;
      try (by destruct Hrun as ([=] & _));
      destruct Hrun as (t7 & Hrun & ->); [done|].
    injection Hrun as <- <- <-. simpl.
    split; [done|]. split; [done|]. split; [done|].
    exists e1, t3, t6. by rewrite !app_nil_r.
  - simpl in Hrun. destruct Hrun as (t2 & Hrun & ->).
    apply bind_inv in Hrun. simpl in Hrun. destruct Hrun as (t5 & Hrun & ->).
    apply bind_inv in Hrun. unfold main.on_world in Hrun. simpl in Hrun.
    destruct (main.ensureContainers specs _ w)
      as [[[[eerr|]|msg|] e2] t6] eqn:He;
      try (by destruct Hrun as ([=] & _));
      destruct Hrun as (t7 & Hrun & ->); [done|].
    injection Hrun as <- <- <-. simpl.
    split; [done|]. split; [done|]. split; [done|].
    exists w, [], t6. by rewrite !app_nil_r.
Qed.

(** From what is run to the response of /update. *)
Lemma reconcileContainers_run (p : main.process E)
    (specs : list docker.ContainerConfig) (e1 e2 : E) (t1 t2 : list event) :
  config.ConfigToDockerConfig (main.cfg p) (main.config_containers p)
  = ((specs, None), specs) →
  (if config.RemoveUnwantedContainers (config.appConfig (main.cfg p))
   then main.removeUnwantedContainers specs (main.world p)
        = (Return None, e1, t1)
   else e1 = main.world p ∧ t1 = []) →
  main.ensureContainers specs
    (config.UpdateCheck (config.appConfig (main.cfg p))) e1
  = (Return None, e2, t2) →
  main.reconcileContainers p
  = (Return (main.Fprint ("Containers reconciled" +:+ nl)),
     main.mkProcess e2 (main.cfg p) specs, t1 ++ t2).
Proof.
  destruct p as [w c g]. simpl. intros Hconv Hprune Hensure.
  unfold main.reconcileContainers.
  rewrite (bind_run _ _ _ (specs, None) (main.mkProcess w c specs) [])
    by (unfold main.convertConfig; simpl; by rewrite Hconv).
  rewrite (bind_run _ _ _ c (main.mkProcess w c specs) []) by done.
  destruct (config.RemoveUnwantedContainers (config.appConfig c)).
  - rewrite (bind_run _ _ _ tt (main.mkProcess e1 c specs) t1).
    2:{ erewrite bind_run by (unfold main.on_world; simpl; by rewrite Hprune).
        unfold ret. by rewrite app_nil_r. }
    rewrite (bind_run _ _ _ c (main.mkProcess e1 c specs) []) by done.
    erewrite bind_run by (unfold main.on_world; simpl; by rewrite Hensure).
    unfold ret. by rewrite app_nil_r.
  - destruct Hprune as [-> ->].
    rewrite (bind_run _ _ _ tt (main.mkProcess w c specs) []) by done.
    rewrite (bind_run _ _ _ c (main.mkProcess w c specs) []) by done.
    erewrite bind_run by (unfold main.on_world; simpl; by rewrite Hensure).
    unfold ret. by rewrite app_nil_r.
Qed.

(** X14: the only response that [reconcileContainers] ever writes is the
    body ["Containers reconciled"], and it writes it exactly when the
    conversion of the current configuration succeeds, the pruner, if
    [remove_unwanted_containers] is set, returns nil, and the pass, run on
    the engine as the pruner has left it, returns nil.  Pruner and pass
    are given the same list, which is the whole package variable after the
    conversion; the pass is given the [update_check] flag; the
    configuration is left as it was; and the trace is that of the pruner
    followed by that of the pass. *)
Theorem X14_update_answers_after_prune_then_pass (p : main.process E) :
  (∀ r p' t,
     main.reconcileContainers p = (Return r, p', t) →
     r = main.Fprint ("Containers reconciled" +:+ nl)) ∧
  (∀ p' t,
     main.reconcileContainers p
     = (Return (main.Fprint ("Containers reconciled" +:+ nl)), p', t)
     ↔
     main.cfg p' = main.cfg p ∧
     config.ConfigToDockerConfig (main.cfg p) (main.config_containers p)
     = ((main.config_containers p', None), main.config_containers p') ∧
     ∃ e1 t1 t2,
       (if config.RemoveUnwantedContainers (config.appConfig (main.cfg p))
        then main.removeUnwantedContainers (main.config_containers p')
               (main.world p) = (Return None, e1, t1)
        else e1 = main.world p ∧ t1 = []) ∧
       main.ensureContainers (main.config_containers p')
         (config.UpdateCheck (config.appConfig (main.cfg p))) e1
       = (Return None, main.world p', t2) ∧
       t = t1 ++ t2).
Proof.
  split.
  { intros r p' t Hrun. by apply reconcileContainers_inv in Hrun as (-> & _). }
  intros p' t. split.
  - intros Hrun. by apply reconcileContainers_inv in Hrun as (_ & Hrun).
  - intros (Hcfg & Hconv & e1 & t1 & t2 & Hprune & Hensure & ->).
    rewrite (reconcileContainers_run p _ e1 _ t1 t2 Hconv Hprune Hensure).
    destruct p' as [w' c' g']. simpl in *. by rewrite Hcfg.
Qed.

Lemma reloadConfig_run (p : main.process E) :
  match config.Read (main.world p) with
  | Ok newcfg =>
      main.reloadConfig p
      = (Return (main.Fprint ("Config reloaded" +:+ nl)),
         main.mkProcess (main.world p) newcfg (main.config_containers p),
         [Log Debug "New config"; Log Info "Config reloaded"])
  | Err err =>
      main.reloadConfig p
      = (Exit ("Error reloading config: error reading config: " +:+ err),
         p, [])
  end.
Proof.
  unfold main.reloadConfig, main.updateConfig, bind, fatalf.
  by destruct (config.Read (main.world p)) as [newcfg|err].
Qed.

(** X15: a /reload that is answered has asked nothing of the engine and
    has left the engine and the package variable of the conversion as they
    were; and the /update that is answered after it has converted the
    configuration that the reload has read from [config.yaml]: the list it
    reconciles is what the package variable held before the reload,
    followed by one spec for each container that the new configuration
    declares.  A reload alone does not drop the specs of the configuration
    it replaces. *)
Theorem X15_update_after_reload_appends_the_new_specs
    (p p1 p2 : main.process E) (r1 r2 : main.response) (t1 t2 : list event) :
  main.reloadConfig p = (Return r1, p1, t1) →
  main.reconcileContainers p1 = (Return r2, p2, t2) →
  config.Read (main.world p) = Ok (main.cfg p2) ∧
  main.world p1 = main.world p ∧
  main.config_containers p1 = main.config_containers p ∧
  calls t1 = [] ∧
  ∃ fresh,
    main.config_containers p2 = main.config_containers p ++ fresh ∧
    Forall2 converts (config.Containers (main.cfg p2)) fresh.
Proof.
  intros Hreload Hupdate.
  pose proof (reloadConfig_run p) as Hrun.
  destruct (config.Read (main.world p)) as [newcfg|err];
    rewrite Hrun in Hreload; [|done].
  injection Hreload as <- <- <-.
  apply reconcileContainers_inv in Hupdate as (_ & Hcfg & Hconv & _).
  simpl in *. rewrite Hcfg. do 4 (split; [done|]).
  pose proof (ConfigToDockerConfig_appends newcfg (main.config_containers p))
    as Happ.
  rewrite Hconv in Happ. destruct Happ as (_ & fresh & Hfresh & Hall).
  by exists fresh.
Qed.

End HandlerMore.

Lemma X14_update_answers_after_prune_then_pass_witness :
  config.ConfigToDockerConfig inputs.readme []
  = ((main.config_containers
        (state_of (main.reconcileContainers samples.ready)), None),
     main.config_containers
       (state_of (main.reconcileContainers samples.ready))).
Proof.
  refine (proj1 (proj2
    (proj1 (proj2 (X14_update_answers_after_prune_then_pass samples.ready)
              (state_of (main.reconcileContainers samples.ready))
              (trace_of (main.reconcileContainers samples.ready))) _))).
  vm_compute. reflexivity.
Defined.

Lemma X15_update_after_reload_appends_the_new_specs_witness :
  let p1 :=
    state_of (@main.reloadConfig sim.engine _ cases.documents
                cases.reloadable) in
  let p2 := state_of (main.reconcileContainers p1) in
  @config.Read sim.engine _ cases.documents (main.world cases.reloadable)
  = Ok (main.cfg p2) ∧
  main.world p1 = main.world cases.reloadable ∧
  main.config_containers p1 = [samples.web] ∧
  calls (trace_of (@main.reloadConfig sim.engine _ cases.documents
                     cases.reloadable)) = [] ∧
  ∃ fresh,
    main.config_containers p2 = [samples.web] ++ fresh ∧
    Forall2 converts (config.Containers (main.cfg p2)) fresh.
Proof.
  refine (@X15_update_after_reload_appends_the_new_specs sim.engine _ _ _
            cases.documents cases.reloadable _ _
            (main.Fprint ("Config reloaded" +:+ nl))
            (main.Fprint ("Containers reconciled" +:+ nl)) _ _ _ _).
  - vm_compute. reflexivity.
  - vm_compute. reflexivity.
Defined.

(** After the reload, the /update creates and starts [web], which the
    configuration read from [config.yaml] no longer declares, and then
    [nginx_1], which it declares. *)
Example update_after_reload_keeps_the_old_spec :
  infos (trace_of (main.reconcileContainers
                     (state_of (@main.reloadConfig sim.engine _ cases.documents
                                  cases.reloadable))))
  = ["Container web created"; "Container web ensured" +:+ nl;
     "Container nginx_1 created"; "Container nginx_1 ensured" +:+ nl].
Proof. vm_compute. reflexivity. Qed.

(** ** main: the stats handler, from the answers of the engine *)

Lemma run_first_rtc (n : nat) (s : main.gm_state) :
  rtc main.gm_step s (run_first n s).
Proof.
  revert s. induction n as [|n IH]; intros s; simpl; [done|].
  destruct (main.successors s) as [|s' rest] eqn:Hsucc; [done|].
  eapply rtc_l; [|apply IH]. unfold main.gm_step. rewrite Hsucc. left.
Qed.

Lemma run_last_rtc (n : nat) (s : main.gm_state) :
  rtc main.gm_step s (run_last n s).
Proof.
  revert s. induction n as [|n IH]; intros s; simpl; [done|].
  destruct (last (main.successors s)) as [s'|] eqn:Hlast; [|done].
  eapply rtc_l; [|apply IH]. unfold main.gm_step.
  by apply last_Some_elem_of.
Qed.

Section ScrapeMore.
Context {E : Type} `{!client.Client E}.

Lemma statsTask_samples (containerID : string) (reply : types.StatsReply) :
  statsOf (main.statsTask containerID reply)
  = match reply with
    | types.StatsBody _ _ decoded => [decoded]
    | types.StatsFailed _ => []
    end.
Proof. by destruct reply as [err|[r|] [u|] decoded]. Qed.

Lemma statsTask_errors (containerID : string) (reply : types.StatsReply) :
  ¬ twice_failed reply →
  (length (errsOf (main.statsTask containerID reply)) ≤ 1)%nat.
Proof.
  destruct reply as [err|[r|] [u|] decoded]; simpl; intros Hn; (done || lia).
Qed.

Lemma statsTask_length (containerID : string) (reply : types.StatsReply) :
  (length (main.statsTask containerID reply) ≤ 3)%nat.
Proof. destruct reply as [err|[r|] [u|] decoded]; simpl; lia. Qed.

(** The state in which the handler has started its goroutines. *)
Lemma GenerateMetrics_init (dm : metrics.DockerMetrics) (e e' : E)
    (containers : list types.Container) :
  client.ContainerList e = (Ok containers, e') →
  main.GenerateMetrics dm e
  = main.mkGm
      (map (λ container,
              main.statsTask (types.ID container)
                (client.ContainerStats (types.ID container) e'))
           containers)
      (length containers) [] false [] false main.RangeStats dm.
Proof.
  intros Hlist.
  unfold main.GenerateMetrics, docker.ListAllContariners, bind, containerList,
    lift_call. by rewrite Hlist.
Qed.

Lemma pendingS_sent (e' : E) (containers : list types.Container) :
  pendingS
    (map (λ container,
            main.statsTask (types.ID container)
              (client.ContainerStats (types.ID container) e'))
         containers)
  = sent_samples containers e'.
Proof.
  unfold pendingS, sent_samples.
  induction containers as [|c containers IH]; [done|]. simpl.
  rewrite IH, statsTask_samples.
  by destruct (client.ContainerStats (types.ID c) e').
Qed.

Lemma pendingErrs_fit (e' : E) (containers : list types.Container) :
  (∀ container, container ∈ containers →
     ¬ twice_failed (client.ContainerStats (types.ID container) e')) →
  (pendingErrs
     (map (λ container,
             main.statsTask (types.ID container)
               (client.ContainerStats (types.ID container) e'))
          containers)
   ≤ length containers)%nat.
Proof.
  unfold pendingErrs, pendingE.
  induction containers as [|c containers IH]; intros Hall; [done|]. simpl.
  rewrite length_app.
  pose proof (statsTask_errors (types.ID c)
                (client.ContainerStats (types.ID c) e')
                (Hall c (list_elem_of_here _ _))).
  assert (length (List.concat
            (map errsOf
               (map (λ container,
                       main.statsTask (types.ID container)
                         (client.ContainerStats (types.ID container) e'))
                  containers))) ≤ length containers)%nat.
  { apply IH. intros c' Hin. apply Hall. by right. }
  lia.
Qed.

Lemma scrape_inv_init (dm : metrics.DockerMetrics) (e e' : E)
    (containers : list types.Container) :
  client.ContainerList e = (Ok containers, e') →
  scrape_inv (pendingE (main.tasks (main.GenerateMetrics dm e)))
    (sent_samples containers e') dm (main.GenerateMetrics dm e).
Proof.
  intros Hlist. rewrite (GenerateMetrics_init _ _ _ _ Hlist).
  unfold scrape_inv. simpl.
  split; [by rewrite length_map|]. split; [done|]. split; [done|].
  split; [|done]. exists []. split; [done|]. simpl. by rewrite pendingS_sent.
Qed.

Lemma scrape_inv_reachable (errs : list error) (stats : list types.StatsJSON)
    (dm0 : metrics.DockerMetrics) (s s' : main.gm_state) :
  scrape_inv errs stats dm0 s → rtc main.gm_step s s' →
  scrape_inv errs stats dm0 s'.
Proof.
  intros Hinv Hrtc. revert s' Hrtc. apply rtc_ind_r; [done|].
  intros s1 s2 _ Hstep Hs1. by eapply scrape_inv_step.
Qed.

(** X16: a scrape in which no stats query fails both in reading and in
    decoding its body is answered in every run: when no goroutine can
    take a step any more, the handler has responded.  By then the gauges
    have been set from one sample for every container whose stats query
    returned a body, whether or not the body could be read and decoded,
    the samples taken in some order.  The response is the metrics page
    when no goroutine had an error to send, and otherwise the one server
    error (status 500) whose text lists the errors of all goroutines, each
    once. *)
Theorem X16_scrape_answers_and_records_every_body
    (dm : metrics.DockerMetrics) (e e' : E)
    (containers : list types.Container) (s : main.gm_state) :
  client.ContainerList e = (Ok containers, e') →
  (∀ container, container ∈ containers →
     ¬ twice_failed (client.ContainerStats (types.ID container) e')) →
  rtc main.gm_step (main.GenerateMetrics dm e) s →
  main.successors s = [] →
  ∃ received r,
    received ≡ₚ sent_samples containers e' ∧
    main.dm s = fold_left metrics.UpdateMetrics received dm ∧
    main.pc s = main.Responded r ∧
    match r with
    | main.ServeMetrics dm' =>
        dm' = main.dm s ∧
        pendingE (main.tasks (main.GenerateMetrics dm e)) = []
    | main.HttpError msg code =>
        code = main.StatusInternalServerError ∧
        ∃ errorMsgs,
          errorMsgs ≠ [] ∧
          errorMsgs ≡ₚ pendingE (main.tasks (main.GenerateMetrics dm e)) ∧
          msg = "Errors occurred: " +:+ main.Sprint_v errorMsgs
    | main.Fprint _ => False
    end.
Proof.
  intros Hlist Honce Hrtc Hend.
  destruct (scrape_reports_when_errors_fit dm e e' containers s Hlist)
    as (r & received & Hpc & Hrec & Hdm & Hresp); [|done..|].
  { rewrite (GenerateMetrics_init _ _ _ _ Hlist). simpl.
    by apply pendingErrs_fit. }
  exists received, r.
  rewrite (GenerateMetrics_init _ _ _ _ Hlist) in Hrec. simpl in Hrec.
  rewrite pendingS_sent in Hrec.
  split; [done|]. split; [done|]. split; [done|].
  destruct Hresp as [[Hnone ->]|(Hsome & errorMsgs & Hperm & ->)]; [done|].
  split; [done|]. exists errorMsgs. split; [|done].
  intros ->. apply Hsome. by apply Permutation_nil_l in Hperm.
Qed.

(** X17: no run of a scrape goes on for ever: with [n] listed containers,
    the goroutines, the closer and the handler take at most [9 * n + 4]
    steps between them, whatever the stats queries answer.  A scrape that
    is not answered is blocked, not busy. *)
Theorem X17_scrape_takes_boundedly_many_steps
    (dm : metrics.DockerMetrics) (e e' : E)
    (containers : list types.Container) (k : nat) (s : main.gm_state) :
  client.ContainerList e = (Ok containers, e') →
  nsteps main.gm_step k (main.GenerateMetrics dm e) s →
  (k ≤ 9 * length containers + 4)%nat.
Proof.
  intros Hlist Hrun. apply runs_are_finite in Hrun.
  rewrite (GenerateMetrics_init _ _ _ _ Hlist) in Hrun.
  unfold fuel at 2 in Hrun. simpl in Hrun.
  assert (sum_list_with length
            (map (λ container,
                    main.statsTask (types.ID container)
                      (client.ContainerStats (types.ID container) e'))
               containers) ≤ 3 * length containers)%nat; [|lia].
  clear. induction containers as [|c containers IH]; simpl; [lia|].
  pose proof (statsTask_length (types.ID c)
                (client.ContainerStats (types.ID c) e')). lia.
Qed.

End ScrapeMore.

(** ** pkg/metrics: the gauges as a function of the samples *)

Lemma UpdateMetrics_comm (dm : metrics.DockerMetrics)
    (s1 s2 : types.StatsJSON) :
  labels s1 ≠ labels s2 →
  metrics.UpdateMetrics (metrics.UpdateMetrics dm s1) s2
  = metrics.UpdateMetrics (metrics.UpdateMetrics dm s2) s1.
Proof.
  intros Hne. unfold metrics.UpdateMetrics, labels in *. simpl.
  f_equal; by apply insert_insert_ne.
Qed.

Lemma fold_UpdateMetrics_perm (l l' : list types.StatsJSON) :
  l ≡ₚ l' → NoDup (map labels l) →
  ∀ dm, fold_left metrics.UpdateMetrics l dm
        = fold_left metrics.UpdateMetrics l' dm.
Proof.
  induction 1 as [|x l l' Hperm IH|x y l|l l' l'' H1 IH1 H2 IH2];
    intros Hnd dm; simpl.
  - done.
  - apply IH. by apply NoDup_cons_1_2 in Hnd.
  - rewrite UpdateMetrics_comm; [done|].
    simpl in Hnd. apply NoDup_cons in Hnd as [Hnotin _].
    intros Heq. apply Hnotin. rewrite Heq. left.
  - rewrite IH1 by done. apply IH2. by rewrite <- H1.
Qed.

Lemma UpdateMetrics_other (dm : metrics.DockerMetrics)
    (stats : types.StatsJSON) (l : string * string) :
  l ≠ labels stats → gauges (metrics.UpdateMetrics dm stats) l = gauges dm l.
Proof.
  intros Hne. unfold gauges, metrics.UpdateMetrics, labels in *. simpl.
  by rewrite !lookup_insert_ne.
Qed.

Lemma fold_UpdateMetrics_other (received : list types.StatsJSON)
    (dm : metrics.DockerMetrics) (l : string * string) :
  l ∉ map labels received →
  gauges (fold_left metrics.UpdateMetrics received dm) l = gauges dm l.
Proof.
  revert dm. induction received as [|x received IH]; intros dm Hl; [done|].
  simpl in *. apply not_elem_of_cons in Hl as [Hne Hl].
  rewrite IH by done. by apply UpdateMetrics_other.
Qed.

Section ScrapeGauges.
Context {E : Type} `{!client.Client E}.

(** X18: the gauges that a scrape leaves do not depend on the order in
    which the goroutines run: when the samples sent have pairwise distinct
    label values, then as soon as the handler has responded the gauges are
    those obtained by applying [UpdateMetrics] to the samples in the order
    of the listing. *)
Theorem X18_gauges_do_not_depend_on_the_interleaving
    (dm : metrics.DockerMetrics) (e e' : E)
    (containers : list types.Container) (s : main.gm_state)
    (r : main.response) :
  client.ContainerList e = (Ok containers, e') →
  NoDup (map labels (sent_samples containers e')) →
  rtc main.gm_step (main.GenerateMetrics dm e) s →
  main.pc s = main.Responded r →
  main.dm s
  = fold_left metrics.UpdateMetrics (sent_samples containers e') dm.
Proof.
  intros Hlist Hnd Hrtc Hpc.
  pose proof (scrape_inv_reachable _ _ _ _ _
                (scrape_inv_init dm e e' containers Hlist) Hrtc)
    as (_ & Hdone & _ & (received & -> & Hperm) & Hresp).
  rewrite Hpc in Hresp. destruct Hresp as (Hclosed & Hchan & _).
  destruct (Hdone Hclosed) as [_ HS].
  rewrite Hchan, HS, !app_nil_r in Hperm.
  apply fold_UpdateMetrics_perm; [done|]. by rewrite Hperm.
Qed.

(** X19: a scrape changes the gauges of the label values of the samples
    that are sent, and no others: at every point of every run, the eleven
    gauges of any other pair of label values hold what they held when the
    scrape began.  In particular the gauges of a container that is no
    longer listed are never reset or removed. *)
Theorem X19_scrape_leaves_other_gauges_alone
    (dm : metrics.DockerMetrics) (e e' : E)
    (containers : list types.Container) (s : main.gm_state)
    (l : string * string) :
  client.ContainerList e = (Ok containers, e') →
  rtc main.gm_step (main.GenerateMetrics dm e) s →
  l ∉ map labels (sent_samples containers e') →
  gauges (main.dm s) l = gauges dm l.
Proof.
  intros Hlist Hrtc Hl.
  pose proof (scrape_inv_reachable _ _ _ _ _
                (scrape_inv_init dm e e' containers Hlist) Hrtc)
    as (_ & _ & _ & (received & -> & Hperm) & _).
  apply fold_UpdateMetrics_other. intros Hin. apply Hl.
  apply list_elem_of_fmap in Hin as (x & -> & Hx).
  apply list_elem_of_fmap. exists x. split; [done|].
  rewrite <- Hperm. apply elem_of_app. by left.
Qed.

End ScrapeGauges.

(** X20: of the samples for one pair of label values, the last one
    applied decides all eleven gauges: after [UpdateMetrics] has been
    applied to a list of samples, the gauges of the label values of a
    sample that no later sample shares are the ones derived from that
    sample alone, whatever was applied before. *)
Theorem X20_last_sample_for_labels_wins
    (pre : list types.StatsJSON) (stats : types.StatsJSON)
    (post : list types.StatsJSON) (dm : metrics.DockerMetrics) :
  labels stats ∉ map labels post →
  gauges (fold_left metrics.UpdateMetrics (pre ++ stats :: post) dm)
    (labels stats)
  = gauges (metrics.UpdateMetrics metrics.NewDockerMetrics stats)
      (labels stats).
Proof.
  intros Hpost. rewrite fold_left_app. simpl.
  rewrite fold_UpdateMetrics_other by done.
  unfold gauges, metrics.UpdateMetrics, labels. simpl.
  by rewrite !lookup_insert_eq.
Qed.

Lemma X16_scrape_answers_and_records_every_body_witness :
  let init :=
    main.GenerateMetrics metrics.NewDockerMetrics samples.half_failing in
  let s := run_first 20 init in
  ∃ received r,
    received
    ≡ₚ sent_samples (samples.observed samples.half_failing)
         samples.half_failing ∧
    main.dm s
    = fold_left metrics.UpdateMetrics received metrics.NewDockerMetrics ∧
    main.pc s = main.Responded r ∧
    match r with
    | main.ServeMetrics dm' =>
        dm' = main.dm s ∧ pendingE (main.tasks init) = []
    | main.HttpError msg code =>
        code = main.StatusInternalServerError ∧
        ∃ errorMsgs,
          errorMsgs ≠ [] ∧
          errorMsgs ≡ₚ pendingE (main.tasks init) ∧
          msg = "Errors occurred: " +:+ main.Sprint_v errorMsgs
    | main.Fprint _ => False
    end.
Proof.
  apply (X16_scrape_answers_and_records_every_body metrics.NewDockerMetrics
           samples.half_failing samples.half_failing
           (samples.observed samples.half_failing)
           (run_first 20
              (main.GenerateMetrics metrics.NewDockerMetrics
                 samples.half_failing))).
  - reflexivity.
  - intros container Hin.
    repeat (apply elem_of_cons in Hin as [->|Hin]; [by vm_compute|]).
    by apply elem_of_nil in Hin.
  - apply run_first_rtc.
  - vm_compute. reflexivity.
Defined.

(** One container whose stats body is read but cannot be decoded: every
    run ends with the server error that carries the one error, after the
    gauges have been set from the sample that the decoder has left, under
    empty label values. *)
Example undecodable_sample_is_recorded (s : main.gm_state) :
  rtc main.gm_step
    (main.GenerateMetrics metrics.NewDockerMetrics cases.undecodable) s →
  main.successors s = [] →
  cases.reported_under_empty_labels s.
Proof.
  revert s. apply (all_ends_sound 20 cases.reported_under_empty_labels).
  vm_compute. reflexivity.
Qed.

Lemma X17_scrape_takes_boundedly_many_steps_witness :
  (1 ≤ 9 * length (samples.observed samples.truncated) + 4)%nat.
Proof.
  apply (X17_scrape_takes_boundedly_many_steps metrics.NewDockerMetrics
           samples.truncated samples.truncated
           (samples.observed samples.truncated) 1 samples.blocked).
  - reflexivity.
  - apply nsteps_once. unfold main.gm_step.
    replace (main.successors
               (main.GenerateMetrics metrics.NewDockerMetrics samples.truncated))
      with [samples.blocked] by (vm_compute; reflexivity).
    apply list_elem_of_here.
Defined.

Lemma X18_gauges_do_not_depend_on_the_interleaving_witness :
  sent_samples (samples.observed cases.both_reporting) cases.both_reporting
  = [cases.web_stats; samples.db_stats] ∧
  main.dm (run_last 20
             (main.GenerateMetrics metrics.NewDockerMetrics
                cases.both_reporting))
  = fold_left metrics.UpdateMetrics
      (sent_samples (samples.observed cases.both_reporting)
         cases.both_reporting)
      metrics.NewDockerMetrics.
Proof.
  split; [reflexivity|].
  eapply (X18_gauges_do_not_depend_on_the_interleaving
            metrics.NewDockerMetrics cases.both_reporting cases.both_reporting
            (samples.observed cases.both_reporting)
            (run_last 20
               (main.GenerateMetrics metrics.NewDockerMetrics
                  cases.both_reporting))).
  - reflexivity.
  - apply NoDup_cons. split; [|apply NoDup_singleton].
    intros Hin. apply list_elem_of_singleton in Hin. discriminate Hin.
  - apply run_last_rtc.
  - vm_compute. reflexivity.
Defined.

(** In that run the sample of [db], the second container of the listing,
    is the first that the handler receives: the goroutines do not report
    in the order of the listing. *)
Example last_listed_reports_first :
  let init :=
    main.GenerateMetrics metrics.NewDockerMetrics cases.both_reporting in
  main.statsChan (run_last 1 init) = [samples.db_stats] ∧
  main.dm (run_last 2 init)
  = metrics.UpdateMetrics metrics.NewDockerMetrics samples.db_stats ∧
  main.tasks (run_last 2 init) = [[main.SendStats cases.web_stats]; []].
Proof. vm_compute. repeat split. Qed.

Lemma X19_scrape_leaves_other_gauges_alone_witness :
  gauges
    (main.dm (run_first 20
                (main.GenerateMetrics
                   (metrics.UpdateMetrics metrics.NewDockerMetrics
                      samples.still)
                   samples.half_failing)))
    ("c1", "/web")
  = gauges (metrics.UpdateMetrics metrics.NewDockerMetrics samples.still)
      ("c1", "/web").
Proof.
  apply (X19_scrape_leaves_other_gauges_alone
           (metrics.UpdateMetrics metrics.NewDockerMetrics samples.still)
           samples.half_failing samples.half_failing
           (samples.observed samples.half_failing)
           (run_first 20
              (main.GenerateMetrics
                 (metrics.UpdateMetrics metrics.NewDockerMetrics
                    samples.still)
                 samples.half_failing))
           ("c1", "/web")).
  - reflexivity.
  - apply run_first_rtc.
  - intros Hin. apply list_elem_of_singleton in Hin. discriminate Hin.
Defined.

Lemma X20_last_sample_for_labels_wins_witness :
  gauges (fold_left metrics.UpdateMetrics [samples.still; samples.frozen]
            metrics.NewDockerMetrics)
    ("c1", "/web")
  = gauges (metrics.UpdateMetrics metrics.NewDockerMetrics samples.frozen)
      ("c1", "/web").
Proof.
  apply (X20_last_sample_for_labels_wins [samples.still] samples.frozen []
           metrics.NewDockerMetrics).
  apply not_elem_of_nil.
Defined.

(** ** pkg/metrics: the totals and the derived values of one sample *)

Lemma uint64_add_l (a x : Z) :
  metrics.uint64 (metrics.uint64 a + x) = metrics.uint64 (a + x).
Proof. unfold metrics.uint64. apply Zplus_mod_idemp_l. Qed.

Lemma total_Permutation (l k : list Z) : l ≡ₚ k → total l = total k.
Proof. unfold total. induction 1; simpl; lia. Qed.

(** A loop [for ... { acc += f(x) }] on [uint64] computes the sum modulo
    [2^64]. *)
Lemma fold_left_uint64 {A} (f : A → Z) (l : list A) (a : Z) :
  fold_left (λ acc x, metrics.uint64 (acc + f x)) l (metrics.uint64 a)
  = metrics.uint64 (a + total (map f l)).
Proof.
  revert a. induction l as [|x l IH]; intros a; simpl.
  - by rewrite Z.add_0_r.
  - rewrite uint64_add_l, IH. f_equal. lia.
Qed.

Lemma foldr_uint64 {K A} (f : A → Z) (l : list (K * A)) :
  foldr (uncurry (λ (_ : K) v acc, metrics.uint64 (acc + f v))) 0%Z l
  = metrics.uint64 (total (map (λ kv, f kv.2) l)).
Proof.
  induction l as [|[k x] l IH]; simpl; [done|].
  rewrite IH, uint64_add_l. f_equal. lia.
Qed.

(** X21: the network totals of a sample do not depend on the order in
    which the map of the interfaces is ranged over: in whatever order the
    loop visits the interfaces, the received and the transmitted bytes it
    adds up are the sums over all interfaces, modulo [2^64]. *)
Theorem X21_network_totals_are_sums_modulo_2_64 (stats : types.StatsJSON)
    (order : list (string * types.NetworkStats)) :
  order ≡ₚ map_to_list (types.Networks stats) →
  fold_left (λ rxBytes kv, metrics.uint64 (rxBytes + types.RxBytes kv.2))
    order 0%Z
  = metrics.rxBytes stats ∧
  fold_left (λ txBytes kv, metrics.uint64 (txBytes + types.TxBytes kv.2))
    order 0%Z
  = metrics.txBytes stats ∧
  metrics.rxBytes stats
  = metrics.uint64
      (total (map (λ kv, types.RxBytes kv.2)
                (map_to_list (types.Networks stats)))) ∧
  metrics.txBytes stats
  = metrics.uint64
      (total (map (λ kv, types.TxBytes kv.2)
                (map_to_list (types.Networks stats)))).
Proof.
  intros Horder.
  assert (metrics.rxBytes stats
          = metrics.uint64
              (total (map (λ kv, types.RxBytes kv.2)
                        (map_to_list (types.Networks stats))))) as Hrx.
  { unfold metrics.rxBytes. rewrite map_fold_foldr.
    apply (foldr_uint64 types.RxBytes). }
  assert (metrics.txBytes stats
          = metrics.uint64
              (total (map (λ kv, types.TxBytes kv.2)
                        (map_to_list (types.Networks stats))))) as Htx.
  { unfold metrics.txBytes. rewrite map_fold_foldr.
    apply (foldr_uint64 types.TxBytes). }
  split; [|split; [|done]].
  - rewrite Hrx.
    pose proof (fold_left_uint64 (λ kv, types.RxBytes kv.2) order 0) as Hf.
    change (metrics.uint64 0) with 0%Z in Hf. rewrite Hf. simpl.
    f_equal. apply total_Permutation. by rewrite Horder.
  - rewrite Htx.
    pose proof (fold_left_uint64 (λ kv, types.TxBytes kv.2) order 0) as Hf.
    change (metrics.uint64 0) with 0%Z in Hf. rewrite Hf. simpl.
    f_equal. apply total_Permutation. by rewrite Horder.
Qed.

Lemma blk_fold (op : string) (l : list types.BlkioStatEntry) (a : Z) :
  fold_left
    (λ acc bio,
       if bool_decide (types.Op bio = op)
       then metrics.uint64 (acc + types.Value bio) else acc)
    l (metrics.uint64 a)
  = metrics.uint64
      (a + total (map types.Value
                    (filter (λ bio, types.Op bio = op) l))).
Proof.
  revert a. induction l as [|bio l IH]; intros a; simpl.
  - by rewrite Z.add_0_r.
  - rewrite filter_cons. case_bool_decide as Hop.
    + rewrite decide_True by done. rewrite uint64_add_l, IH. simpl.
      f_equal. lia.
    + rewrite decide_False by done. apply IH.
Qed.

Lemma fold_left_eq {A B} (f g : B → A → B) (l : list A) (b : B) :
  (∀ b a, f b a = g b a) → fold_left f l b = fold_left g l b.
Proof.
  intros Hfg. revert b. induction l as [|a l IH]; intros b; simpl; [done|].
  by rewrite Hfg, IH.
Qed.

(** X22: of the block I/O entries of a sample, only those whose operation
    is exactly ["read"] count for the bytes read, and only those whose
    operation is exactly ["write"] for the bytes written; each total is
    the sum of their values modulo [2^64], and an entry of any other
    operation changes neither. *)
Theorem X22_blkio_totals_count_read_and_write_only (stats : types.StatsJSON) :
  let entries := types.IoServiceBytesRecursive (types.BlkioStats stats) in
  metrics.blkRead stats
  = metrics.uint64
      (total (map types.Value
                (filter (λ bio, types.Op bio = "read") entries))) ∧
  metrics.blkWrite stats
  = metrics.uint64
      (total (map types.Value
                (filter (λ bio, types.Op bio = "write") entries))).
Proof.
  intros entries. split.
  - unfold metrics.blkRead. fold entries.
    pose proof (blk_fold "read" entries 0) as Hf.
    change (metrics.uint64 0) with 0%Z in Hf. by rewrite Z.add_0_l in Hf.
  - unfold metrics.blkWrite. fold entries.
    pose proof (blk_fold "write" entries 0) as Hf.
    change (metrics.uint64 0) with 0%Z in Hf. rewrite Z.add_0_l in Hf.
    rewrite <- Hf.
    apply fold_left_eq. intros acc bio.
    repeat case_bool_decide; congruence.
Qed.

Lemma fsub_zero (x : spec_float) : metrics.fsub x (S754_zero false) = x.
Proof. by destruct x as [[]| | |]. Qed.

(** X23: a key that the memory statistics of a sample do not hold reads
    as zero.  Without the key ["cache"] the cache gauge is set to zero and
    the overall memory usage to the memory usage itself; without the key
    ["rss"] the RSS gauge is set to zero. *)
Theorem X23_missing_memory_keys_read_as_zero (stats : types.StatsJSON) :
  (types.Stats (types.MemoryStats stats) !! "cache" = None →
   metrics.memoryCache stats = S754_zero false ∧
   metrics.overallMemoryUsage stats = metrics.memoryUsage stats) ∧
  (types.Stats (types.MemoryStats stats) !! "rss" = None →
   metrics.memoryRSS stats = S754_zero false).
Proof.
  split.
  - intros Hnone. unfold metrics.overallMemoryUsage, metrics.memoryCache.
    rewrite Hnone. simpl. split; [done|]. apply fsub_zero.
  - intros Hnone. unfold metrics.memoryRSS. by rewrite Hnone.
Qed.

Lemma fmul_zero (x : spec_float) :
  metrics.fmul x (S754_zero false) = S754_nan ∨
  ∃ s, metrics.fmul x (S754_zero false) = S754_zero s.
Proof. destruct x; simpl; eauto. Qed.

Lemma fmul_hundred (x : spec_float) :
  (x = S754_nan ∨ ∃ s, x = S754_zero s) →
  metrics.fmul x (metrics.float64 100) = S754_nan ∨
  ∃ s, metrics.fmul x (metrics.float64 100) = S754_zero s.
Proof.
  assert (∃ m e, metrics.float64 100 = S754_finite false m e) as (m & e & ->).
  { eexists _, _. vm_compute. reflexivity. }
  intros [->|[s ->]]; simpl; eauto.
Qed.

(** X24: the CPU percentage is the ratio of the deltas multiplied by the
    number of per-CPU entries of the sample.  For a sample that lists no
    per-CPU usage the gauge is therefore set to zero, or to NaN, however
    much CPU the container has used. *)
Theorem X24_cpu_percent_without_per_cpu_entries (stats : types.StatsJSON) :
  types.PercpuUsage (types.CPUUsage (types.CPUStats stats)) = [] →
  metrics.cpuPercent stats = S754_nan ∨
  ∃ s, metrics.cpuPercent stats = S754_zero s.
Proof.
  intros Hnone. unfold metrics.cpuPercent. rewrite Hnone.
  change (metrics.float64 (Z.of_nat (length []))) with (S754_zero false).
  apply fmul_hundred, fmul_zero.
Qed.

Lemma X21_network_totals_are_sums_modulo_2_64_witness :
  fold_left (λ rxBytes kv, metrics.uint64 (rxBytes + types.RxBytes kv.2))
    [("eth1", cases.eth1); ("eth0", cases.eth0)] 0%Z
  = metrics.rxBytes cases.busy ∧
  fold_left (λ txBytes kv, metrics.uint64 (txBytes + types.TxBytes kv.2))
    [("eth1", cases.eth1); ("eth0", cases.eth0)] 0%Z
  = metrics.txBytes cases.busy ∧
  metrics.rxBytes cases.busy
  = metrics.uint64
      (total (map (λ kv, types.RxBytes kv.2)
                (map_to_list (types.Networks cases.busy)))) ∧
  metrics.txBytes cases.busy
  = metrics.uint64
      (total (map (λ kv, types.TxBytes kv.2)
                (map_to_list (types.Networks cases.busy)))).
Proof.
  apply (X21_network_totals_are_sums_modulo_2_64 cases.busy
           [("eth1", cases.eth1); ("eth0", cases.eth0)]).
  vm_compute. first [reflexivity | apply perm_swap].
Defined.

Lemma X23_missing_memory_keys_read_as_zero_witness :
  metrics.memoryCache samples.still = S754_zero false ∧
  metrics.overallMemoryUsage samples.still = metrics.memoryUsage samples.still.
Proof.
  apply (proj1 (X23_missing_memory_keys_read_as_zero samples.still)).
  reflexivity.
Defined.

Lemma X24_cpu_percent_without_per_cpu_entries_witness :
  metrics.cpuPercent cases.no_percpu = S754_nan ∨
  ∃ s, metrics.cpuPercent cases.no_percpu = S754_zero s.
Proof.
  apply (X24_cpu_percent_without_per_cpu_entries cases.no_percpu).
  reflexivity.
Defined.

(** The totals of a sample with two interfaces and four block I/O entries,
    one of them neither a read nor a write; and the CPU gauge of a
    container that has used a fifth of the CPU, in a sample without
    per-CPU entries. *)
Example totals_of_a_busy_sample :
  metrics.rxBytes cases.busy = 4000%Z ∧ metrics.txBytes cases.busy = 1000%Z ∧
  metrics.blkRead cases.busy = 15%Z ∧ metrics.blkWrite cases.busy = 20%Z.
Proof. vm_compute. repeat split; reflexivity. Qed.

Example cpuPercent_no_percpu :
  metrics.cpuPercent cases.no_percpu = S754_zero false.
Proof. vm_compute. reflexivity. Qed.
